(** * The engine-out scenario of the FireEye autotest

    A shallow embedding of [Tools/autotest/fireeye.py]: the test class
    [AutoTestFireEye], its [reset_aircraft] and [do_guided] steps and the
    scenario [EngineOutScript] with its nested [basic_auto_mission].

    The script is a sequence of method calls on the test-suite base class
    ([vehicle_test_suite.TestSuite]), on [os], [shutil] and [random].  None
    of these is defined in the file itself, so each such call is an explicit
    effect: the script runs in a monad that threads the state of the world
    (vehicle, simulator, file system), stops at the first exception and
    records every call with its reply. *)

From Stdlib Require Import String Ascii List ZArith QArith Qabs Lia Bool DecimalString.
From Stdlib Require SpecFloat.
Import ListNotations.
Local Open Scope string_scope.
Local Open Scope Z_scope.

(** ** Data *)

(** [mavutil.location(lat, lng, alt, heading)].  Latitude and longitude are
    Python floats: a field holds the number as it is written in the script
    (or reported by the vehicle), and [float_of_Q] below gives the double
    that Python holds for it. *)
Record location := mk_location {
  lat : Q;
  lng : Q;
  alt : Z;
  loc_heading : Z
}.

Definition WIND : string := "0,180,0.2".

Definition SITL_START_LOCATION : location :=
  mk_location 36.8325082 (-2.8512096) 735 0.

(** Exceptions: the three the script imports from [vehicle_test_suite], the
    two it can raise by itself ([ValueError] by [raise], [KeyError] by a
    failed subscript) and any other one a callee may raise. *)
Inductive exn :=
| AutoTestTimeoutException (msg : string)
| NotAchievedException (msg : string)
| PreconditionFailedException (msg : string)
| ValueError (msg : string)
| KeyError (key : string)
| OtherException (msg : string).

(** The names of [mavutil.mavlink] the script mentions. *)
Inductive mav_cmd := MAV_CMD_DO_ENGINE_CONTROL | MAV_CMD_NAV_WAYPOINT.
Inductive mav_frame := MAV_FRAME_GLOBAL_RELATIVE_ALT.

(** A Python [dict] keyed by strings, in insertion order (the order in
    which [for p in d] visits the keys). *)
Definition dict (V : Type) : Type := list (string * V).

Fixpoint dict_get {V : Type} (d : dict V) (k : string) : option V :=
  match d with
  | [] => None
  | (k', v) :: d' => if String.eqb k' k then Some v else dict_get d' k
  end.

Definition dict_keys {V : Type} (d : dict V) : list string := map fst d.

(** ** The calls the script makes *)

Inductive call :=
| DisarmVehicle (force : bool)
| RebootSitl
| RepeatedlyApplyParameterFile (path : string)
| SetRc (chan pwm : Z)
| ChangeMode (mode : string)
| RunCmd (cmd : mav_cmd) (p1 : Z)
| WaitRpm (instance min_rpm max_rpm : Z)
| WaitReadyToArm
| WaitNotReadyToArm
| MissionItemIntSend (target_system target_component seq : Z)
    (frame : mav_frame) (command : mav_cmd) (current autocontinue : Z)
    (p1 p2 p3 p4 : Z) (x y : Z) (z : Z)
| UploadRallyPointsFromLocations (locs : list location)
| SetParameter (name : string) (value : Z)
| ArmVehicle
| WaitCurrentWaypoint (wpnum timeout : Z)
| WaitHeading (heading accuracy timeout : Z)
| WaitMode (mode : string)
| DelaySimTime (seconds : Z)
| WaitText (text : string)
| WaitDisarmed (timeout : option Z)
| MavLocation
| AssertDistance (l1 l2 : location) (min_distance max_distance : Z)
| StartSubtest (msg : string)
| EndSubtest (msg : string)
| Progress (msg : string)
| DownloadParameters (sysid compid : Z)
| SysidThismav
| MavSourceSystem
| Rootdir
| OsPathExists (path : string)
| OsMkdir (path : string)
| ShutilCopy (src dst : string)
| InstallScript (source name : string)
| InstallAppletScript (name : string)
| LoadMission (filename : string)
| RemoveInstalledModules (name : string)
| RemoveInstalledScript (name : string)
| RandomSample (population : list Z) (k : Z).

(** What a call returns to the script.  Results the script drops are [unit]. *)
Definition ret_type (V : Type) (c : call) : Type :=
  match c with
  | MavLocation => location
  | DownloadParameters _ _ => (dict V * Z)%type
  | SysidThismav => Z
  | MavSourceSystem => Z
  | Rootdir => string
  | OsPathExists _ => bool
  | RandomSample _ _ => list Z
  | _ => unit
  end.

(** The same, as one type, for the record of a run. *)
Inductive reply (V : Type) :=
| RNone
| RLocation (l : location)
| RParams (d : dict V) (seq : Z)
| RInt (z : Z)
| RStr (s : string)
| RBool (b : bool)
| RInts (l : list Z).
Arguments RNone {V}.
Arguments RLocation {V} l.
Arguments RParams {V} d seq.
Arguments RInt {V} z.
Arguments RStr {V} s.
Arguments RBool {V} b.
Arguments RInts {V} l.

Definition to_reply (V : Type) (c : call) : ret_type V c -> reply V :=
  match c as c0 return ret_type V c0 -> reply V with
  | MavLocation => fun l => RLocation l
  | DownloadParameters _ _ => fun r => RParams (fst r) (snd r)
  | SysidThismav => fun z => RInt z
  | MavSourceSystem => fun z => RInt z
  | Rootdir => fun s => RStr s
  | OsPathExists _ => fun b => RBool b
  | RandomSample _ _ => fun l => RInts l
  | _ => fun _ => RNone
  end.

(** ** The test suite the script runs against

    Everything [fireeye.py] uses and does not define: the state of the world
    and the effect of each call on it ([exec]), the values of downloaded
    parameters with Python's [!=] and [str] on them, Python's fixed-point
    float formatting (the [.Nf] of an f-string) and the directory of the
    script file. *)
Class TestSuite := {
  World : Type;
  pvalue : Type;
  py_ne : pvalue -> pvalue -> bool;
  py_str : pvalue -> string;
  format_f : nat -> Q -> string;
  testdir : string;
  exec : forall c : call, World -> (exn + ret_type pvalue c) * World
}.

(** One call of a run: what was called, what came back, and the world then. *)
Record event `{TestSuite} := mk_event {
  ev_call : call;
  ev_reply : exn + reply pvalue;
  ev_post : World
}.
Arguments mk_event {_} ev_call ev_reply ev_post.

Definition returned `{TestSuite} (ev : event) : bool :=
  match ev_reply ev with inr _ => true | inl _ => false end.

(** ** The script monad: state, exceptions, and the record of calls *)

Definition M `{TestSuite} (A : Type) : Type :=
  World -> (exn + A) * World * list event.

Definition ret `{TestSuite} {A : Type} (a : A) : M A :=
  fun w => (inr a, w, []).

Definition raise `{TestSuite} {A : Type} (e : exn) : M A :=
  fun w => (inl e, w, []).

Definition bind `{TestSuite} {A B : Type} (m : M A) (f : A -> M B) : M B :=
  fun w =>
    match m w with
    | (inl e, w1, t1) => (inl e, w1, t1)
    | (inr a, w1, t1) =>
        match f a w1 with
        | (r, w2, t2) => (r, w2, (t1 ++ t2)%list)
        end
    end.

Definition reply_of `{TestSuite} (c : call) (r : exn + ret_type pvalue c)
  : exn + reply pvalue :=
  match r with
  | inl e => inl e
  | inr v => inr (to_reply pvalue c v)
  end.

Definition do `{TestSuite} (c : call) : M (ret_type pvalue c) :=
  fun w =>
    match exec c w with
    | (r, w1) => (r, w1, [mk_event c (reply_of c r) w1])
    end.

Declare Scope script_scope.
Delimit Scope script_scope with script.
Notation "x <- m ;; k" := (bind m (fun x => k))
  (at level 61, m at next level, right associativity) : script_scope.
Notation "m ;; k" := (bind m (fun _ => k))
  (at level 61, right associativity) : script_scope.
Local Open Scope script_scope.

(** An expression that may raise, evaluated inside a script. *)
Definition lift `{TestSuite} {A : Type} (r : exn + A) : M A :=
  fun w => (r, w, []).

(** [for x in l: body(x)] *)
Fixpoint for_each `{TestSuite} {A : Type} (l : list A) (body : A -> M unit)
  : M unit :=
  match l with
  | [] => ret tt
  | x :: xs => body x ;; for_each xs body
  end.

(** ** Python library functions the script uses *)

(** Truth value of an [int] in a condition. *)
Definition truthy (z : Z) : bool := negb (z =? 0).

(** [list(range(start, stop, step))] for a positive step. *)
Definition py_range (start stop step : Z) : list Z :=
  map (fun i => start + step * Z.of_nat i)
      (seq 0 (Z.to_nat ((stop - start + step - 1) / step))).

(** Python's [float] is the IEEE 754 binary64 format: 53 bits of precision,
    exponents below 1024, every operation rounded to nearest, ties to
    even. *)
Definition float : Type := SpecFloat.spec_float.
Definition prec : Z := 53.
Definition emax : Z := 1024.

(** The float of an integer literal, and of a number written in decimal:
    the double nearest to it, an infinity when it is out of range. *)
Definition float_of_Z (z : Z) : float :=
  SpecFloat.binary_normalize prec emax z 0 false.

Definition float_of_Q (q : Q) : float :=
  let nearest (s : bool) (n : positive) :=
    let '(mz, ez, lz) :=
      SpecFloat.SFdiv_core_binary prec emax (Zpos n) 0 (Zpos (Qden q)) 0 in
    SpecFloat.binary_round_aux prec emax s mz ez lz in
  match Qnum q with
  | Z0 => SpecFloat.S754_zero false
  | Zpos n => nearest false n
  | Zneg n => nearest true n
  end.

(** [x * y] on floats. *)
Definition float_mul (x y : float) : float := SpecFloat.SFmul prec emax x y.

(** The literal [1e7]. *)
Definition float_1e7 : float := float_of_Z 10000000.

(** [int(x)] on a float: truncation towards zero; an infinity raises
    [OverflowError] and a NaN [ValueError]. *)
Definition py_int (x : float) : exn + Z :=
  match x with
  | SpecFloat.S754_zero _ => inr 0
  | SpecFloat.S754_finite s m e =>
      let a :=
        match e with
        | Z0 => Zpos m
        | Zpos p => Zpos m * 2 ^ Zpos p
        | Zneg p => Zpos m / 2 ^ Zpos p
        end in
      inr (if s then - a else a)
  | SpecFloat.S754_infinity _ =>
      inl (OtherException
             "OverflowError: cannot convert float infinity to integer")
  | SpecFloat.S754_nan => inl (ValueError "cannot convert float NaN to integer")
  end.

(** The number a finite float stands for. *)
Definition float_value (x : float) : option Q :=
  match x with
  | SpecFloat.S754_zero _ => Some 0%Q
  | SpecFloat.S754_finite s m e =>
      let a :=
        match e with
        | Z0 => inject_Z (Zpos m)
        | Zpos p => inject_Z (Zpos m * 2 ^ Zpos p)
        | Zneg p => Qmake (Zpos m) (2 ^ p)
        end in
      Some (if s then Qopp a else a)
  | SpecFloat.S754_infinity _ => None
  | SpecFloat.S754_nan => None
  end.

(** [int(x * 1e7)] for the float [x] of a coordinate. *)
Definition scaled_e7 (q : Q) : exn + Z :=
  py_int (float_mul (float_of_Q q) float_1e7).

Fixpoint ends_with_slash (s : string) : bool :=
  match s with
  | EmptyString => false
  | String c EmptyString => Ascii.eqb c "/"%char
  | String _ s' => ends_with_slash s'
  end.

(** [os.path.join(a, *ps)] on a POSIX system. *)
Definition path_join2 (path b : string) : string :=
  if String.prefix "/" b then b
  else if String.eqb path "" || ends_with_slash path then path ++ b
  else path ++ "/" ++ b.

Definition os_path_join (a : string) (ps : list string) : string :=
  fold_left path_join2 ps a.

(** ** The methods of the base class, as calls *)

Section Methods.
Context `{TS : TestSuite}.

Definition disarm_vehicle (force : bool) : M unit := do (DisarmVehicle force).
Definition reboot_sitl : M unit := do RebootSitl.
Definition repeatedly_apply_parameter_file (path : string) : M unit :=
  do (RepeatedlyApplyParameterFile path).
Definition set_rc (chan pwm : Z) : M unit := do (SetRc chan pwm).
Definition change_mode (mode : string) : M unit := do (ChangeMode mode).
Definition run_cmd (cmd : mav_cmd) (p1 : Z) : M unit := do (RunCmd cmd p1).
Definition wait_rpm (instance min_rpm max_rpm : Z) : M unit :=
  do (WaitRpm instance min_rpm max_rpm).
Definition wait_ready_to_arm : M unit := do WaitReadyToArm.
Definition wait_not_ready_to_arm : M unit := do WaitNotReadyToArm.
Definition upload_rally_points_from_locations (locs : list location) : M unit :=
  do (UploadRallyPointsFromLocations locs).
Definition set_parameter (name : string) (value : Z) : M unit :=
  do (SetParameter name value).
Definition arm_vehicle : M unit := do ArmVehicle.
Definition wait_current_waypoint (wpnum timeout : Z) : M unit :=
  do (WaitCurrentWaypoint wpnum timeout).
Definition wait_heading (heading accuracy timeout : Z) : M unit :=
  do (WaitHeading heading accuracy timeout).
Definition wait_mode (mode : string) : M unit := do (WaitMode mode).
Definition delay_sim_time (seconds : Z) : M unit := do (DelaySimTime seconds).
Definition wait_text (text : string) : M unit := do (WaitText text).
Definition wait_disarmed (timeout : option Z) : M unit :=
  do (WaitDisarmed timeout).
Definition mav_location : M location := do MavLocation.
Definition assert_distance (l1 l2 : location) (min_distance max_distance : Z)
  : M unit := do (AssertDistance l1 l2 min_distance max_distance).
Definition start_subtest (msg : string) : M unit := do (StartSubtest msg).
Definition end_subtest (msg : string) : M unit := do (EndSubtest msg).
Definition progress (msg : string) : M unit := do (Progress msg).
Definition download_parameters (sysid compid : Z) : M (dict pvalue * Z) :=
  do (DownloadParameters sysid compid).
Definition sysid_thismav : M Z := do SysidThismav.
Definition mav_source_system : M Z := do MavSourceSystem.
Definition rootdir : M string := do Rootdir.
Definition os_path_exists (path : string) : M bool := do (OsPathExists path).
Definition os_mkdir (path : string) : M unit := do (OsMkdir path).
Definition shutil_copy (src dst : string) : M unit := do (ShutilCopy src dst).
Definition install_script (source name : string) : M unit :=
  do (InstallScript source name).
Definition install_applet_script (name : string) : M unit :=
  do (InstallAppletScript name).
Definition load_mission (filename : string) : M unit := do (LoadMission filename).
Definition remove_installed_modules (name : string) : M unit :=
  do (RemoveInstalledModules name).
Definition remove_installed_script (name : string) : M unit :=
  do (RemoveInstalledScript name).
Definition random_sample (population : list Z) (k : Z) : M (list Z) :=
  do (RandomSample population k).

(** [d[p]]: a missing key raises [KeyError]. *)
Definition dict_getitem (d : dict pvalue) (p : string) : M pvalue :=
  match dict_get d p with
  | Some v => ret v
  | None => raise (KeyError p)
  end.

(** ** class AutoTestFireEye *)

Definition get_not_armable_mode_list : list string := [].
Definition get_not_disarmed_settable_modes_list : list string := [].
Definition get_no_position_not_settable_modes_list : list string := [].
Definition get_position_armable_modes_list : list string := [].
Definition get_normal_armable_modes_list : list string := [].
Definition vehicleinfo_key : string := "ArduPlane".

(** RealFlight doesn't support speedup. *)
Definition default_speedup : Z := 1.
Definition log_name : string := "FireEye".
Definition defaults_filepath : string :=
  os_path_join testdir ["default_params/fireeye.parm"].
Definition is_plane : bool := true.
Definition default_mode : string := "QHOVER".

(** [reset_aircraft]: reset aircraft and wait for it to be ready to arm. *)
Definition reset_aircraft : M unit :=
  disarm_vehicle true ;;
  reboot_sitl ;;
  repeatedly_apply_parameter_file
    (os_path_join testdir ["default_params/fireeye-engout.parm"]) ;;
  set_rc 3 1000 ;;
  change_mode "QHOVER" ;;
  run_cmd MAV_CMD_DO_ENGINE_CONTROL 1 ;;
  wait_rpm 2 1000 3000 ;;
  wait_ready_to_arm.

(** [do_guided]: fly to a location in GUIDED mode.  The arguments of
    [mission_item_int_send] are evaluated, in order, before the call. *)
Definition do_guided (loc : location) : M unit :=
  change_mode "GUIDED" ;;
  x <- lift (py_int (float_mul (float_of_Q (lat loc)) float_1e7)) ;;
  y <- lift (py_int (float_mul (float_of_Q (lng loc)) float_1e7)) ;;
  do (MissionItemIntSend
        1 1
        0
        MAV_FRAME_GLOBAL_RELATIVE_ALT
        MAV_CMD_NAV_WAYPOINT
        2
        0
        0 0 0 0
        x
        y
        (alt loc)).

(** The subtest message of [basic_auto_mission]. *)
Definition subtest_message (heading : Z) (target : location) (is_guided : bool)
    (qassist_timeout qrtl_timeout : Z) : string :=
  let m0 :=
    ("Basic mission test with heading " ++ format_f 0 (inject_Z heading))
    ++ " and " ++ (if is_guided then "guided" else "rally")
    ++ (" " ++ format_f 6 (lat target) ++ ", " ++ format_f 6 (lng target)) in
  let m1 :=
    if truthy qassist_timeout
    then "Testing that the Q_ASSIST timeout works" else m0 in
  if truthy qrtl_timeout then "Testing that the QRTL timeout works" else m1.

(** [basic_auto_mission], the function nested in [EngineOutScript]: run the
    basic auto mission and kill the engine at the desired heading. *)
Definition basic_auto_mission (heading : Z) (target : location)
    (is_guided : bool) (min_distance max_distance : Z)
    (qassist_timeout qrtl_timeout : Z) : M unit :=
  let msg :=
    subtest_message heading target is_guided qassist_timeout qrtl_timeout in
  start_subtest msg ;;
  reset_aircraft ;;
  (if negb is_guided
   then upload_rally_points_from_locations [target] else ret tt) ;;
  (if truthy qassist_timeout
   then set_parameter "ENGOUT_QAST_TIME" qassist_timeout else ret tt) ;;
  (if truthy qrtl_timeout
   then set_parameter "ENGOUT_QRTL_TIME" qrtl_timeout else ret tt) ;;
  change_mode "AUTO" ;;
  arm_vehicle ;;
  set_rc 3 1500 ;;
  wait_current_waypoint 4 600 ;;
  wait_heading heading 5 300 ;;
  run_cmd MAV_CMD_DO_ENGINE_CONTROL 0 ;;
  (if is_guided
   then wait_mode "RTL" ;; delay_sim_time 10 ;; do_guided target
   else ret tt) ;;
  (if truthy qassist_timeout then wait_text "Q_ASSIST for too long"
   else if truthy qrtl_timeout then wait_text "QRTL for too long"
   else ret tt) ;;
  wait_disarmed (Some 600) ;;
  here <- mav_location ;;
  assert_distance target here min_distance max_distance ;;
  end_subtest msg.

(** The defaults of the keyword arguments of [basic_auto_mission]. *)
Definition default_is_guided : bool := false.
Definition default_min_distance : Z := 0.
Definition default_max_distance : Z := 50.
Definition default_timeout_override : Z := 0.

Definition rally_loc : location := mk_location 36.8164241 (-2.868918) 5000 0.
Definition guided_loc : location := mk_location 36.8192676 (-2.8719136) 5000 0.

Definition param_ignore_filter : list string :=
  ["STAT"; "BARO"; "SERVO"; "Q_P_ACCZ_IMAX"].

(** [any(p.startswith(s) for s in param_ignore_filter)] *)
Definition ignored (p : string) : bool :=
  existsb (fun s => String.prefix s p) param_ignore_filter.

(** [f"{p} changed from {params_before[p]} to {params_after[p]}"] *)
Definition changed_message (p : string) (a b : pvalue) : string :=
  p ++ " changed from " ++ py_str a ++ " to " ++ py_str b.

(** The loop under "Print differences". *)
Definition print_differences (params_before params_after : dict pvalue)
  : M unit :=
  for_each (dict_keys params_before) (fun p =>
    if ignored p then ret tt
    else
      a <- dict_getitem params_before p ;;
      b <- dict_getitem params_after p ;;
      if py_ne a b then progress (changed_message p a b) else ret tt).

(** The loop under "Assert that all parameters are the same". *)
Definition assert_parameters_same (params_before params_after : dict pvalue)
  : M unit :=
  for_each (dict_keys params_before) (fun p =>
    if ignored p then ret tt
    else
      a <- dict_getitem params_before p ;;
      b <- dict_getitem params_after p ;;
      if py_ne a b then raise (ValueError (changed_message p a b))
      else ret tt).

(** ** EngineOutScript

    The body of [EngineOutScript] is cut at its comment banners into named
    blocks; [EngineOutScript] below is their sequence in source order. *)

(** "Install the scripts", up to the upload of the mission. *)
Definition install_scripts : M unit :=
  r1 <- rootdir ;;
  let source :=
    os_path_join r1 ["libraries"; "AP_Scripting"; "modules"; "utilities.lua"] in
  r2 <- rootdir ;;
  let destdir := os_path_join r2 ["scripts"; "modules"] in
  let dest := "utilities.lua" in
  there <- os_path_exists destdir ;;
  (if negb there then os_mkdir destdir else ret tt) ;;
  progress ("Copying (" ++ source ++ ") to (" ++ dest ++ ")") ;;
  shutil_copy source (os_path_join destdir [dest]) ;;
  r3 <- rootdir ;;
  let source :=
    os_path_join r3 ["libraries"; "AP_Scripting"; "drivers"; "EFI_SITL.lua"] in
  install_script source "EFI_SITL.lua" ;;
  install_applet_script "engine_out.lua".

Definition prepare_vehicle : M unit :=
  reboot_sitl ;;
  set_parameter "FENCE_ENABLE" 0 ;;
  gcs <- mav_source_system ;;
  set_parameter "SYSID_MYGCS" gcs ;;
  load_mission "mission.waypoints".

(** "Test guided override" *)
Definition test_guided_override : M unit :=
  upload_rally_points_from_locations [rally_loc] ;;
  basic_auto_mission 270 guided_loc true
    default_min_distance default_max_distance
    default_timeout_override default_timeout_override.

(** "Test regular landings from many random angles" *)
Definition test_random_angles : M unit :=
  sample <- random_sample (py_range 0 360 1) 4 ;;
  let headings := (py_range 0 360 90 ++ sample)%list in
  for_each headings (fun heading =>
    basic_auto_mission heading rally_loc default_is_guided
      default_min_distance default_max_distance
      default_timeout_override default_timeout_override).

(** "Test the Q_ASSIST timeout" *)
Definition test_qassist_timeout : M unit :=
  basic_auto_mission 270 rally_loc default_is_guided 0 300
    1 default_timeout_override.

(** "Test the QRTL timeout" *)
Definition test_qrtl_timeout : M unit :=
  basic_auto_mission 270 rally_loc default_is_guided 50 300
    default_timeout_override 5.

Definition params_subtest_name : string :=
  "Testing detections and parameters backup/restore".

(** "Test detection messages, and the backup and restore of all parameters" *)
Definition test_parameters_backup_restore : M unit :=
  start_subtest params_subtest_name ;;
  reset_aircraft ;;
  sysid <- sysid_thismav ;;
  dl1 <- download_parameters sysid 1 ;;
  let params_before := fst dl1 in
  change_mode "AUTO" ;;
  arm_vehicle ;;
  set_rc 3 1500 ;;
  wait_current_waypoint 4 600 ;;
  run_cmd MAV_CMD_DO_ENGINE_CONTROL 0 ;;
  wait_text "Engine out" ;;
  delay_sim_time 1 ;;
  sysid <- sysid_thismav ;;
  dl2 <- download_parameters sysid 1 ;;
  let params_after := fst dl2 in
  print_differences params_before params_after ;;
  run_cmd MAV_CMD_DO_ENGINE_CONTROL 1 ;;
  wait_text "Engine running" ;;
  delay_sim_time 1 ;;
  sysid <- sysid_thismav ;;
  dl3 <- download_parameters sysid 1 ;;
  let params_after := fst dl3 in
  assert_parameters_same params_before params_after ;;
  disarm_vehicle true ;;
  wait_disarmed None ;;
  end_subtest params_subtest_name.

(** "Test prearm checks" *)
Definition test_prearm_checks : M unit :=
  start_subtest "Testing prearm checks" ;;
  reset_aircraft ;;
  set_parameter "GLIDE_SPD" 1 ;;
  wait_not_ready_to_arm ;;
  set_parameter "GLIDE_SPD" 22 ;;
  wait_ready_to_arm ;;
  set_parameter "GLIDE_SPD" 100 ;;
  wait_not_ready_to_arm ;;
  set_parameter "GLIDE_SPD" 22 ;;
  wait_ready_to_arm ;;
  run_cmd MAV_CMD_DO_ENGINE_CONTROL 0 ;;
  wait_not_ready_to_arm ;;
  run_cmd MAV_CMD_DO_ENGINE_CONTROL 1 ;;
  wait_ready_to_arm ;;
  end_subtest "Testing prearm checks".

Definition remove_scripts : M unit :=
  remove_installed_modules "utilities.lua" ;;
  remove_installed_script "EFI_SITL.lua" ;;
  remove_installed_script "engine_out.lua".

(** The sub-scenarios, in source order. *)
Definition sub_scenarios : list (M unit) :=
  [ test_guided_override;
    test_random_angles;
    test_qassist_timeout;
    test_qrtl_timeout;
    test_parameters_backup_restore;
    test_prearm_checks ].

(** [EngineOutScript]: test engine out script in RealFlight on an AgTS
    FireEye. *)
Definition EngineOutScript : M unit :=
  install_scripts ;;
  prepare_vehicle ;;
  test_guided_override ;;
  test_random_angles ;;
  test_qassist_timeout ;;
  test_qrtl_timeout ;;
  test_parameters_backup_restore ;;
  test_prearm_checks ;;
  remove_scripts.

(** [tests]: the list of all tests. *)
Definition tests : list (M unit) := [EngineOutScript].

(** ** Reading a run *)

Definition result {A : Type} (m : M A) (w : World) : exn + A := fst (fst (m w)).
Definition final {A : Type} (m : M A) (w : World) : World := snd (fst (m w)).
Definition trace {A : Type} (m : M A) (w : World) : list event := snd (m w).

Definition calls (tr : list event) : list call := map ev_call tr.

(** [tr] is what the suite does from [w] on: each call is answered by [exec]
    in the world the previous call left, and the run ends in [w']. *)
Inductive run_of : World -> list event -> World -> Prop :=
| run_nil (w : World) : run_of w [] w
| run_cons (w : World) (c : call) (tr : list event) (w' : World) :
    run_of (snd (exec c w)) tr w' ->
    run_of w (mk_event c (reply_of c (fst (exec c w))) (snd (exec c w)) :: tr) w'.

(** No exception is caught: a call that raises is the last call of the run
    and its exception is the result of the run. *)
Definition uncaught {A : Type} (r : exn + A) (tr : list event) : Prop :=
  forall tr1 ev tr2 e,
    tr = (tr1 ++ ev :: tr2)%list -> ev_reply ev = inl e ->
    tr2 = [] /\ r = inl e.

(** A script that only sequences calls (no [try]). *)
Definition plain {A : Type} (m : M A) : Prop :=
  forall w, run_of w (trace m w) (final m w) /\ uncaught (result m w) (trace m w).

(** A script that fails only when one of its calls does: the exception of
    the run is the one the last call raised. *)
Definition fails_by_call {A : Type} (m : M A) : Prop :=
  forall w e, result m w = inl e ->
    exists tr0 ev, trace m w = (tr0 ++ [ev])%list /\ ev_reply ev = inl e.

Definition is_prefix {A : Type} (l1 l2 : list A) : Prop :=
  exists k, l2 = (l1 ++ k)%list.

End Methods.

(** ** The step lists of the specification *)

Section Steps.
Context `{TS : TestSuite}.

(** The steps of [reset_aircraft] as the specification lists them:
    force-disarm, restart the vehicle process, reapply the baseline
    parameter file, throttle stick to idle, hover-capable mode, engine
    start, RPM in the expected band, armable. *)
Definition reset_steps : list call :=
  [ DisarmVehicle true;
    RebootSitl;
    RepeatedlyApplyParameterFile
      (os_path_join testdir ["default_params/fireeye-engout.parm"]);
    SetRc 3 1000;
    ChangeMode "QHOVER";
    RunCmd MAV_CMD_DO_ENGINE_CONTROL 1;
    WaitRpm 2 1000 3000;
    WaitReadyToArm ].

(** The diversion command of [do_guided]: the change of mode, and the
    mission item when both coordinates convert to integers. *)
Definition guided_steps (target : location) : list call :=
  ChangeMode "GUIDED"
  :: match scaled_e7 (lat target), scaled_e7 (lng target) with
     | inr x, inr y =>
         [ MissionItemIntSend 1 1 0 MAV_FRAME_GLOBAL_RELATIVE_ALT
             MAV_CMD_NAV_WAYPOINT 2 0 0 0 0 0 x y (alt target) ]
     | _, _ => []
     end.

(** The steps 1 to 9 of the specification of [basic_auto_mission]: from the
    reset to the engine failure and what follows it in the air. *)
Definition mission_steps_in_flight (heading : Z) (target : location)
    (is_guided : bool) (qassist_timeout qrtl_timeout : Z) : list call :=
  let msg :=
    subtest_message heading target is_guided qassist_timeout qrtl_timeout in
  ([StartSubtest msg]
   ++ reset_steps
   ++ (if is_guided then [] else [UploadRallyPointsFromLocations [target]])
   ++ (if truthy qassist_timeout
       then [SetParameter "ENGOUT_QAST_TIME" qassist_timeout] else [])
   ++ (if truthy qrtl_timeout
       then [SetParameter "ENGOUT_QRTL_TIME" qrtl_timeout] else [])
   ++ [ChangeMode "AUTO"; ArmVehicle; SetRc 3 1500]
   ++ [WaitCurrentWaypoint 4 600]
   ++ [WaitHeading heading 5 300]
   ++ [RunCmd MAV_CMD_DO_ENGINE_CONTROL 0]
   ++ (if is_guided
       then [WaitMode "RTL"; DelaySimTime 10] ++ guided_steps target else [])
   ++ (if truthy qassist_timeout then [WaitText "Q_ASSIST for too long"]
       else if truthy qrtl_timeout then [WaitText "QRTL for too long"]
       else []))%list.

(** The steps that come before the engine failure: from the start of the
    subtest to the wait for the heading. *)
Definition mission_steps_before_kill (heading : Z) (target : location)
    (is_guided : bool) (qassist_timeout qrtl_timeout : Z) : list call :=
  let msg :=
    subtest_message heading target is_guided qassist_timeout qrtl_timeout in
  ([StartSubtest msg]
   ++ reset_steps
   ++ (if is_guided then [] else [UploadRallyPointsFromLocations [target]])
   ++ (if truthy qassist_timeout
       then [SetParameter "ENGOUT_QAST_TIME" qassist_timeout] else [])
   ++ (if truthy qrtl_timeout
       then [SetParameter "ENGOUT_QRTL_TIME" qrtl_timeout] else [])
   ++ [ChangeMode "AUTO"; ArmVehicle; SetRc 3 1500]
   ++ [WaitCurrentWaypoint 4 600]
   ++ [WaitHeading heading 5 300])%list.

(** The exception [do_guided] raises by itself for a target: the one of
    the first coordinate that does not convert to an integer, if any. *)
Definition conversion_error (target : location) : option exn :=
  match scaled_e7 (lat target) with
  | inl e => Some e
  | inr _ =>
      match scaled_e7 (lng target) with
      | inl e => Some e
      | inr _ => None
      end
  end.

(** The steps 10 and 11: the wait for the disarm and the distance
    assertion on the location [here] read after it. *)
Definition mission_steps_landing (heading : Z) (target : location)
    (is_guided : bool)
    (min_distance max_distance qassist_timeout qrtl_timeout : Z)
    (here : location) : list call :=
  [ WaitDisarmed (Some 600);
    MavLocation;
    AssertDistance target here min_distance max_distance;
    EndSubtest
      (subtest_message heading target is_guided qassist_timeout qrtl_timeout) ].

(** The steps 1 to 11 of the specification of [basic_auto_mission]. *)
Definition mission_steps (heading : Z) (target : location) (is_guided : bool)
    (min_distance max_distance qassist_timeout qrtl_timeout : Z)
    (here : location) : list call :=
  (mission_steps_in_flight heading target is_guided
     qassist_timeout qrtl_timeout
   ++ mission_steps_landing heading target is_guided
        min_distance max_distance qassist_timeout qrtl_timeout here)%list.

(** A change of the vehicle and the armability wait that follows it, for
    the prearm sweep. *)
Definition prearm_pairs : list (call * call) :=
  [ (SetParameter "GLIDE_SPD" 1, WaitNotReadyToArm);
    (SetParameter "GLIDE_SPD" 22, WaitReadyToArm);
    (SetParameter "GLIDE_SPD" 100, WaitNotReadyToArm);
    (SetParameter "GLIDE_SPD" 22, WaitReadyToArm);
    (RunCmd MAV_CMD_DO_ENGINE_CONTROL 0, WaitNotReadyToArm);
    (RunCmd MAV_CMD_DO_ENGINE_CONTROL 1, WaitReadyToArm) ].

Definition prearm_steps : list call :=
  ([StartSubtest "Testing prearm checks"]
   ++ reset_steps
   ++ flat_map (fun cw => [fst cw; snd cw]) prearm_pairs
   ++ [EndSubtest "Testing prearm checks"])%list.

(** The parameter sets downloaded in a run, in order. *)
Definition downloads (tr : list event) : list (dict pvalue) :=
  flat_map (fun ev =>
    match ev_call ev, ev_reply ev with
    | DownloadParameters _ _, inr (RParams d _) => [d]
    | _, _ => []
    end) tr.

(** After the engine is restored the parameters are back: each name of the
    first download that is not ignored is in the last one, and [!=] does
    not tell the two values apart. *)
Definition restored (params_before params_after : dict pvalue) : Prop :=
  forall p, In p (dict_keys params_before) -> ignored p = false ->
    exists a b, dict_get params_before p = Some a /\
                dict_get params_after p = Some b /\
                py_ne a b = false.

(** The outcome of the comparison at one name: nothing to report, a value
    that differs, or a name the later download lacks. *)
Inductive verdict := Same | Differs (a b : pvalue) | Missing.

Definition compare_at (params_before params_after : dict pvalue) (p : string)
  : verdict :=
  if ignored p then Same
  else match dict_get params_before p with
       | None => Missing
       | Some a =>
           match dict_get params_after p with
           | None => Missing
           | Some b => if py_ne a b then Differs a b else Same
           end
       end.

(** The two timeout texts of [basic_auto_mission]. *)
Definition assist_text : string := "Q_ASSIST for too long".
Definition rtl_text : string := "QRTL for too long".

Definition count_calls (f : call -> bool) (tr : list event) : nat :=
  length (filter f (calls tr)).

Definition is_wait_text (text : string) (c : call) : bool :=
  match c with WaitText t => String.eqb t text | _ => false end.

Definition is_start_subtest (c : call) : bool :=
  match c with StartSubtest _ => true | _ => false end.

End Steps.

(** ** Reasoning about a run *)

Section Reasoning.
Context `{TS : TestSuite}.

(** [wp m Q w]: the run of [m] from [w] ends with a result, a world and a
    record that satisfy [Q]. *)
Definition wp {A : Type} (m : M A)
    (Q : exn + A -> World -> list event -> Prop) (w : World) : Prop :=
  Q (result m w) (final m w) (trace m w).

(** The calls of a run with their replies, without the worlds. *)
Definition labels (tr : list event) : list (call * (exn + reply pvalue)) :=
  map (fun ev => (ev_call ev, ev_reply ev)) tr.

(** What a passing run of [basic_auto_mission] records for a step: the
    location for [mav.location()], nothing for the other calls. *)
Definition passed (here : location) (c : call)
  : call * (exn + reply pvalue) :=
  (c, inr (match c with MavLocation => RLocation here | _ => RNone end)).

(** The outcome of the loop of [assert_parameters_same] over the names
    [ps]: the first name whose comparison fails decides. *)
Fixpoint first_failure (params_before params_after : dict pvalue)
    (ps : list string) : option exn :=
  match ps with
  | [] => None
  | p :: ps' =>
      match compare_at params_before params_after p with
      | Same => first_failure params_before params_after ps'
      | Differs a b => Some (ValueError (changed_message p a b))
      | Missing => Some (KeyError p)
      end
  end.

End Reasoning.

(** ** What the specification says of the vehicle link

    [vehicle_test_suite.py] is not part of this development.  The facts about
    its methods that a claim needs are stated here, each as a property a test
    suite may have, after the specification (sections 3, 4.1, 4.3 and 6). *)

(** Modelled from the spec: the observations of a VehicleSnapshot
    (section 3) that the claims mention: simulation time, armed state,
    arming eligibility, location, and the distance between two locations.
    The suite that produces them is missing from the sources. *)
Class VehicleLink (TS : TestSuite) := {
  now : World -> Z;
  armed : World -> bool;
  armable : World -> bool;
  position : World -> location;
  get_distance : location -> location -> Q
}.

Section Contracts.
Context `{VL : VehicleLink}.

(** Modelled from the spec: [wait_for_disarm(timeout)] of section 4.1, whose
    body is missing; it "returns successfully the first instant the condition
    holds, or fails with a Timeout", so when it returns the vehicle is
    disarmed and no more than the timeout has elapsed. *)
Definition wait_disarmed_contract : Prop :=
  forall timeout w u w',
    exec (WaitDisarmed timeout) w = (inr u, w') ->
    armed w' = false /\
    (forall t, timeout = Some t -> now w' - now w <= t).

(** Modelled from the spec: the distance assertion of step 11 of section
    4.3, whose body is missing; it passes only when the distance between the
    two locations lies within [min, max]. *)
Definition assert_distance_contract : Prop :=
  forall l1 l2 mn mx w u w',
    exec (AssertDistance l1 l2 mn mx) w = (inr u, w') ->
    (inject_Z mn <= get_distance l1 l2 <= inject_Z mx)%Q.

(** Modelled from the spec: [current_snapshot()] of section 6, whose body is
    missing; the location it reports is the location of the vehicle. *)
Definition mav_location_contract : Prop :=
  forall w l w', exec MavLocation w = (inr l, w') -> l = position w'.

(** Modelled from the spec: [wait_for_armable] of section 4.1, whose body
    is missing; when it returns the vehicle is armable. *)
Definition wait_ready_to_arm_contract : Prop :=
  forall w u w', exec WaitReadyToArm w = (inr u, w') -> armable w' = true.

(** [random.sample(population, k)] returns [k] elements of the population. *)
Definition random_sample_contract : Prop :=
  forall population k w l w',
    exec (RandomSample population k) w = (inr l, w') ->
    Z.of_nat (length l) = k /\ incl l population.

(** One run of [basic_auto_mission] that passed, as the heading sweep needs
    it: the steps of the mission were taken for this heading, the wait for
    disarm returned with the vehicle disarmed, and the location then read
    from the vehicle is within the band around the target. *)
Definition landed_in_band (target : location) (mn mx : Z) (heading : Z)
    (seg : list event) : Prop :=
  exists here ev_d ev_l,
    calls seg = mission_steps heading target false mn mx 0 0 here /\
    In ev_d seg /\ ev_call ev_d = WaitDisarmed (Some 600) /\
    armed (ev_post ev_d) = false /\
    In ev_l seg /\ ev_call ev_l = MavLocation /\
    here = position (ev_post ev_l) /\
    (inject_Z mn <= get_distance target here <= inject_Z mx)%Q.

(** The time between the entry into AUTO and the disarm, for every pair of
    such events of a run, is at most [limit]. *)
Definition disarms_within_of_auto (limit : Z) (tr : list event) : Prop :=
  forall ev_a ev_d,
    In ev_a tr -> ev_call ev_a = ChangeMode "AUTO" ->
    In ev_d tr -> ev_call ev_d = WaitDisarmed (Some 600) ->
    now (ev_post ev_d) - now (ev_post ev_a) <= limit.

End Contracts.

(** Modelled from the spec: the rest of a VehicleSnapshot (section 3) that
    the baseline of [reset_aircraft] is made of: the flight mode, the
    throttle stick (RC channel 3) and whether the engine runs.  The suite
    that produces them is missing from the sources. *)
Class BaselineLink (TS : TestSuite) (VL : VehicleLink TS) := {
  flight_mode : World -> string;
  throttle : World -> Z;
  engine_running : World -> bool
}.

Section Baseline.
Context `{BL : BaselineLink}.

(** The baseline state the specification lists for [reset_aircraft]
    (section 4.2): disarmed, throttle at idle, a hover-capable mode, the
    engine running, armable.  The parameters are left out: the content of
    the baseline parameter file is not in the sources. *)
Record baseline := mk_baseline {
  b_armed : bool;
  b_mode : string;
  b_throttle : Z;
  b_engine : bool;
  b_armable : bool
}.

Definition baseline_of (w : World) : baseline :=
  mk_baseline (armed w) (flight_mode w) (throttle w) (engine_running w)
    (armable w).

(** Modelled from the spec: [disarm(force)] of section 6, whose body is
    missing; when it returns the vehicle is disarmed. *)
Definition disarm_vehicle_contract : Prop :=
  forall force w u w',
    exec (DisarmVehicle force) w = (inr u, w') -> armed w' = false.

(** Modelled from the spec: the restart of the vehicle process of section
    4.2, whose body is missing; a restart does not arm the vehicle. *)
Definition reboot_sitl_contract : Prop :=
  forall w u w',
    exec RebootSitl w = (inr u, w') -> armed w = false -> armed w' = false.

(** Modelled from the spec: the reapplication of the baseline parameter
    file of section 4.2, whose body is missing; it does not arm the
    vehicle. *)
Definition apply_parameter_file_contract : Prop :=
  forall path w u w',
    exec (RepeatedlyApplyParameterFile path) w = (inr u, w') ->
    armed w' = armed w.

(** Modelled from the spec: the throttle stick of section 4.2, whose body
    is missing; channel 3 takes the value given and the vehicle is not
    armed by it. *)
Definition set_rc_contract : Prop :=
  forall pwm w u w',
    exec (SetRc 3 pwm) w = (inr u, w') ->
    throttle w' = pwm /\ armed w' = armed w.

(** Modelled from the spec: [set_mode(name)] of section 6, whose body is
    missing; when it returns the vehicle is in that mode, and neither the
    arming state nor the throttle has changed. *)
Definition change_mode_contract : Prop :=
  forall m w u w',
    exec (ChangeMode m) w = (inr u, w') ->
    flight_mode w' = m /\ armed w' = armed w /\ throttle w' = throttle w.

(** Modelled from the spec: the engine start of section 4.2
    ([send_command] of section 6), whose body is missing; when it returns
    the engine runs, and the arming state, the mode and the throttle have
    not changed. *)
Definition engine_start_contract : Prop :=
  forall w u w',
    exec (RunCmd MAV_CMD_DO_ENGINE_CONTROL 1) w = (inr u, w') ->
    engine_running w' = true /\ armed w' = armed w /\
    flight_mode w' = flight_mode w /\ throttle w' = throttle w.

(** Modelled from the spec: the waits of section 4.1, whose bodies are
    missing; "side effect: none beyond time elapsed; all are read-only
    relative to vehicle state". *)
Definition read_only (w w' : World) : Prop :=
  armed w' = armed w /\ flight_mode w' = flight_mode w /\
  throttle w' = throttle w /\ engine_running w' = engine_running w.

Definition waits_read_only_contract : Prop :=
  (forall w u w',
      exec (WaitRpm 2 1000 3000) w = (inr u, w') -> read_only w w') /\
  (forall w u w', exec WaitReadyToArm w = (inr u, w') -> read_only w w').

Definition reset_contracts : Prop :=
  disarm_vehicle_contract /\ reboot_sitl_contract /\
  apply_parameter_file_contract /\ set_rc_contract /\
  change_mode_contract /\ engine_start_contract /\
  waits_read_only_contract /\ wait_ready_to_arm_contract.

End Baseline.

Section Scenarios.
Context `{TS : TestSuite}.

(** The example scenario of the specification: heading 270, the rally
    target, rally mode, band [0, 50]. *)
Definition example_scenario : M unit :=
  basic_auto_mission 270 rally_loc false 0 50 0 0.

(** What runs before the sub-scenario number [n] starts. *)
Definition run_before (n : nat) : M unit :=
  install_scripts ;;
  prepare_vehicle ;;
  for_each (firstn n sub_scenarios) (fun scenario => scenario).

(** Whatever fails, the last sub-scenario is still started. *)
Definition remaining_still_execute (w : World) : Prop :=
  In (StartSubtest "Testing prearm checks") (calls (trace EngineOutScript w)).

End Scenarios.

Section SweepClaim.
Context `{VL : VehicleLink}.

(** Whatever happens, the sweep flies every heading: its record is the
    draw of the sample followed by one run per heading of the fixed list
    and of the sample, each ended disarmed and within the band. *)
Definition sweep_lands_every_heading (w : World) : Prop :=
  exists sample ev_s segs,
    ev_call ev_s = RandomSample (py_range 0 360 1) 4 /\
    ev_reply ev_s = inr (RInts sample) /\
    trace test_random_angles w = ev_s :: concat segs /\
    Forall2 (landed_in_band rally_loc 0 50)
      ([0; 90; 180; 270] ++ sample) segs.

End SweepClaim.

Definition is_wait_disarmed (c : call) : bool :=
  match c with WaitDisarmed _ => true | _ => false end.

(** ** A simulated vehicle

    A small deterministic stand-in for the vehicle, the simulator and the
    Python runtime, used to run the script on concrete inputs.  It keeps a
    clock, the arming state, the flight mode, the engine, the throttle
    stick, the parameters
    (with a boot counter [STAT_BOOTCNT] that every restart increments, and
    one parameter that the engine-out handling overrides and restores),
    the landing targets, three delays that say how long the vehicle takes
    to reach the mission leg, the heading and the ground, and a switch that
    says whether the engine-out handling puts the parameter back. *)

Module Sim.

Fixpoint dict_set {V : Type} (d : dict V) (k : string) (v : V) : dict V :=
  match d with
  | [] => [(k, v)]
  | (k', v') :: d' =>
      if String.eqb k' k then (k, v) :: d' else (k', v') :: dict_set d' k v
  end.

Record state := mk_state {
  clock : Z;
  is_armed : bool;
  mode : string;
  engine : bool;
  params : dict Z;
  backup : option Z;
  rally : list location;
  goto : option location;
  pos : location;
  wp_delay : Z;
  heading_delay : Z;
  land_delay : Z;
  restores : bool;
  throttle_pwm : Z
}.

Definition tick (dt : Z) (s : state) : state :=
  mk_state (clock s + dt) (is_armed s) (mode s) (engine s) (params s)
    (backup s) (rally s) (goto s) (pos s)
    (wp_delay s) (heading_delay s) (land_delay s) (restores s)
    (throttle_pwm s).

Definition set_armed (b : bool) (s : state) : state :=
  mk_state (clock s) b (mode s) (engine s) (params s)
    (backup s) (rally s) (goto s) (pos s)
    (wp_delay s) (heading_delay s) (land_delay s) (restores s)
    (throttle_pwm s).

Definition set_mode (m : string) (s : state) : state :=
  mk_state (clock s) (is_armed s) m (engine s) (params s)
    (backup s) (rally s) (goto s) (pos s)
    (wp_delay s) (heading_delay s) (land_delay s) (restores s)
    (throttle_pwm s).

Definition set_engine (b : bool) (s : state) : state :=
  mk_state (clock s) (is_armed s) (mode s) b (params s)
    (backup s) (rally s) (goto s) (pos s)
    (wp_delay s) (heading_delay s) (land_delay s) (restores s)
    (throttle_pwm s).

Definition set_params (d : dict Z) (s : state) : state :=
  mk_state (clock s) (is_armed s) (mode s) (engine s) d
    (backup s) (rally s) (goto s) (pos s)
    (wp_delay s) (heading_delay s) (land_delay s) (restores s)
    (throttle_pwm s).

Definition set_backup (b : option Z) (s : state) : state :=
  mk_state (clock s) (is_armed s) (mode s) (engine s) (params s)
    b (rally s) (goto s) (pos s)
    (wp_delay s) (heading_delay s) (land_delay s) (restores s)
    (throttle_pwm s).

Definition set_rally (l : list location) (s : state) : state :=
  mk_state (clock s) (is_armed s) (mode s) (engine s) (params s)
    (backup s) l (goto s) (pos s)
    (wp_delay s) (heading_delay s) (land_delay s) (restores s)
    (throttle_pwm s).

Definition set_goto (g : option location) (s : state) : state :=
  mk_state (clock s) (is_armed s) (mode s) (engine s) (params s)
    (backup s) (rally s) g (pos s)
    (wp_delay s) (heading_delay s) (land_delay s) (restores s)
    (throttle_pwm s).

Definition set_pos (p : location) (s : state) : state :=
  mk_state (clock s) (is_armed s) (mode s) (engine s) (params s)
    (backup s) (rally s) (goto s) p
    (wp_delay s) (heading_delay s) (land_delay s) (restores s)
    (throttle_pwm s).

Definition set_throttle (pwm : Z) (s : state) : state :=
  mk_state (clock s) (is_armed s) (mode s) (engine s) (params s)
    (backup s) (rally s) (goto s) (pos s)
    (wp_delay s) (heading_delay s) (land_delay s) (restores s) pwm.

Definition param (s : state) (k : string) : Z :=
  match dict_get (params s) k with Some v => v | None => 0 end.

(** The baseline parameter file. *)
Definition baseline : dict Z :=
  [ ("GLIDE_SPD", 22); ("ENGOUT_QAST_TIME", 0); ("ENGOUT_QRTL_TIME", 0);
    ("Q_ASSIST_SPEED", 18) ].

Definition apply_file (file d : dict Z) : dict Z :=
  fold_left (fun acc kv => dict_set acc (fst kv) (snd kv)) file d.

(** The vehicle can be armed when the engine runs and the glide speed is
    within its range. *)
Definition can_arm (s : state) : bool :=
  engine s && (10 <=? param s "GLIDE_SPD") && (param s "GLIDE_SPD" <=? 50).

(** A distance between two locations, in metres, good enough for a test
    double: one degree is taken as 100 km along both axes. *)
Definition distance (a b : location) : Q :=
  ((Qabs (lat a - lat b) + Qabs (lng a - lng b)) * 100000)%Q.

(** Where the vehicle comes down: on the guided target when one was sent,
    otherwise near the first rally point, further away when the
    return-to-launch timeout has cut the approach short. *)
Definition touchdown (s : state) : location :=
  match goto s with
  | Some g => g
  | None =>
      match rally s with
      | r :: _ =>
          if 0 <? param s "ENGOUT_QRTL_TIME"
          then mk_location (lat r + 0.001)%Q (lng r) 0 0
          else mk_location (lat r + 0.0001)%Q (lng r) 0 0
      | [] => pos s
      end
  end.

Definition timeout_exn (what : string) : exn :=
  AutoTestTimeoutException ("Timed out waiting for " ++ what).

(** A wait that needs [delay] and has [limit]. *)
Definition bounded_wait (what : string) (delay limit : Z) (s : state)
  : (exn + unit) * state :=
  if delay <=? limit then (inr tt, tick delay s)
  else (inl (timeout_exn what), tick limit s).

Definition engine_control (p1 : Z) (s : state) : state :=
  if p1 =? 1 then
    let s1 := set_engine true s in
    match backup s1 with
    | Some v =>
        if restores s1
        then set_backup None
               (set_params (dict_set (params s1) "Q_ASSIST_SPEED" v) s1)
        else set_backup None s1
    | None => s1
    end
  else
    let s1 := set_engine false s in
    if is_armed s1 then
      set_mode "RTL"
        (set_backup (Some (param s1 "Q_ASSIST_SPEED"))
           (set_params (dict_set (params s1) "Q_ASSIST_SPEED" 0) s1))
    else s1.

Definition respond (c : call) : state -> (exn + ret_type Z c) * state :=
  match c as c0 return state -> (exn + ret_type Z c0) * state with
  | DisarmVehicle _ => fun s => (inr tt, tick 1 (set_armed false s))
  | RebootSitl => fun s =>
      (inr tt,
       tick 20
         (set_goto None
            (set_mode "MANUAL"
               (set_engine false
                  (set_armed false
                     (set_params
                        (dict_set (params s) "STAT_BOOTCNT"
                           (param s "STAT_BOOTCNT" + 1)) s))))))
  | RepeatedlyApplyParameterFile _ => fun s =>
      (inr tt, tick 5 (set_params (apply_file baseline (params s)) s))
  | SetRc chan pwm => fun s =>
      (inr tt, if chan =? 3 then set_throttle pwm s else s)
  | ChangeMode m => fun s => (inr tt, tick 1 (set_mode m s))
  | RunCmd MAV_CMD_DO_ENGINE_CONTROL p1 => fun s =>
      (inr tt, tick 1 (engine_control p1 s))
  | WaitRpm _ lo hi => fun s =>
      if engine s && (lo <=? 2000) && (2000 <=? hi) then (inr tt, tick 2 s)
      else (inl (timeout_exn "RPM"), tick 10 s)
  | WaitReadyToArm => fun s =>
      if can_arm s then (inr tt, tick 2 s)
      else (inl (timeout_exn "ready to arm"), tick 120 s)
  | WaitNotReadyToArm => fun s =>
      if can_arm s then (inl (timeout_exn "not ready to arm"), tick 120 s)
      else (inr tt, tick 2 s)
  | MissionItemIntSend _ _ _ _ _ _ _ _ _ _ _ x y z => fun s =>
      (inr tt,
       set_goto (Some (mk_location (x # 10000000) (y # 10000000) z 0)) s)
  | UploadRallyPointsFromLocations locs => fun s =>
      (inr tt, tick 1 (set_rally locs s))
  | SetParameter k v => fun s =>
      (inr tt, tick 1 (set_params (dict_set (params s) k v) s))
  | ArmVehicle => fun s =>
      if can_arm s then (inr tt, tick 1 (set_armed true s))
      else (inl (NotAchievedException "Failed to ARM"), tick 20 s)
  | WaitCurrentWaypoint _ limit => fun s =>
      bounded_wait "waypoint" (wp_delay s) limit s
  | WaitHeading _ _ limit => fun s =>
      bounded_wait "heading" (heading_delay s) limit s
  | WaitMode m => fun s =>
      if String.eqb (mode s) m then (inr tt, tick 1 s)
      else (inl (timeout_exn "mode"), tick 30 s)
  | DelaySimTime dt => fun s => (inr tt, tick dt s)
  | WaitText _ => fun s => (inr tt, tick 1 s)
  | WaitDisarmed timeout => fun s =>
      let limit := match timeout with Some t => t | None => 30 end in
      let delay := if is_armed s then land_delay s else 0 in
      if delay <=? limit
      then (inr tt,
            tick delay
              (if is_armed s
               then set_pos (touchdown s) (set_armed false s) else s))
      else (inl (timeout_exn "disarm"), tick limit s)
  | MavLocation => fun s => (inr (pos s), s)
  | AssertDistance l1 l2 mn mx => fun s =>
      if Qle_bool (inject_Z mn) (distance l1 l2)
         && Qle_bool (distance l1 l2) (inject_Z mx)
      then (inr tt, s)
      else (inl (NotAchievedException "Distance out of bounds"), s)
  | DownloadParameters _ _ => fun s => (inr (params s, 0), tick 3 s)
  | SysidThismav => fun s => (inr 1, s)
  | MavSourceSystem => fun s => (inr 250, s)
  | Rootdir => fun s => (inr "/ardupilot", s)
  | OsPathExists _ => fun s => (inr true, s)
  | RandomSample population k => fun s =>
      let l := firstn (Z.to_nat k) (skipn 37 population) in
      if Z.of_nat (length l) =? k then (inr l, s)
      else (inl (ValueError "Sample larger than population or is negative"), s)
  | _ => fun s => (inr tt, s)
  end.

Definition string_of_Z (z : Z) : string := NilZero.string_of_int (Z.to_int z).

Fixpoint zeros (n : nat) : string :=
  match n with O => "" | S n' => "0" ++ zeros n' end.

(** Fixed-point formatting with [n] decimals, rounding half up. *)
Definition fixed_point (n : nat) (q : Q) : string :=
  let scale := 10 ^ Z.of_nat n in
  let den := Zpos (Qden q) in
  let r := (2 * Z.abs (Qnum q) * scale + den) / (2 * den) in
  let digits := string_of_Z (r mod scale) in
  (if Qnum q <? 0 then "-" else "")
  ++ string_of_Z (r / scale)
  ++ (match n with
      | O => ""
      | _ => "." ++ zeros (n - String.length digits) ++ digits
      end).

#[export] Instance suite : TestSuite := {|
  World := state;
  pvalue := Z;
  py_ne := fun a b => negb (a =? b);
  py_str := string_of_Z;
  format_f := fixed_point;
  testdir := "/ardupilot/Tools/autotest";
  exec := respond
|}.

#[export] Instance link : VehicleLink suite := {|
  now := clock;
  armed := is_armed;
  armable := can_arm;
  position := pos;
  get_distance := distance
|}.

#[export] Instance baseline_link : BaselineLink suite link := {|
  flight_mode := mode;
  throttle := throttle_pwm;
  engine_running := engine
|}.

(** The vehicle on the ground at the start location, before any run: the
    mission leg is reached after 400 time units, the heading after 60 more
    and the ground 200 after the engine failure. *)
Definition start : state :=
  mk_state 0 false "MANUAL" false [("STAT_BOOTCNT", 7)] None [] None
    SITL_START_LOCATION 400 60 200 true 1500.

(** The same vehicle in a wind that never lets it reach the heading. *)
Definition never_on_heading : state :=
  mk_state 0 false "MANUAL" false [("STAT_BOOTCNT", 7)] None [] None
    SITL_START_LOCATION 400 1000 200 true 1500.

(** The same vehicle with an engine-out handling that forgets to put the
    parameter back. *)
Definition forgetful : state :=
  mk_state 0 false "MANUAL" false [("STAT_BOOTCNT", 7)] None [] None
    SITL_START_LOCATION 400 60 200 false 1500.

End Sim.

(** ** A vehicle that loses a parameter

    A second stand-in for the suite, for the runs in which a download lacks
    a name: the state counts the downloads, the first download holds
    GLIDE_SPD and the later ones are empty; every other call returns. *)

Module Lossy.

Definition respond (c : call) : nat -> (exn + ret_type Z c) * nat :=
  match c as c0 return nat -> (exn + ret_type Z c0) * nat with
  | DownloadParameters _ _ => fun n =>
      (inr (match n with O => [("GLIDE_SPD", 22)] | S _ => [] end, 0), S n)
  | MavLocation => fun n => (inr SITL_START_LOCATION, n)
  | SysidThismav => fun n => (inr 1, n)
  | MavSourceSystem => fun n => (inr 250, n)
  | Rootdir => fun n => (inr "/ardupilot", n)
  | OsPathExists _ => fun n => (inr true, n)
  | RandomSample population k => fun n =>
      (inr (firstn (Z.to_nat k) population), n)
  | _ => fun n => (inr tt, n)
  end.

#[export] Instance suite : TestSuite := {|
  World := nat;
  pvalue := Z;
  py_ne := fun a b => negb (a =? b);
  py_str := Sim.string_of_Z;
  format_f := Sim.fixed_point;
  testdir := "/ardupilot/Tools/autotest";
  exec := respond
|}.

End Lossy.

(** ** More of the class and of the script *)

(** [default_frame]: ["flightaxis_autotest:" + os.environ['wslhost']], as a
    function of the environment. *)
Definition default_frame (environ : dict string) : exn + string :=
  match dict_get environ "wslhost" with
  | Some host => inr ("flightaxis_autotest:" ++ host)
  | None => inl (KeyError "wslhost")
  end.

(** [set_current_test_name]: the value it gives to
    [current_test_name_directory]. *)
Definition set_current_test_name (name : string) : string :=
  "ArduPlane_Tests/" ++ name ++ "/".

(** The messages of the subtests a list of calls starts, and of those it
    ends. *)
Definition opened (l : list call) : list string :=
  flat_map (fun c => match c with StartSubtest m => [m] | _ => [] end) l.

Definition closed (l : list call) : list string :=
  flat_map (fun c => match c with EndSubtest m => [m] | _ => [] end) l.

(** Neither the start nor the end of a subtest. *)
Definition no_marker (c : call) : Prop :=
  match c with StartSubtest _ | EndSubtest _ => False | _ => True end.

(** Every subtest that was started was ended, in the same order, but
    possibly the last one when the run failed. *)
Definition subtests_balanced {A : Type} (r : exn + A) (l : list call) : Prop :=
  match r with
  | inr _ => closed l = opened l
  | inl _ => closed l = opened l \/ exists msg, opened l = (closed l ++ [msg])%list
  end.

Definition is_engine_start (c : call) : bool :=
  match c with
  | RunCmd MAV_CMD_DO_ENGINE_CONTROL p1 => p1 =? 1
  | _ => false
  end.

Definition is_cleanup (c : call) : bool :=
  match c with
  | RemoveInstalledModules _ | RemoveInstalledScript _ => true
  | _ => false
  end.

Section MoreSteps.
Context `{TS : TestSuite}.

(** What the script may ask of the suite, call by call: the arguments it
    ever passes to each method.  Parameters are written by [set_parameter]
    under five names and by applying the one parameter file of
    [reset_aircraft]. *)
Definition script_command (c : call) : bool :=
  match c with
  | DisarmVehicle force => force
  | RebootSitl => true
  | RepeatedlyApplyParameterFile path =>
      String.eqb path
        (os_path_join testdir ["default_params/fireeye-engout.parm"])
  | SetRc chan pwm => (chan =? 3) && ((pwm =? 1000) || (pwm =? 1500))
  | ChangeMode mode => existsb (String.eqb mode) ["QHOVER"; "AUTO"; "GUIDED"]
  | RunCmd MAV_CMD_DO_ENGINE_CONTROL p1 => (p1 =? 0) || (p1 =? 1)
  | RunCmd MAV_CMD_NAV_WAYPOINT _ => false
  | WaitRpm instance min_rpm max_rpm =>
      (instance =? 2) && (min_rpm =? 1000) && (max_rpm =? 3000)
  | WaitReadyToArm => true
  | WaitNotReadyToArm => true
  | MissionItemIntSend target_system target_component seq
      MAV_FRAME_GLOBAL_RELATIVE_ALT command current autocontinue
      p1 p2 p3 p4 _ _ _ =>
      (target_system =? 1) && (target_component =? 1) && (seq =? 0)
      && match command with
         | MAV_CMD_NAV_WAYPOINT => true
         | MAV_CMD_DO_ENGINE_CONTROL => false
         end
      && (current =? 2) && (autocontinue =? 0)
      && (p1 =? 0) && (p2 =? 0) && (p3 =? 0) && (p4 =? 0)
  | UploadRallyPointsFromLocations locs => (length locs =? 1)%nat
  | SetParameter name _ =>
      existsb (String.eqb name)
        ["FENCE_ENABLE"; "SYSID_MYGCS"; "ENGOUT_QAST_TIME";
         "ENGOUT_QRTL_TIME"; "GLIDE_SPD"]
  | ArmVehicle => true
  | WaitCurrentWaypoint wpnum timeout => (wpnum =? 4) && (timeout =? 600)
  | WaitHeading _ accuracy timeout => (accuracy =? 5) && (timeout =? 300)
  | WaitMode mode => String.eqb mode "RTL"
  | DelaySimTime seconds => (seconds =? 1) || (seconds =? 10)
  | WaitText text =>
      existsb (String.eqb text)
        ["Q_ASSIST for too long"; "QRTL for too long";
         "Engine out"; "Engine running"]
  | WaitDisarmed timeout =>
      match timeout with Some t => t =? 600 | None => true end
  | MavLocation => true
  | AssertDistance _ _ _ _ => true
  | StartSubtest _ => true
  | EndSubtest _ => true
  | Progress _ => true
  | DownloadParameters _ compid => compid =? 1
  | SysidThismav => true
  | MavSourceSystem => true
  | Rootdir => true
  | OsPathExists _ => true
  | OsMkdir _ => true
  | ShutilCopy _ _ => true
  | InstallScript _ name => String.eqb name "EFI_SITL.lua"
  | InstallAppletScript name => String.eqb name "engine_out.lua"
  | LoadMission filename => String.eqb filename "mission.waypoints"
  | RemoveInstalledModules name => String.eqb name "utilities.lua"
  | RemoveInstalledScript name =>
      existsb (String.eqb name) ["EFI_SITL.lua"; "engine_out.lua"]
  | RandomSample _ k => k =? 4
  end.

(** All the calls of every run of [m] satisfy [P]. *)
Definition only_calls {A : Type} (P : call -> Prop) (m : M A) : Prop :=
  forall w, Forall P (calls (trace m w)).

(** A script that keeps the subtests balanced. *)
Definition brackets {A : Type} (m : M A) : Prop :=
  forall w, subtests_balanced (result m w) (calls (trace m w)).

(** The rest of a subtest: it starts none, and ends [msg] as its last call
    if at all. *)
Definition closes_with {A : Type} (msg : string) (m : M A) : Prop :=
  forall w,
    opened (calls (trace m w)) = [] /\
    (closed (calls (trace m w)) = [] \/ closed (calls (trace m w)) = [msg]) /\
    (forall a, result m w = inr a -> closed (calls (trace m w)) = [msg]).

(** What [print_differences] logs over the names [ps]: one message for each
    name whose values differ, up to the first name that is missing. *)
Fixpoint diff_calls (params_before params_after : dict pvalue)
    (ps : list string) : list call :=
  match ps with
  | [] => []
  | p :: ps' =>
      match compare_at params_before params_after p with
      | Same => diff_calls params_before params_after ps'
      | Differs a b =>
          Progress (changed_message p a b)
          :: diff_calls params_before params_after ps'
      | Missing => []
      end
  end.

(** The calls of the parameter sub-scenario up to the third download, for
    the three replies of [sysid_thismav] and the first two downloads: the
    reset and the first download, the flight to the engine failure, the
    second download and what [print_differences] logs, and then the engine
    start, the wait for "Engine running", the delay and the third
    download. *)
Definition params_steps_to_third (s1 s2 s3 : Z)
    (params_before params_after : dict pvalue) : list call :=
  ([StartSubtest params_subtest_name]
   ++ reset_steps
   ++ [ SysidThismav; DownloadParameters s1 1;
        ChangeMode "AUTO"; ArmVehicle; SetRc 3 1500;
        WaitCurrentWaypoint 4 600;
        RunCmd MAV_CMD_DO_ENGINE_CONTROL 0;
        WaitText "Engine out"; DelaySimTime 1;
        SysidThismav; DownloadParameters s2 1 ]
   ++ diff_calls params_before params_after (dict_keys params_before)
   ++ [ RunCmd MAV_CMD_DO_ENGINE_CONTROL 1;
        WaitText "Engine running"; DelaySimTime 1;
        SysidThismav; DownloadParameters s3 1 ])%list.

(** The calls that follow a comparison that passed. *)
Definition params_closing_steps : list call :=
  [ DisarmVehicle true; WaitDisarmed None; EndSubtest params_subtest_name ].

(** One turn of the loop of [print_differences], at the name [p]. *)
Definition print_body (params_before params_after : dict pvalue) (p : string)
  : M unit :=
  if ignored p then ret tt
  else
    a <- dict_getitem params_before p ;;
    b <- dict_getitem params_after p ;;
    if py_ne a b then progress (changed_message p a b) else ret tt.

(** The calls of "Install the scripts", for the three replies of [rootdir]
    and the reply of [os.path.exists]. *)
Definition install_steps (r1 r2 : string) (there : bool) (r3 : string)
  : list call :=
  let source :=
    os_path_join r1 ["libraries"; "AP_Scripting"; "modules"; "utilities.lua"] in
  let destdir := os_path_join r2 ["scripts"; "modules"] in
  ([Rootdir; Rootdir; OsPathExists destdir]
   ++ (if there then [] else [OsMkdir destdir])
   ++ [ Progress ("Copying (" ++ source ++ ") to (utilities.lua)");
        ShutilCopy source (os_path_join destdir ["utilities.lua"]);
        Rootdir;
        InstallScript
          (os_path_join r3
             ["libraries"; "AP_Scripting"; "drivers"; "EFI_SITL.lua"])
          "EFI_SITL.lua";
        InstallAppletScript "engine_out.lua" ])%list.

(** The calls of the setup that follows, for the reply of
    [mav.source_system]. *)
Definition prepare_steps (gcs : Z) : list call :=
  [ RebootSitl;
    SetParameter "FENCE_ENABLE" 0;
    MavSourceSystem;
    SetParameter "SYSID_MYGCS" gcs;
    LoadMission "mission.waypoints" ].

(** The setup of [EngineOutScript], before the first sub-scenario. *)
Definition setup : M unit := install_scripts ;; prepare_vehicle.

(** The values the calls of a run returned to the script, in order (calls
    that return nothing give none). *)
Definition replies (tr : list event) : list (reply pvalue) :=
  flat_map (fun ev =>
    match ev_reply ev with
    | inr RNone => []
    | inr r => [r]
    | inl _ => []
    end) tr.

End MoreSteps.

(** * Properties *)

(** ** Laws of the script monad *)

Section Laws.
Context `{TS : TestSuite}.

Lemma run_cons_eq w c r w1 tr w' :
  exec c w = (r, w1) -> run_of w1 tr w' ->
  run_of w (mk_event c (reply_of c r) w1 :: tr) w'.
Proof.
  intros E H.
  replace r with (fst (exec c w)) by (rewrite E; reflexivity).
  replace w1 with (snd (exec c w)) in * by (rewrite E; reflexivity).
  constructor. exact H.
Qed.

Lemma run_of_app w1 t1 w2 t2 w3 :
  run_of w1 t1 w2 -> run_of w2 t2 w3 -> run_of w1 (t1 ++ t2) w3.
Proof.
  induction 1 as [w | w c tr w' _ IH]; intros H2; simpl.
  - exact H2.
  - constructor. apply IH. exact H2.
Qed.

(** Every call of a run was answered by [exec] in the world the calls
    before it had left. *)
Lemma run_of_split w tr0 ev tr1 w' :
  run_of w (tr0 ++ ev :: tr1) w' ->
  exists w0,
    run_of w tr0 w0 /\
    ev_reply ev = reply_of (ev_call ev) (fst (exec (ev_call ev) w0)) /\
    ev_post ev = snd (exec (ev_call ev) w0) /\
    run_of (ev_post ev) tr1 w'.
Proof.
  revert w. induction tr0 as [|x tr0 IH]; intros w H; simpl in H.
  - inversion H; subst. exists w. simpl.
    repeat split; try constructor; assumption.
  - inversion H; subst.
    destruct (IH _ H4) as (w0 & H0 & Hr & Hp & H1).
    exists w0. repeat split; try assumption.
    constructor. exact H0.
Qed.

Lemma uncaught_nil {A : Type} (r : exn + A) : uncaught r [].
Proof. intros tr1 ev tr2 e Heq. destruct tr1; discriminate Heq. Qed.

Lemma uncaught_all_returned {A : Type} (r : exn + A) tr :
  uncaught r tr -> (exists a, r = inr a) -> forallb returned tr = true.
Proof.
  intros Hu [a ->]. apply forallb_forall. intros ev Hin.
  apply in_split in Hin as (t1 & t2 & ->).
  unfold returned. destruct (ev_reply ev) as [e|v] eqn:E; [|reflexivity].
  destruct (Hu _ _ _ _ eq_refl E) as [_ Habs]. discriminate Habs.
Qed.

Lemma uncaught_before_returned {A : Type} (r : exn + A) tr0 ev tr1 :
  uncaught r (tr0 ++ ev :: tr1) -> forallb returned tr0 = true.
Proof.
  intros Hu. apply forallb_forall. intros x Hin.
  apply in_split in Hin as (t1 & t2 & ->).
  unfold returned. destruct (ev_reply x) as [e|v] eqn:E; [|reflexivity].
  destruct (Hu t1 x (t2 ++ ev :: tr1)%list e) as [Habs _].
  - rewrite <- app_assoc. reflexivity.
  - exact E.
  - destruct t2; discriminate Habs.
Qed.

Lemma uncaught_app {A B : Type} (a : A) (r : exn + B) t1 t2 :
  uncaught (inr a : exn + A) t1 -> uncaught r t2 -> uncaught r (t1 ++ t2).
Proof.
  intros H1 H2.
  assert (Hall : forallb returned t1 = true)
    by (eapply uncaught_all_returned; eauto).
  rewrite forallb_forall in Hall. clear H1.
  induction t1 as [|x t1 IH]; simpl.
  - exact H2.
  - intros tr1 ev tr2 e Heq Hr.
    destruct tr1 as [|y tr1]; simpl in Heq.
    + injection Heq as Hx _. subst x.
      specialize (Hall ev (or_introl eq_refl)). unfold returned in Hall.
      rewrite Hr in Hall. discriminate.
    + injection Heq as _ Heq.
      apply (IH (fun ev' H => Hall ev' (or_intror H)) tr1 ev tr2 e Heq Hr).
Qed.

Lemma plain_ret {A : Type} (a : A) : plain (ret a).
Proof. intros w. split; [constructor | apply uncaught_nil]. Qed.

Lemma plain_raise {A : Type} (e : exn) : plain (@raise _ A e).
Proof. intros w. split; [constructor | apply uncaught_nil]. Qed.

Lemma plain_lift {A : Type} (r : exn + A) : plain (lift r).
Proof. intros w. split; [constructor | apply uncaught_nil]. Qed.

Lemma plain_do (c : call) : plain (do c).
Proof.
  intros w. unfold result, final, trace, do.
  destruct (exec c w) as [r w1] eqn:E. simpl. split.
  - eapply run_cons_eq; [exact E | constructor].
  - intros tr1 ev tr2 e Heq Hr.
    destruct tr1 as [|x tr1]; simpl in Heq.
    + injection Heq as Hev Htr2. subst ev. simpl in Hr.
      split; [symmetry; exact Htr2|].
      destruct r; simpl in Hr; [congruence | discriminate].
    + injection Heq as _ Heq. destruct tr1; discriminate Heq.
Qed.

Lemma plain_dict_getitem (d : dict pvalue) (p : string) :
  plain (dict_getitem d p).
Proof.
  unfold dict_getitem. destruct (dict_get d p);
    [apply plain_ret | apply plain_raise].
Qed.

Lemma plain_bind {A B : Type} (m : M A) (f : A -> M B) :
  plain m -> (forall a, plain (f a)) -> plain (bind m f).
Proof.
  intros Hm Hf w. destruct (Hm w) as [Hr Hu].
  unfold result, final, trace, bind in *.
  destruct (m w) as [[[e|a] w1] t1] eqn:E; simpl in *.
  - split; [assumption|].
    intros tr1 ev tr2 e' Heq Hev.
    destruct (Hu tr1 ev tr2 e' Heq Hev) as [H1 H2].
    split; [assumption | congruence].
  - destruct (Hf a w1) as [Hr2 Hu2]. unfold result, final, trace in *.
    destruct (f a w1) as [[r w2] t2]; simpl in *.
    split.
    + eapply run_of_app; eauto.
    + eapply uncaught_app; eauto.
Qed.

Lemma plain_for_each {A : Type} (l : list A) (body : A -> M unit) :
  (forall x, plain (body x)) -> plain (for_each l body).
Proof.
  intros Hb. induction l as [|x l IH]; simpl.
  - apply plain_ret.
  - apply plain_bind; [apply Hb | intros _; exact IH].
Qed.

Lemma plain_if {A : Type} (b : bool) (m1 m2 : M A) :
  plain m1 -> plain m2 -> plain (if b then m1 else m2).
Proof. destruct b; auto. Qed.

(** Sequencing, read through [result], [final] and [trace]. *)
Lemma bind_inl {A B : Type} (m : M A) (f : A -> M B) w e :
  result m w = inl e ->
  result (bind m f) w = inl e /\
  final (bind m f) w = final m w /\
  trace (bind m f) w = trace m w.
Proof.
  unfold result, final, trace, bind.
  destruct (m w) as [[[e'|a] w1] t1]; simpl; intros H;
    [injection H as ->; auto | discriminate].
Qed.

Lemma bind_inr {A B : Type} (m : M A) (f : A -> M B) w a :
  result m w = inr a ->
  result (bind m f) w = result (f a) (final m w) /\
  final (bind m f) w = final (f a) (final m w) /\
  trace (bind m f) w = (trace m w ++ trace (f a) (final m w))%list.
Proof.
  unfold result, final, trace, bind.
  destruct (m w) as [[[e'|a'] w1] t1]; simpl; intros H;
    [discriminate | injection H as ->].
  destruct (f a w1) as [[r w2] t2]; simpl. auto.
Qed.

(** The rules of [wp]. *)
Lemma wp_ret {A : Type} (a : A) Q w : Q (inr a) w [] -> wp (ret a) Q w.
Proof. exact (fun H => H). Qed.

Lemma wp_raise {A : Type} (e : exn) (Q : exn + A -> _) w :
  Q (inl e) w [] -> wp (raise e) Q w.
Proof. exact (fun H => H). Qed.

Lemma wp_do (c : call) Q w :
  (forall r w1, exec c w = (r, w1) -> Q r w1 [mk_event c (reply_of c r) w1]) ->
  wp (do c) Q w.
Proof.
  intros H. unfold wp, result, final, trace, do.
  destruct (exec c w) as [r w1] eqn:E. simpl. apply H. reflexivity.
Qed.

Lemma wp_bind {A B : Type} (m : M A) (f : A -> M B) Q w :
  wp m (fun r w1 t1 =>
          match r with
          | inl e => Q (inl e) w1 t1
          | inr a => wp (f a) (fun r2 w2 t2 => Q r2 w2 (t1 ++ t2)%list) w1
          end) w ->
  wp (bind m f) Q w.
Proof.
  unfold wp, result, final, trace, bind.
  destruct (m w) as [[[e|a] w1] t1]; simpl; [exact (fun H => H)|].
  destruct (f a w1) as [[r2 w2] t2]; simpl. exact (fun H => H).
Qed.

Lemma wp_conseq {A : Type} (m : M A) (P Q : exn + A -> _) w :
  wp m P w -> (forall r w1 t1, P r w1 t1 -> Q r w1 t1) -> wp m Q w.
Proof. unfold wp. intros H HPQ. apply HPQ. exact H. Qed.

Lemma wp_bind_spec {A B : Type} (m : M A) (f : A -> M B) P Q w :
  wp m P w ->
  (forall r w1 t1, P r w1 t1 ->
     match r with
     | inl e => Q (inl e) w1 t1
     | inr a => wp (f a) (fun r2 w2 t2 => Q r2 w2 (t1 ++ t2)%list) w1
     end) ->
  wp (bind m f) Q w.
Proof. intros Hm H. apply wp_bind. eapply wp_conseq; eauto. Qed.

Lemma wp_do_bind {B : Type} (c : call) (f : ret_type pvalue c -> M B) Q w :
  (forall r w1, exec c w = (r, w1) ->
     match r with
     | inl e => Q (inl e) w1 [mk_event c (inl e) w1]
     | inr v =>
         wp (f v)
           (fun r2 w2 t2 =>
              Q r2 w2 (mk_event c (inr (to_reply pvalue c v)) w1 :: t2)) w1
     end) ->
  wp (bind (do c) f) Q w.
Proof.
  intros H. apply wp_bind. apply wp_do. intros r w1 E.
  specialize (H r w1 E). destruct r; exact H.
Qed.

Lemma wp_ret_bind {A B : Type} (a : A) (f : A -> M B) Q w :
  wp (f a) Q w -> wp (bind (ret a) f) Q w.
Proof.
  unfold wp, result, final, trace, bind, ret.
  destruct (f a w) as [[r2 w2] t2]; simpl. exact (fun H => H).
Qed.

Lemma wp_lift_bind {A B : Type} (r : exn + A) (f : A -> M B) Q w :
  match r with
  | inl e => Q (inl e) w []
  | inr a => wp (f a) Q w
  end ->
  wp (bind (lift r) f) Q w.
Proof.
  unfold wp, result, final, trace, bind, lift.
  destruct r as [e|a]; [exact (fun H => H)|].
  destruct (f a w) as [[r2 w2] t2]; simpl. exact (fun H => H).
Qed.

Lemma wp_assoc {A B C : Type} (m : M A) (f : A -> M B) (g : B -> M C) Q w :
  wp (bind m (fun a => bind (f a) g)) Q w -> wp (bind (bind m f) g) Q w.
Proof.
  unfold wp, result, final, trace, bind.
  destruct (m w) as [[[e|a] w1] t1]; simpl; [exact (fun H => H)|].
  destruct (f a w1) as [[[e|b] w2] t2]; simpl; [exact (fun H => H)|].
  destruct (g b w2) as [[r3 w3] t3]; simpl.
  rewrite app_assoc. exact (fun H => H).
Qed.

Lemma fails_by_call_ret {A : Type} (a : A) : fails_by_call (ret a).
Proof. intros w e H. discriminate H. Qed.

Lemma fails_by_call_do (c : call) : fails_by_call (do c).
Proof.
  intros w e. unfold result, trace, do.
  destruct (exec c w) as [r w1]. simpl. intros ->.
  eexists [], _. split; reflexivity.
Qed.

Lemma fails_by_call_bind {A B : Type} (m : M A) (f : A -> M B) :
  fails_by_call m -> (forall a, fails_by_call (f a)) ->
  fails_by_call (bind m f).
Proof.
  intros Hm Hf w e H.
  destruct (result m w) as [e'|a] eqn:Er.
  - destruct (bind_inl m f w e' Er) as (H1 & _ & H3).
    rewrite H1 in H. injection H as <-. rewrite H3. apply Hm. exact Er.
  - destruct (bind_inr m f w a Er) as (H1 & _ & H3).
    rewrite H1 in H. destruct (Hf a _ _ H) as (tr0 & ev & Ht & Hev).
    exists (trace m w ++ tr0)%list, ev. rewrite H3, Ht, app_assoc. auto.
Qed.

Lemma fails_by_call_if {A : Type} (b : bool) (m1 m2 : M A) :
  fails_by_call m1 -> fails_by_call m2 ->
  fails_by_call (if b then m1 else m2).
Proof. destruct b; auto. Qed.

Lemma fails_by_call_for_each {A : Type} (l : list A) (body : A -> M unit) :
  (forall x, fails_by_call (body x)) -> fails_by_call (for_each l body).
Proof.
  intros Hb. induction l as [|x l IH]; simpl.
  - apply fails_by_call_ret.
  - apply fails_by_call_bind; [apply Hb | intros _; exact IH].
Qed.

(** Prefixes. *)
Lemma is_prefix_refl {A : Type} (l : list A) : is_prefix l l.
Proof. exists []. symmetry. apply app_nil_r. Qed.

Lemma is_prefix_In {A : Type} (l1 l2 : list A) x :
  is_prefix l1 l2 -> In x l1 -> In x l2.
Proof. intros [k ->] H. apply in_or_app. left. exact H. Qed.

Lemma is_prefix_filter_length {A : Type} (f : A -> bool) (l1 l2 : list A) :
  is_prefix l1 l2 -> (length (filter f l1) <= length (filter f l2))%nat.
Proof. intros [k ->]. rewrite filter_app, length_app. lia. Qed.

(** A step that occurs once among the steps is preceded, in a run that
    follows the steps, by exactly the steps before it. *)
Lemma is_prefix_before {A : Type} (c : A) (s0 s1 l0 l1 : list A) :
  is_prefix (l0 ++ c :: l1) (s0 ++ c :: s1) ->
  ~ In c s0 -> ~ In c s1 -> l0 = s0.
Proof.
  intros [k Hk]. rewrite <- app_assoc in Hk. cbn [app] in Hk.
  revert l0 Hk. induction s0 as [|a s0 IH]; intros l0 Hk H0 H1.
  - destruct l0 as [|b l0]; [reflexivity|].
    cbn [app] in Hk. injection Hk as _ Hk. exfalso. apply H1.
    rewrite Hk. apply in_or_app. right. left. reflexivity.
  - destruct l0 as [|b l0]; cbn [app] in Hk.
    + injection Hk as Hk _. exfalso. apply H0. left. exact Hk.
    + injection Hk as -> Hk. f_equal. apply IH.
      * exact Hk.
      * intros Hin. apply H0. right. exact Hin.
      * exact H1.
Qed.

(** A run whose last call raised [e] after all the others had returned. *)
Lemma ends_with_intro (tr : list event) (e : exn) (d : event) :
  tr <> [] -> ev_reply (last tr d) = inl e ->
  forallb returned (removelast tr) = true ->
  exists tr0 ev,
    tr = (tr0 ++ [ev])%list /\ ev_reply ev = inl e /\
    forallb returned tr0 = true.
Proof.
  intros Hne Hl Hr. exists (removelast tr), (last tr d).
  split; [apply app_removelast_last; exact Hne | split; assumption].
Qed.

Lemma is_prefix_NoDup {A : Type} (l1 l2 : list A) :
  is_prefix l1 l2 -> NoDup l2 -> NoDup l1.
Proof. intros [k ->] H. apply NoDup_app_remove_r in H. exact H. Qed.

End Laws.

(** The wrappers of the base-class methods unfold to [do]. *)
Create HintDb methods.
#[export] Hint Unfold disarm_vehicle reboot_sitl
  repeatedly_apply_parameter_file set_rc change_mode run_cmd wait_rpm
  wait_ready_to_arm wait_not_ready_to_arm upload_rally_points_from_locations
  set_parameter arm_vehicle wait_current_waypoint wait_heading wait_mode
  delay_sim_time wait_text wait_disarmed mav_location assert_distance
  start_subtest end_subtest progress download_parameters sysid_thismav
  mav_source_system rootdir os_path_exists os_mkdir shutil_copy install_script
  install_applet_script load_mission remove_installed_modules
  remove_installed_script random_sample : methods.

(** One step of symbolic execution of a script. *)
Ltac wp_head :=
  lazymatch goal with
  | |- wp (bind (bind ?m ?f) ?g) ?Q ?w => apply (wp_assoc m f g Q w)
  | |- wp (bind (ret ?a) ?f) ?Q ?w => apply (wp_ret_bind a f Q w)
  | |- wp (bind (lift ?r) ?f) ?Q ?w =>
      let E := fresh "E" in
      apply (wp_lift_bind r f Q w); destruct r as [?e|?v] eqn:E
  | |- wp (bind (do ?c) ?f) ?Q ?w =>
      let E := fresh "E" in
      apply (wp_do_bind c f Q w); intros [?e|?v] ?w E;
      [| try match goal with x : ret_type _ _ |- _ => cbn [ret_type] in x end]
  | |- wp (bind (if ?b then _ else _) _) _ _ => destruct b
  | |- wp (if ?b then _ else _) _ _ => destruct b
  | |- wp (do ?c) ?Q ?w =>
      let E := fresh "E" in
      apply (wp_do c Q w); intros [?e|?v] ?w E;
      [| try match goal with x : ret_type _ _ |- _ => cbn [ret_type] in x end]
  | |- wp (ret ?a) ?Q ?w => apply (wp_ret a Q w)
  end.

(** The conversions of [do_guided] are not computed during symbolic
    execution: each is given a name. *)
Ltac name_conversions :=
  repeat match goal with
         | |- context [py_int ?x] => generalize (py_int x); intro
         end.

(** Every script built from calls, sequencing, branches and loops is
    [plain] and fails only by a call; the scripts already shown to be so
    are kept in two hint databases. *)
Create HintDb plain.
Create HintDb fails_by_call.

Ltac plain_tac :=
  repeat first
    [ solve [trivial with plain]
    | match goal with |- plain (do ?c) => exact (plain_do c) end
    | apply plain_ret | apply plain_raise | apply plain_lift
    | apply plain_dict_getitem
    | apply plain_if | apply plain_for_each; intros
    | apply plain_bind; [|intros]
    | progress autounfold with methods ].

Ltac fails_by_call_tac :=
  repeat first
    [ solve [trivial with fails_by_call]
    | match goal with
      | |- fails_by_call (do ?c) => exact (fails_by_call_do c)
      end
    | apply fails_by_call_ret
    | apply fails_by_call_if | apply fails_by_call_for_each; intros
    | apply fails_by_call_bind; [|intros]
    | progress autounfold with methods ].

(** ** reset_aircraft *)

Section ResetAircraft.
Context `{TS : TestSuite}.

Lemma plain_reset_aircraft : plain reset_aircraft.
Proof. unfold reset_aircraft. plain_tac. Qed.

Lemma fails_by_call_reset_aircraft : fails_by_call reset_aircraft.
Proof. unfold reset_aircraft. fails_by_call_tac. Qed.

Lemma reset_steps_NoDup : NoDup reset_steps.
Proof.
  unfold reset_steps.
  repeat (constructor; [simpl; intuition discriminate|]). constructor.
Qed.

(** The calls of [reset_aircraft] are the steps of the specification, up to
    the first one that fails. *)
Lemma reset_aircraft_steps (w : World) :
  wp reset_aircraft
    (fun r _ tr =>
       is_prefix (calls tr) reset_steps /\
       (r = inr tt -> calls tr = reset_steps)) w.
Proof.
  unfold reset_aircraft, reset_steps. autounfold with methods.
  repeat wp_head.
  all: cbn [calls map ev_call].
  all: split; [eexists; reflexivity | intros Hr; first [discriminate Hr | reflexivity]].
Qed.

End ResetAircraft.

#[export] Hint Resolve plain_reset_aircraft : plain.
#[export] Hint Resolve fails_by_call_reset_aircraft : fails_by_call.

Section ResetAircraftClaims.
Context `{TS : TestSuite}.

Lemma uncaught_init_returned {A : Type} (r : exn + A) tr0 ev :
  uncaught r (tr0 ++ [ev]) -> forallb returned tr0 = true.
Proof.
  intros Hu. apply forallb_forall. intros x Hin.
  apply in_split in Hin as (t1 & t2 & ->).
  unfold returned. destruct (ev_reply x) as [e|v] eqn:E; [|reflexivity].
  destruct (Hu t1 x (t2 ++ [ev])%list e) as [Habs _].
  - rewrite <- app_assoc. reflexivity.
  - exact E.
  - destruct t2; discriminate Habs.
Qed.

(** When [reset_aircraft] fails inside [basic_auto_mission], the mission
    ends there with the same exception. *)
Lemma basic_auto_mission_reset_failed heading target is_guided mn mx qa qr
    w0 e :
  let msg := subtest_message heading target is_guided qa qr in
  result (start_subtest msg) w0 = inr tt ->
  result reset_aircraft (final (start_subtest msg) w0) = inl e ->
  result (basic_auto_mission heading target is_guided mn mx qa qr) w0 = inl e /\
  trace (basic_auto_mission heading target is_guided mn mx qa qr) w0 =
    (trace (start_subtest msg) w0
     ++ trace reset_aircraft (final (start_subtest msg) w0))%list.
Proof.
  intros msg H0 H1. unfold basic_auto_mission. fold msg.
  match goal with
  | |- result (bind _ ?k) _ = _ /\ _ =>
      destruct (bind_inr (start_subtest msg) k w0 tt H0) as (Hr & _ & Ht)
  end.
  rewrite Hr, Ht. cbv beta.
  match goal with
  | |- result (bind _ ?k) ?w = _ /\ _ =>
      destruct (bind_inl reset_aircraft k w e H1) as (Hr' & _ & Ht')
  end.
  rewrite Hr', Ht'. split; reflexivity.
Qed.

(** C6.  Every run of [reset_aircraft] makes the eight calls of the
    specification in their order (force-disarm, restart, baseline parameter
    file, throttle to idle, QHOVER, engine start, wait for the RPM band,
    wait until armable) up to the first one that fails, and makes none of
    them twice.  It passes only when all eight returned.  When a call
    raises, that call is the last one, its exception is the result of
    [reset_aircraft], and whatever the caller had to do after
    [reset_aircraft] is skipped; in [basic_auto_mission] the mission ends
    with that exception. *)
Theorem reset_aircraft_sequence (w : World) :
  is_prefix (calls (trace reset_aircraft w)) reset_steps /\
  NoDup (calls (trace reset_aircraft w)) /\
  (result reset_aircraft w = inr tt ->
     calls (trace reset_aircraft w) = reset_steps /\
     forallb returned (trace reset_aircraft w) = true) /\
  (forall e, result reset_aircraft w = inl e ->
     (exists tr0 ev,
         trace reset_aircraft w = (tr0 ++ [ev])%list /\
         ev_reply ev = inl e /\
         forallb returned tr0 = true) /\
     (forall (B : Type) (rest : unit -> M B),
         result (bind reset_aircraft rest) w = inl e /\
         trace (bind reset_aircraft rest) w = trace reset_aircraft w) /\
     (forall heading target is_guided mn mx qa qr w0,
         let msg := subtest_message heading target is_guided qa qr in
         result (start_subtest msg) w0 = inr tt ->
         final (start_subtest msg) w0 = w ->
         result (basic_auto_mission heading target is_guided mn mx qa qr) w0
         = inl e)).
Proof.
  destruct (reset_aircraft_steps w) as [Hp Hok].
  destruct (plain_reset_aircraft w) as [_ Hu].
  split; [exact Hp|]. split.
  { eapply is_prefix_NoDup; [exact Hp | apply reset_steps_NoDup]. }
  split.
  - intros Hr. split; [exact (Hok Hr)|].
    eapply uncaught_all_returned; [exact Hu | eauto].
  - intros e He. split; [|split].
    + destruct (fails_by_call_reset_aircraft w e He) as (tr0 & ev & Ht & Hev).
      exists tr0, ev. repeat split; try assumption.
      rewrite Ht in Hu. eapply uncaught_init_returned; exact Hu.
    + intros B rest.
      destruct (bind_inl reset_aircraft rest w e He) as (H1 & _ & H3). auto.
    + intros heading target is_guided mn mx qa qr w0 msg H0 Hw.
      subst w.
      apply (basic_auto_mission_reset_failed heading target is_guided
               mn mx qa qr w0 e H0 He).
Qed.

End ResetAircraftClaims.

(** ** basic_auto_mission *)

Section BasicAutoMission.
Context `{TS : TestSuite}.

Lemma plain_do_guided target : plain (do_guided target).
Proof. unfold do_guided. plain_tac. Qed.

Lemma plain_basic_auto_mission heading target is_guided mn mx qa qr :
  plain (basic_auto_mission heading target is_guided mn mx qa qr).
Proof.
  unfold basic_auto_mission, do_guided. plain_tac.
Qed.

(** The calls of [basic_auto_mission] are the steps of the specification, up
    to the first one that fails; [here] is the location the vehicle
    reported after the disarm. *)
Lemma basic_auto_mission_steps heading target is_guided mn mx qa qr w :
  wp (basic_auto_mission heading target is_guided mn mx qa qr)
    (fun r _ tr =>
       exists here,
         is_prefix (calls tr)
           (mission_steps heading target is_guided mn mx qa qr here) /\
         (r = inr tt ->
            labels tr
            = map (passed here)
                (mission_steps heading target is_guided mn mx qa qr here))) w.
Proof.
  unfold basic_auto_mission, mission_steps, mission_steps_in_flight,
    mission_steps_landing, reset_aircraft, reset_steps, do_guided,
    guided_steps, scaled_e7.
  generalize (subtest_message heading target is_guided qa qr) as msg.
  intros msg. name_conversions. autounfold with methods.
  destruct is_guided; cbn [negb]; repeat wp_head.
  all: cbn [calls map app labels ev_call ev_reply to_reply passed].
  all: match goal with
       | v : location |- _ =>
           exists v; split;
           [ eexists; reflexivity
           | intros Hr; first [discriminate Hr | reflexivity] ]
       end.
Qed.

Lemma calls_labels tr : calls tr = map fst (labels tr).
Proof.
  unfold calls, labels. rewrite map_map. reflexivity.
Qed.

Lemma map_fst_passed here l : map fst (map (passed here) l) = l.
Proof.
  rewrite map_map. cbn [passed fst]. apply map_id.
Qed.

(** The two timeout texts occur at most once, together, among the steps. *)
Lemma mission_steps_timeout_texts heading target is_guided mn mx qa qr here :
  let steps := mission_steps heading target is_guided mn mx qa qr here in
  (length (filter (is_wait_text assist_text) steps)
   + length (filter (is_wait_text rtl_text) steps) <= 1)%nat.
Proof.
  unfold mission_steps, mission_steps_in_flight, mission_steps_landing,
    reset_steps, guided_steps.
  generalize (subtest_message heading target is_guided qa qr) as msg.
  intros msg.
  destruct is_guided, (truthy qa), (truthy qr),
    (scaled_e7 (lat target)), (scaled_e7 (lng target)); cbv; lia.
Qed.

(** A run of [basic_auto_mission] fails at a call, all the calls before it
    having returned, or in [do_guided] at the conversion of a coordinate,
    right after the change to GUIDED. *)
Lemma basic_auto_mission_failure heading target is_guided mn mx qa qr w :
  wp (basic_auto_mission heading target is_guided mn mx qa qr)
    (fun r _ tr =>
       forall e, r = inl e ->
         (exists tr0 ev,
             tr = (tr0 ++ [ev])%list /\ ev_reply ev = inl e /\
             forallb returned tr0 = true)
         \/ (is_guided = true /\ conversion_error target = Some e /\
             forallb returned tr = true /\
             calls tr
             = (mission_steps_before_kill heading target is_guided qa qr
                ++ [ RunCmd MAV_CMD_DO_ENGINE_CONTROL 0; WaitMode "RTL";
                     DelaySimTime 10; ChangeMode "GUIDED" ])%list)) w.
Proof.
  unfold basic_auto_mission, mission_steps_before_kill, reset_aircraft,
    reset_steps, do_guided, conversion_error, scaled_e7.
  generalize (subtest_message heading target is_guided qa qr) as msg.
  intros msg. name_conversions. autounfold with methods.
  destruct is_guided; cbn [negb]; repeat wp_head.
  all: intros e' He'; first [discriminate He' | injection He' as <-].
  all: first
    [ left;
      match goal with
      | |- context [mk_event ?c ?r ?w1 :: _] =>
          apply (ends_with_intro _ _ (mk_event c r w1));
          [discriminate | reflexivity | reflexivity]
      end
    | right; repeat split; reflexivity ].
Qed.

Lemma engine_kill_once heading target is_guided mn mx qa qr here :
  exists rest,
    mission_steps heading target is_guided mn mx qa qr here
    = (mission_steps_before_kill heading target is_guided qa qr
       ++ RunCmd MAV_CMD_DO_ENGINE_CONTROL 0 :: rest)%list /\
    ~ In (RunCmd MAV_CMD_DO_ENGINE_CONTROL 0)
        (mission_steps_before_kill heading target is_guided qa qr) /\
    ~ In (RunCmd MAV_CMD_DO_ENGINE_CONTROL 0) rest.
Proof.
  unfold mission_steps, mission_steps_in_flight, mission_steps_before_kill,
    mission_steps_landing, reset_steps, guided_steps.
  generalize (subtest_message heading target is_guided qa qr) as msg.
  intros msg.
  destruct is_guided, (truthy qa), (truthy qr),
    (scaled_e7 (lat target)), (scaled_e7 (lng target));
    cbn [app]; eexists; (split; [reflexivity|]);
    split; cbn [In]; intuition discriminate.
Qed.

(** C1.  Every run of [basic_auto_mission] takes the steps of the
    specification in their fixed order, up to the first call that fails:
    the reset; the upload of the target as the single rally point when the
    mission is not guided; the assist and RTL timeout parameters when they
    are not zero; only then AUTO and the arming; the wait for waypoint 4,
    then the wait for the heading within 5 degrees, and only then the
    engine failure; when guided, the wait for RTL, the delay and then the
    diversion to the target; then the wait for disarm and the distance
    assertion.  A run that passes has taken all of them and all of them
    returned.  A run that fails ends at the call that raised, with the
    exception of that call, all the calls before it having returned; the
    one other failure is a guided target whose coordinate does not convert
    to an integer, which ends the run right after the change to GUIDED.
    Whenever the engine failure is injected, the calls made before it are
    exactly the steps up to the wait for the heading, and all of them had
    returned. *)
Theorem basic_auto_mission_step_order heading target is_guided mn mx qa qr w :
  let m := basic_auto_mission heading target is_guided mn mx qa qr in
  exists here,
    is_prefix (calls (trace m w))
      (mission_steps heading target is_guided mn mx qa qr here) /\
    (result m w = inr tt ->
       calls (trace m w)
       = mission_steps heading target is_guided mn mx qa qr here /\
       forallb returned (trace m w) = true) /\
    (forall e, result m w = inl e ->
       (exists tr0 ev,
           trace m w = (tr0 ++ [ev])%list /\ ev_reply ev = inl e /\
           forallb returned tr0 = true)
       \/ (is_guided = true /\ conversion_error target = Some e /\
           forallb returned (trace m w) = true /\
           calls (trace m w)
           = (mission_steps_before_kill heading target is_guided qa qr
              ++ [ RunCmd MAV_CMD_DO_ENGINE_CONTROL 0; WaitMode "RTL";
                   DelaySimTime 10; ChangeMode "GUIDED" ])%list)) /\
    (forall tr0 ev tr1,
       trace m w = (tr0 ++ ev :: tr1)%list ->
       ev_call ev = RunCmd MAV_CMD_DO_ENGINE_CONTROL 0 ->
       calls tr0 = mission_steps_before_kill heading target is_guided qa qr /\
       forallb returned tr0 = true).
Proof.
  intros m. subst m.
  destruct (basic_auto_mission_steps heading target is_guided mn mx qa qr w)
    as (here & Hp & Hok).
  destruct (plain_basic_auto_mission heading target is_guided mn mx qa qr w)
    as [_ Hu].
  exists here. split; [exact Hp|]. split; [|split].
  - intros Hr. split.
    + rewrite calls_labels, (Hok Hr). apply map_fst_passed.
    + eapply uncaught_all_returned; [exact Hu | eauto].
  - exact (basic_auto_mission_failure heading target is_guided mn mx qa qr w).
  - intros tr0 ev tr1 Ht Hc. rewrite Ht in Hu, Hp. split.
    + destruct (engine_kill_once heading target is_guided mn mx qa qr here)
        as (rest & Hs & H0 & H1).
      rewrite Hs in Hp. unfold calls in Hp. rewrite map_app in Hp.
      cbn [map] in Hp. rewrite Hc in Hp.
      exact (is_prefix_before _ _ _ _ _ Hp H0 H1).
    + eapply uncaught_before_returned; exact Hu.
Qed.

(** C7.  In one run of [basic_auto_mission] at most one wait for a timeout
    text is made: the wait for the assist-timeout text and the wait for the
    RTL-timeout text never both occur. *)
Theorem timeout_waits_exclusive heading target is_guided mn mx qa qr w :
  let tr := trace (basic_auto_mission heading target is_guided mn mx qa qr) w in
  (count_calls (is_wait_text assist_text) tr
   + count_calls (is_wait_text rtl_text) tr <= 1)%nat.
Proof.
  intros tr. subst tr. unfold count_calls.
  destruct (basic_auto_mission_steps heading target is_guided mn mx qa qr w)
    as (here & Hp & _).
  pose proof (is_prefix_filter_length (is_wait_text assist_text) _ _ Hp).
  pose proof (is_prefix_filter_length (is_wait_text rtl_text) _ _ Hp).
  pose proof (mission_steps_timeout_texts heading target is_guided
                mn mx qa qr here) as H1.
  cbv zeta in H1. lia.
Qed.

End BasicAutoMission.

#[export] Hint Resolve plain_basic_auto_mission plain_do_guided : plain.

(** ** The prearm sweep *)

Section PrearmChecks.
Context `{TS : TestSuite}.

Lemma plain_test_prearm_checks : plain test_prearm_checks.
Proof. unfold test_prearm_checks. plain_tac. Qed.

Lemma test_prearm_checks_steps (w : World) :
  wp test_prearm_checks
    (fun r _ tr =>
       is_prefix (calls tr) prearm_steps /\
       (r = inr tt -> calls tr = prearm_steps)) w.
Proof.
  unfold test_prearm_checks, prearm_steps, prearm_pairs, reset_aircraft,
    reset_steps.
  autounfold with methods. repeat wp_head.
  all: cbn [calls map ev_call flat_map app fst snd].
  all: split;
    [eexists; reflexivity | intros Hr; first [discriminate Hr | reflexivity]].
Qed.

Lemma fails_by_call_test_prearm_checks : fails_by_call test_prearm_checks.
Proof. unfold test_prearm_checks. fails_by_call_tac. Qed.


End PrearmChecks.

(** ** The comparison of the parameter downloads *)

Section ParameterCheck.
Context `{TS : TestSuite}.

Lemma dict_get_keys {V : Type} (d : dict V) (p : string) :
  In p (dict_keys d) -> exists v, dict_get d p = Some v.
Proof.
  induction d as [|[k v] d IH]; simpl; [tauto|].
  intros [<- | Hin].
  - rewrite String.eqb_refl. eauto.
  - destruct (String.eqb k p); eauto.
Qed.

(** The loop of [assert_parameters_same] makes no call and leaves the
    world alone; its outcome is decided by the first name that fails. *)
Lemma assert_loop_run params_before params_after ps w :
  for_each ps (fun p =>
    if ignored p then ret tt
    else
      a <- dict_getitem params_before p ;;
      b <- dict_getitem params_after p ;;
      if py_ne a b then raise (ValueError (changed_message p a b))
      else ret tt) w
  = (match first_failure params_before params_after ps with
     | None => inr tt
     | Some e => inl e
     end, w, []).
Proof.
  induction ps as [|p ps IH]; [reflexivity|].
  cbn [for_each first_failure].
  match goal with
  | |- bind ?m _ w = _ =>
      assert (Hb : m w
                   = (match compare_at params_before params_after p with
                      | Same => inr tt
                      | Differs a b => inl (ValueError (changed_message p a b))
                      | Missing => inl (KeyError p)
                      end, w, []))
  end.
  { unfold compare_at, dict_getitem, bind, ret, raise.
    destruct (ignored p); [reflexivity|].
    destruct (dict_get params_before p) as [a|]; [|reflexivity].
    destruct (dict_get params_after p) as [b|]; [|reflexivity].
    destruct (py_ne a b); reflexivity. }
  unfold bind at 1. rewrite Hb.
  destruct (compare_at params_before params_after p); try reflexivity.
  rewrite IH. reflexivity.
Qed.

Lemma assert_parameters_same_run params_before params_after w :
  assert_parameters_same params_before params_after w
  = (match first_failure params_before params_after
             (dict_keys params_before) with
     | None => inr tt
     | Some e => inl e
     end, w, []).
Proof. apply assert_loop_run. Qed.

Lemma first_failure_None params_before params_after ps :
  first_failure params_before params_after ps = None <->
  forall p, In p ps -> compare_at params_before params_after p = Same.
Proof.
  induction ps as [|p ps IH]; simpl.
  - split; [intros _ p [] | reflexivity].
  - destruct (compare_at params_before params_after p) eqn:E.
    + rewrite IH. split.
      * intros H q [<- | Hq]; auto.
      * intros H q Hq. apply H. auto.
    + split; [discriminate|]. intros H.
      specialize (H p (or_introl eq_refl)). congruence.
    + split; [discriminate|]. intros H.
      specialize (H p (or_introl eq_refl)). congruence.
Qed.

Lemma first_failure_kind params_before params_after ps e :
  first_failure params_before params_after ps = Some e ->
  (exists msg, e = ValueError msg) \/ (exists k, e = KeyError k).
Proof.
  induction ps as [|p ps IH]; simpl; [discriminate|].
  destruct (compare_at params_before params_after p).
  - exact IH.
  - intros [= <-]. left. eauto.
  - intros [= <-]. right. eauto.
Qed.

Lemma compare_at_Same params_before params_after p :
  In p (dict_keys params_before) -> ignored p = false ->
  (compare_at params_before params_after p = Same <->
   exists a b, dict_get params_before p = Some a /\
               dict_get params_after p = Some b /\ py_ne a b = false).
Proof.
  intros Hin Hig. unfold compare_at. rewrite Hig.
  destruct (dict_get params_before p) as [a|].
  - destruct (dict_get params_after p) as [b|].
    + destruct (py_ne a b) eqn:E.
      * split; [discriminate|]. intros (a' & b' & [= <-] & [= <-] & H).
        congruence.
      * split; [eauto|reflexivity].
    + split; [discriminate|]. intros (a' & b' & _ & H & _). discriminate.
  - split; [discriminate|]. intros (a' & b' & H & _). discriminate.
Qed.

Lemma restored_iff params_before params_after :
  restored params_before params_after <->
  first_failure params_before params_after (dict_keys params_before) = None.
Proof.
  rewrite first_failure_None. split.
  - intros H p Hin. destruct (ignored p) eqn:Hig.
    + unfold compare_at. rewrite Hig. reflexivity.
    + apply compare_at_Same; auto.
  - intros H p Hin Hig. apply compare_at_Same; auto.
Qed.

(** The loop of [print_differences] only ever calls [progress]. *)
Lemma print_differences_trace params_before params_after w :
  Forall (fun ev => exists msg, ev_call ev = Progress msg)
    (trace (print_differences params_before params_after) w).
Proof.
  unfold print_differences.
  generalize (dict_keys params_before) as ps. intros ps. revert w.
  induction ps as [|p ps IH]; intros w; [constructor|].
  cbn [for_each].
  match goal with
  | |- Forall _ (trace (bind ?m ?f) w) =>
      assert (Hm : Forall (fun ev => exists msg, ev_call ev = Progress msg)
                     (trace m w));
      [| destruct (result m w) as [e|[]] eqn:Er;
         [ destruct (bind_inl m f w e Er) as (_ & _ & ->); exact Hm
         | destruct (bind_inr m f w tt Er) as (_ & _ & ->);
           apply Forall_app; split; [exact Hm | apply IH] ] ]
  end.
  unfold trace, bind, dict_getitem, progress, do, ret, raise.
  destruct (ignored p); cbn; [constructor|].
  destruct (dict_get params_before p) as [a|]; cbn; [|constructor].
  destruct (dict_get params_after p) as [b|]; cbn; [|constructor].
  destruct (py_ne a b); cbn; [|constructor].
  destruct (exec _ w) as [r w1]. cbn.
  constructor; [eexists; reflexivity | constructor].
Qed.

Lemma downloads_app tr1 tr2 :
  downloads (tr1 ++ tr2) = (downloads tr1 ++ downloads tr2)%list.
Proof. apply flat_map_app. Qed.

Lemma downloads_progress tr :
  Forall (fun ev => exists msg, ev_call ev = Progress msg) tr ->
  downloads tr = [].
Proof.
  induction 1 as [|ev tr [msg Hev] _ IH]; [reflexivity|].
  unfold downloads in *. cbn [flat_map]. rewrite Hev, IH. reflexivity.
Qed.

End ParameterCheck.

(** ** The parameter backup and restore sub-scenario *)

Section ParametersBackupRestore.
Context `{TS : TestSuite}.

Lemma wp_print_differences_bind {B : Type} params_before params_after
    (f : unit -> M B) Q w :
  (forall (r : exn + unit) w1 t1,
      downloads t1 = [] ->
      match r with
      | inl e => Q (inl e) w1 t1
      | inr _ => wp (f tt) (fun r2 w2 t2 => Q r2 w2 (t1 ++ t2)%list) w1
      end) ->
  wp (bind (print_differences params_before params_after) f) Q w.
Proof.
  intros H. apply wp_bind. unfold wp at 1.
  pose proof (downloads_progress _
                (print_differences_trace params_before params_after w)) as Hd.
  specialize (H (result (print_differences params_before params_after) w)
                (final (print_differences params_before params_after) w)
                _ Hd).
  destruct (result (print_differences params_before params_after) w) as [e|[]];
    exact H.
Qed.

Lemma wp_assert_parameters_same_bind {B : Type} params_before params_after
    (f : unit -> M B) Q w :
  match first_failure params_before params_after (dict_keys params_before) with
  | None => wp (f tt) Q w
  | Some e => Q (inl e) w []
  end ->
  wp (bind (assert_parameters_same params_before params_after) f) Q w.
Proof.
  intros H. apply wp_bind. unfold wp at 1, result, final, trace.
  rewrite assert_parameters_same_run. cbn [fst snd].
  destruct (first_failure params_before params_after
              (dict_keys params_before)); exact H.
Qed.

Ltac wp_params :=
  first
    [ wp_head
    | lazymatch goal with
      | |- wp (bind (print_differences ?a ?b) ?f) ?Q ?w =>
          let Hd := fresh "Hd" in
          apply (wp_print_differences_bind a b f Q w);
          intros [?e|?v] ?w ?t Hd
      | |- wp (bind (assert_parameters_same ?a ?b) ?f) ?Q ?w =>
          let F := fresh "F" in
          apply (wp_assert_parameters_same_bind a b f Q w);
          destruct (first_failure a b (dict_keys a)) eqn:F
      end ].

Lemma downloads_cons ev tr :
  downloads (ev :: tr)
  = (match ev_call ev, ev_reply ev with
     | DownloadParameters _ _, inr (RParams d _) => [d]
     | _, _ => []
     end ++ downloads tr)%list.
Proof. reflexivity. Qed.

(** A run of the sub-scenario that passes has downloaded the parameters
    three times and found nothing to report between the first and the
    third download; a run that reached the third download and found
    something has raised it. *)
Lemma test_parameters_backup_restore_run (w : World) :
  wp test_parameters_backup_restore
    (fun r _ tr =>
       (r = inr tt ->
          exists pb p2 p3,
            downloads tr = [pb; p2; p3] /\
            first_failure pb p3 (dict_keys pb) = None) /\
       (forall pb p2 p3,
          downloads tr = [pb; p2; p3] ->
          match first_failure pb p3 (dict_keys pb) with
          | Some e => r = inl e
          | None => True
          end)) w.
Proof.
  unfold test_parameters_backup_restore, reset_aircraft.
  autounfold with methods. repeat wp_params.
  all: rewrite ?downloads_cons, ?downloads_app, ?downloads_cons;
       cbn [ev_call ev_reply to_reply app];
       try match goal with Hd : downloads _ = [] |- _ => rewrite Hd end;
       cbn [app downloads flat_map].
  all: split;
    [ intros Hr;
      first [ discriminate Hr
            | do 3 eexists; split; [reflexivity | assumption] ]
    | intros pb p2 p3 Hd';
      first [ discriminate Hd'
            | injection Hd' as <- <- <-;
              match goal with
              | F : first_failure _ _ _ = _ |- _ => rewrite F
              end;
              first [reflexivity | exact I] ] ].
Qed.

End ParametersBackupRestore.

Section RestoreCheckScope.
Context `{TS : TestSuite}.

Lemma compare_at_ext params_before params_after params_after' p :
  dict_get params_after' p = dict_get params_after p ->
  compare_at params_before params_after' p
  = compare_at params_before params_after p.
Proof. intros H. unfold compare_at. rewrite H. reflexivity. Qed.

Lemma first_failure_ext params_before params_after params_after' ps :
  (forall p, In p ps -> dict_get params_after' p = dict_get params_after p) ->
  first_failure params_before params_after' ps
  = first_failure params_before params_after ps.
Proof.
  induction ps as [|p ps IH]; intros H; [reflexivity|].
  cbn [first_failure].
  rewrite (compare_at_ext params_before params_after params_after' p)
    by (apply H; left; reflexivity).
  rewrite IH by (intros q Hq; apply H; right; exact Hq).
  reflexivity.
Qed.

Lemma first_failure_skip params_before params_after ps1 ps2 :
  (forall q, In q ps1 -> compare_at params_before params_after q = Same) ->
  first_failure params_before params_after (ps1 ++ ps2)
  = first_failure params_before params_after ps2.
Proof.
  induction ps1 as [|q ps1 IH]; intros H; [reflexivity|].
  cbn [app first_failure]. rewrite (H q (or_introl eq_refl)).
  apply IH. intros q' Hq'. apply H. right. exact Hq'.
Qed.

Lemma compare_at_missing params_before params_after p :
  In p (dict_keys params_before) -> ignored p = false ->
  dict_get params_after p = None ->
  compare_at params_before params_after p = Missing.
Proof.
  intros Hin Hig Hnone. unfold compare_at. rewrite Hig, Hnone.
  destruct (dict_get params_before p); reflexivity.
Qed.

Lemma ignored_spec p :
  ignored p = true <->
  exists s, In s ["STAT"; "BARO"; "SERVO"; "Q_P_ACCZ_IMAX"] /\
            String.prefix s p = true.
Proof. unfold ignored, param_ignore_filter. apply existsb_exists. Qed.

(** C10.  The comparison after the restore runs over the names of the
    pre-failure download only: what the post-restore download holds under
    other names has no effect on it.  The subscript into the post-restore
    download is not guarded: when the loop comes to a name that is not
    ignored and that the post-restore download lacks, it raises
    [KeyError] for that name (and no run passes with such a name).  A name
    is ignored exactly when one of "STAT", "BARO", "SERVO",
    "Q_P_ACCZ_IMAX" is a prefix of it, and an ignored name is never
    compared.  In the sub-scenario the two dictionaries are the first and
    the third download and the exception ends the run. *)
Theorem restore_check_scope :
  (forall params_before params_after params_after' w,
      (forall p, In p (dict_keys params_before) ->
                 dict_get params_after' p = dict_get params_after p) ->
      assert_parameters_same params_before params_after' w
      = assert_parameters_same params_before params_after w) /\
  (forall params_before params_after ps1 p ps2 w,
      dict_keys params_before = (ps1 ++ p :: ps2)%list ->
      (forall q, In q ps1 -> compare_at params_before params_after q = Same) ->
      ignored p = false ->
      dict_get params_after p = None ->
      result (assert_parameters_same params_before params_after) w
      = inl (KeyError p)) /\
  (forall params_before params_after p w,
      In p (dict_keys params_before) ->
      ignored p = false ->
      dict_get params_after p = None ->
      exists e,
        result (assert_parameters_same params_before params_after) w = inl e) /\
  param_ignore_filter = ["STAT"; "BARO"; "SERVO"; "Q_P_ACCZ_IMAX"] /\
  (forall p,
      ignored p = true <->
      exists s, In s ["STAT"; "BARO"; "SERVO"; "Q_P_ACCZ_IMAX"] /\
                String.prefix s p = true) /\
  (forall params_before params_after p,
      ignored p = true -> compare_at params_before params_after p = Same) /\
  (forall w pb p2 p3 e,
      downloads (trace test_parameters_backup_restore w) = [pb; p2; p3] ->
      first_failure pb p3 (dict_keys pb) = Some e ->
      result test_parameters_backup_restore w = inl e).
Proof.
  repeat split.
  - intros pb pa pa' w H. rewrite !assert_parameters_same_run.
    rewrite (first_failure_ext pb pa pa' _ H). reflexivity.
  - intros pb pa ps1 p ps2 w Hk Hsame Hig Hnone.
    unfold result. rewrite assert_parameters_same_run, Hk.
    rewrite first_failure_skip by exact Hsame.
    cbn [first_failure fst].
    rewrite compare_at_missing; try assumption; [reflexivity|].
    rewrite Hk. apply in_elt.
  - intros pb pa p w Hin Hig Hnone.
    unfold result. rewrite assert_parameters_same_run. cbn [fst].
    destruct (first_failure pb pa (dict_keys pb)) as [e|] eqn:F; [eauto|].
    rewrite first_failure_None in F. specialize (F p Hin).
    rewrite compare_at_missing in F by assumption. discriminate F.
  - apply ignored_spec.
  - apply ignored_spec.
  - intros pb pa p Hig. unfold compare_at. rewrite Hig. reflexivity.
  - intros w pb p2 p3 e Hd F.
    destruct (test_parameters_backup_restore_run w) as [_ Hbad].
    specialize (Hbad pb p2 p3 Hd). rewrite F in Hbad. exact Hbad.
Qed.

End RestoreCheckScope.

(** Runs of the sub-scenario on the simulated vehicle: one that restores the
    parameter and passes, one that forgets it and raises, and a comparison
    that meets a missing name. *)
Example parameters_restored_on_sim :
  @result Sim.suite _ test_parameters_backup_restore Sim.start = inr tt.
Proof. vm_compute. reflexivity. Qed.

Example parameters_not_restored_on_sim :
  @result Sim.suite _ test_parameters_backup_restore Sim.forgetful
  = inl (ValueError "Q_ASSIST_SPEED changed from 18 to 0").
Proof. vm_compute. reflexivity. Qed.

Example missing_name_on_sim :
  @result Sim.suite _
    (assert_parameters_same (TS := Sim.suite)
       [("STAT_BOOTCNT", 8); ("GLIDE_SPD", 22); ("Q_ASSIST_SPEED", 18)]
       [("GLIDE_SPD", 22); ("ONLY_AFTER", 1)])
    Sim.start
  = inl (KeyError "Q_ASSIST_SPEED").
Proof. vm_compute. reflexivity. Qed.

(** ** EngineOutScript: how a failure of a sub-scenario ends the run *)

Section EngineOut.
Context `{TS : TestSuite}.

Lemma bind_inr_inv {A B : Type} (m : M A) (f : A -> M B) w b :
  result (bind m f) w = inr b -> exists a, result m w = inr a.
Proof.
  intros H. destruct (result m w) as [e|a] eqn:Er; [|eauto].
  destruct (bind_inl m f w e Er) as (H1 & _). congruence.
Qed.

Lemma bind_ext {A B : Type} (m : M A) (f g : A -> M B) w :
  (forall a w', f a w' = g a w') -> bind m f w = bind m g w.
Proof.
  intros H. unfold bind. destruct (m w) as [[[e|a] w1] t1]; [reflexivity|].
  rewrite H. reflexivity.
Qed.

Lemma bind_ret_r (m : M unit) w : bind m (fun _ => ret tt) w = m w.
Proof.
  unfold bind, ret. destruct (m w) as [[[e|[]] w1] t1]; [reflexivity|].
  rewrite app_nil_r. reflexivity.
Qed.

(** [EngineOutScript] is its two setup blocks, then the sub-scenarios one
    after the other, then the removal of the scripts. *)
Lemma EngineOutScript_unfold w :
  EngineOutScript w
  = (install_scripts ;;
     prepare_vehicle ;;
     for_each (sub_scenarios ++ [remove_scripts])%list
       (fun scenario => scenario)) w.
Proof.
  unfold EngineOutScript, sub_scenarios. cbn [app for_each].
  repeat (apply bind_ext; intros _ ?).
  symmetry. apply bind_ret_r.
Qed.

(** A loop whose body fails at one element ends there. *)
Lemma for_each_abort {A : Type} (body : A -> M unit) l1 x l2 w e :
  result (for_each l1 body) w = inr tt ->
  result (body x) (final (for_each l1 body) w) = inl e ->
  result (for_each (l1 ++ x :: l2) body) w = inl e /\
  final (for_each (l1 ++ x :: l2) body) w
  = final (body x) (final (for_each l1 body) w) /\
  trace (for_each (l1 ++ x :: l2) body) w
  = (trace (for_each l1 body) w
     ++ trace (body x) (final (for_each l1 body) w))%list.
Proof.
  revert w. induction l1 as [|a l1 IH]; intros w Hok Hbad.
  - cbn [app for_each] in *. change (final (ret tt) w) with w in *.
    destruct (bind_inl (body x) (fun _ => for_each l2 body) w e Hbad)
      as (H1 & H2 & H3).
    rewrite H1, H2, H3. auto.
  - cbn [app for_each] in *.
    destruct (bind_inr_inv _ _ _ _ Hok) as ([] & Ha).
    destruct (bind_inr (body a) (fun _ => for_each l1 body) w tt Ha)
      as (H1 & H2 & H3).
    rewrite H1 in Hok. rewrite H2 in Hbad.
    destruct (IH _ Hok Hbad) as (I1 & I2 & I3).
    destruct (bind_inr (body a) (fun _ => for_each (l1 ++ x :: l2) body)
                w tt Ha) as (J1 & J2 & J3).
    rewrite J1, J2, J3, H2, H3, I1, I2, I3, app_assoc. auto.
Qed.

Lemma nth_error_firstn_skipn {A : Type} (l : list A) n x :
  nth_error l n = Some x -> l = (firstn n l ++ x :: skipn (S n) l)%list.
Proof.
  revert l. induction n as [|n IH]; intros [|a l] H; try discriminate H.
  - injection H as ->. reflexivity.
  - cbn [firstn skipn app]. f_equal. apply IH. exact H.
Qed.

(** C5, as the code has it.  [EngineOutScript] catches nothing and has no
    run-all setting: when a sub-scenario raises, after everything before it
    has passed, its exception is the result of [EngineOutScript] and the
    run ends with the last call of that sub-scenario; no reset is attempted
    and no later sub-scenario is started. *)
Theorem sub_scenario_error_ends_run (w : World) (n : nat) (s : M unit)
    (e : exn) :
  nth_error sub_scenarios n = Some s ->
  result (run_before n) w = inr tt ->
  result s (final (run_before n) w) = inl e ->
  result EngineOutScript w = inl e /\
  final EngineOutScript w = final s (final (run_before n) w) /\
  trace EngineOutScript w
  = (trace (run_before n) w ++ trace s (final (run_before n) w))%list.
Proof.
  intros Hn Hok Hbad.
  unfold result, final, trace. rewrite EngineOutScript_unfold.
  change (result (install_scripts ;; prepare_vehicle ;;
                  for_each (sub_scenarios ++ [remove_scripts])%list
                    (fun scenario => scenario)) w = inl e /\
          final (install_scripts ;; prepare_vehicle ;;
                 for_each (sub_scenarios ++ [remove_scripts])%list
                   (fun scenario => scenario)) w
          = final s (final (run_before n) w) /\
          trace (install_scripts ;; prepare_vehicle ;;
                 for_each (sub_scenarios ++ [remove_scripts])%list
                   (fun scenario => scenario)) w
          = (trace (run_before n) w
             ++ trace s (final (run_before n) w))%list).
  unfold run_before in *.
  destruct (bind_inr_inv _ _ _ _ Hok) as ([] & H1).
  destruct (bind_inr install_scripts
              (fun _ => prepare_vehicle ;;
                 for_each (firstn n sub_scenarios) (fun scenario => scenario))
              w tt H1) as (A1 & A2 & A3).
  rewrite A1 in Hok. rewrite A2 in Hbad. rewrite A2, A3.
  destruct (bind_inr install_scripts
              (fun _ => prepare_vehicle ;;
                 for_each (sub_scenarios ++ [remove_scripts])%list
                   (fun scenario => scenario))
              w tt H1) as (B1 & B2 & B3).
  rewrite B1, B2, B3. clear A1 A2 A3 B1 B2 B3.
  set (w1 := final install_scripts w) in *.
  destruct (bind_inr_inv _ _ _ _ Hok) as ([] & H2).
  destruct (bind_inr prepare_vehicle
              (fun _ => for_each (firstn n sub_scenarios)
                          (fun scenario => scenario))
              w1 tt H2) as (A1 & A2 & A3).
  rewrite A1 in Hok. rewrite A2 in Hbad. rewrite A2, A3.
  destruct (bind_inr prepare_vehicle
              (fun _ => for_each (sub_scenarios ++ [remove_scripts])%list
                          (fun scenario => scenario))
              w1 tt H2) as (B1 & B2 & B3).
  rewrite B1, B2, B3. clear A1 A2 A3 B1 B2 B3.
  set (w2 := final prepare_vehicle w1) in *.
  assert (Hsplit :
            (sub_scenarios ++ [remove_scripts])%list
            = (firstn n sub_scenarios
               ++ s :: (skipn (S n) sub_scenarios ++ [remove_scripts]))%list).
  { rewrite (nth_error_firstn_skipn sub_scenarios n s Hn) at 1.
    rewrite <- app_assoc. reflexivity. }
  rewrite Hsplit.
  destruct (for_each_abort (fun scenario : M unit => scenario)
              (firstn n sub_scenarios) s
              (skipn (S n) sub_scenarios ++ [remove_scripts])%list
              w2 e Hok Hbad) as (C1 & C2 & C3).
  rewrite C1, C2, C3, <- !app_assoc. auto.
Qed.

End EngineOut.

(** ** What a passing mission says about the vehicle *)

Section Landing.
Context `{VL : VehicleLink}.

(** A call of a run that returned was answered by [exec], in the world the
    calls before it had left. *)
Lemma event_exec w tr0 ev tr1 w' :
  run_of w (tr0 ++ ev :: tr1) w' -> returned ev = true ->
  exists w0 v,
    run_of w tr0 w0 /\
    exec (ev_call ev) w0 = (inr v, ev_post ev) /\
    ev_reply ev = inr (to_reply pvalue (ev_call ev) v).
Proof.
  intros Hrun Hret.
  destruct (run_of_split _ _ _ _ _ Hrun) as (w0 & H0 & Hr & Hp & _).
  exists w0. unfold returned in Hret.
  destruct (exec (ev_call ev) w0) as [[e|v] w1] eqn:E; cbn in Hr, Hp.
  - rewrite Hr in Hret. discriminate Hret.
  - exists v. rewrite Hp. auto.
Qed.

Lemma run_of_nil_inv w w' : run_of w [] w' -> w' = w.
Proof. inversion 1. reflexivity. Qed.

(** The end of a mission that passed: the wait for the disarm returned
    within its limit with the vehicle disarmed, the location was read
    next, and it lies within the band. *)
Lemma basic_auto_mission_landing heading target is_guided mn mx qa qr w :
  wait_disarmed_contract -> assert_distance_contract ->
  mav_location_contract ->
  let m := basic_auto_mission heading target is_guided mn mx qa qr in
  result m w = inr tt ->
  exists here tr0 ev_d ev_l ev_a ev_e w0,
    trace m w = (tr0 ++ [ev_d; ev_l; ev_a; ev_e])%list /\
    calls tr0 = mission_steps_in_flight heading target is_guided qa qr /\
    calls (trace m w)
    = mission_steps heading target is_guided mn mx qa qr here /\
    run_of w tr0 w0 /\
    ev_call ev_d = WaitDisarmed (Some 600) /\
    armed (ev_post ev_d) = false /\
    now (ev_post ev_d) - now w0 <= 600 /\
    ev_call ev_l = MavLocation /\
    here = position (ev_post ev_l) /\
    (inject_Z mn <= get_distance target here <= inject_Z mx)%Q.
Proof.
  intros Hd Ha Hl m Hr. subst m.
  destruct (basic_auto_mission_steps heading target is_guided mn mx qa qr w)
    as (here & _ & Hok).
  specialize (Hok Hr).
  destruct (plain_basic_auto_mission heading target is_guided mn mx qa qr w)
    as [Hrun Hu].
  assert (Hall : forallb returned
                   (trace (basic_auto_mission heading target is_guided
                             mn mx qa qr) w) = true)
    by (eapply uncaught_all_returned; [exact Hu | eauto]).
  assert (Hcalls : calls (trace (basic_auto_mission heading target is_guided
                                   mn mx qa qr) w)
                   = mission_steps heading target is_guided mn mx qa qr here)
    by (rewrite calls_labels, Hok; apply map_fst_passed).
  revert Hok Hrun Hall Hcalls.
  generalize (final (basic_auto_mission heading target is_guided
                       mn mx qa qr) w) as w'.
  generalize (trace (basic_auto_mission heading target is_guided
                       mn mx qa qr) w) as tr.
  intros tr w' Hok Hrun Hall Hcalls.
  unfold mission_steps in Hok. rewrite map_app in Hok.
  unfold labels in Hok.
  apply map_eq_app in Hok as (tr0 & tl & -> & H0 & Htl).
  unfold mission_steps_landing in Htl. cbn [map passed] in Htl.
  destruct tl as [|[cd rd pd] [|[cl rl pl] [|[ca ra pa] [|[ce re pe] [|? ?]]]]];
    try discriminate Htl.
  cbn [map ev_call ev_reply] in Htl.
  injection Htl as -> -> -> -> -> -> -> ->.
  rewrite forallb_app in Hall. apply andb_prop in Hall as [_ Hall].
  set (msg := subtest_message heading target is_guided qa qr) in *.
  set (ev_d := mk_event (WaitDisarmed (Some 600)) (inr RNone) pd) in *.
  set (ev_l := mk_event MavLocation (inr (RLocation here)) pl) in *.
  set (ev_a := mk_event (AssertDistance target here mn mx) (inr RNone) pa)
    in *.
  set (ev_e := mk_event (EndSubtest msg) (inr RNone) pe) in *.
  destruct (event_exec w tr0 ev_d [ev_l; ev_a; ev_e] w' Hrun eq_refl)
    as (w0 & v & Hrun0 & Ed & _).
  assert (Hrun1 : run_of w ((tr0 ++ [ev_d]) ++ ev_l :: [ev_a; ev_e]) w')
    by (rewrite <- app_assoc; exact Hrun).
  destruct (event_exec w _ ev_l _ w' Hrun1 eq_refl)
    as (w1 & l & _ & El & Hrl).
  assert (Hrun2 : run_of w ((tr0 ++ [ev_d; ev_l]) ++ ev_a :: [ev_e]) w')
    by (rewrite <- app_assoc; exact Hrun).
  destruct (event_exec w _ ev_a _ w' Hrun2 eq_refl)
    as (w2 & u & _ & Ea & _).
  cbn [ev_d ev_l ev_a ev_call ev_post ev_reply to_reply] in Ed, El, Hrl, Ea.
  injection Hrl as <-.
  destruct (Hd _ _ _ _ Ed) as [Harmed Htime].
  exists here, tr0, ev_d, ev_l, ev_a, ev_e, w0.
  split; [reflexivity|].
  split.
  { rewrite calls_labels. unfold labels. rewrite H0. apply map_fst_passed. }
  split; [exact Hcalls|]. split; [exact Hrun0|].
  split; [reflexivity|]. split; [exact Harmed|].
  split; [apply Htime; reflexivity|]. split; [reflexivity|].
  split; [exact (Hl _ _ _ El)|].
  exact (Ha _ _ _ _ _ _ _ Ea).
Qed.

End Landing.

(** ** The example scenario and the heading sweep *)

Section Sweep.
Context `{VL : VehicleLink}.

(** C3, as the code has it.  In the example scenario (heading 270, the
    rally target, rally mode, band [0, 50]) a run passes only if the
    vehicle is disarmed within 600 time units of the start of the wait for
    the disarm, which starts after the engine failure was injected (the
    waits for the waypoint and for the heading that come after the entry
    into AUTO have limits of their own), and the location the vehicle
    reports then is at most 50 from the target. *)
Theorem example_scenario_pass_conditions (w : World) :
  wait_disarmed_contract -> assert_distance_contract ->
  mav_location_contract ->
  result example_scenario w = inr tt ->
  exists here tr0 ev_d ev_l tr1 w0,
    trace example_scenario w = (tr0 ++ ev_d :: ev_l :: tr1)%list /\
    run_of w tr0 w0 /\
    In (ChangeMode "AUTO") (calls tr0) /\
    last (calls tr0) MavLocation = RunCmd MAV_CMD_DO_ENGINE_CONTROL 0 /\
    ev_call ev_d = WaitDisarmed (Some 600) /\
    armed (ev_post ev_d) = false /\
    now (ev_post ev_d) - now w0 <= 600 /\
    ev_call ev_l = MavLocation /\
    here = position (ev_post ev_l) /\
    (0 <= get_distance rally_loc here <= 50)%Q.
Proof.
  intros Hd Ha Hl Hr.
  destruct (basic_auto_mission_landing 270 rally_loc false 0 50 0 0 w
              Hd Ha Hl Hr)
    as (here & tr0 & ev_d & ev_l & ev_a & ev_e & w0 & Ht & Hc0 & _ & Hrun
        & Hcd & Harm & Htime & Hcl & Hpos & Hband).
  exists here, tr0, ev_d, ev_l, [ev_a; ev_e], w0.
  split; [exact Ht|]. split; [exact Hrun|].
  rewrite Hc0. unfold mission_steps_in_flight, reset_steps.
  cbn [truthy Z.eqb negb app last].
  split; [simpl; tauto|]. split; [reflexivity|].
  repeat (split; [assumption|]). exact Hband.
Qed.

(** A loop that passed ran its body to the end once for each element, in
    order; the record of the loop is the records of these runs, one after
    the other. *)
Lemma for_each_pass {A : Type} (body : A -> M unit) (l : list A) w :
  result (for_each l body) w = inr tt ->
  exists segs,
    trace (for_each l body) w = concat segs /\
    Forall2 (fun x seg =>
               exists w0, result (body x) w0 = inr tt /\
                          seg = trace (body x) w0) l segs.
Proof.
  revert w. induction l as [|x l IH]; intros w Hr.
  - exists []. split; [reflexivity | constructor].
  - cbn [for_each] in *.
    destruct (bind_inr_inv _ _ _ _ Hr) as ([] & Hx).
    destruct (bind_inr (body x) (fun _ => for_each l body) w tt Hx)
      as (H1 & _ & H3).
    rewrite H1 in Hr. destruct (IH _ Hr) as (segs & Ht & Hall).
    exists (trace (body x) w :: segs). split.
    + rewrite H3, Ht. reflexivity.
    + constructor; [eauto | exact Hall].
Qed.

Lemma py_range_fixed : py_range 0 360 90 = [0; 90; 180; 270].
Proof. reflexivity. Qed.

Lemma py_range_360_In h : In h (py_range 0 360 1) -> 0 <= h < 360.
Proof.
  unfold py_range. intros H. apply in_map_iff in H as (i & <- & Hi).
  apply in_seq in Hi.
  change (Z.to_nat ((360 - 0 + 1 - 1) / 1)) with 360%nat in Hi. lia.
Qed.

(** A loop that failed ran its body to the end for the elements before
    the one at which it failed, and stopped there. *)
Lemma for_each_fail {A : Type} (body : A -> M unit) (l : list A) w e :
  result (for_each l body) w = inl e ->
  exists flown x rest segs w0,
    l = (flown ++ x :: rest)%list /\
    Forall2 (fun y seg =>
               exists w1, result (body y) w1 = inr tt /\
                          seg = trace (body y) w1) flown segs /\
    result (body x) w0 = inl e /\
    trace (for_each l body) w = (concat segs ++ trace (body x) w0)%list.
Proof.
  revert w. induction l as [|x l IH]; intros w Hr; [discriminate Hr|].
  cbn [for_each] in *.
  destruct (result (body x) w) as [e'|[]] eqn:Ex.
  - destruct (bind_inl (body x) (fun _ => for_each l body) w e' Ex)
      as (H1 & _ & H3).
    rewrite H1 in Hr. injection Hr as ->.
    exists [], x, l, [], w. rewrite H3.
    split; [reflexivity|]. split; [constructor|]. split; [exact Ex|].
    reflexivity.
  - destruct (bind_inr (body x) (fun _ => for_each l body) w tt Ex)
      as (H1 & _ & H3).
    rewrite H1 in Hr.
    destruct (IH _ Hr) as (flown & y & rest & segs & w0 & Hl & Hall & Hy & Ht).
    exists (x :: flown), y, rest, (trace (body x) w :: segs), w0.
    split; [rewrite Hl; reflexivity|].
    split; [constructor; [eauto | exact Hall]|].
    split; [exact Hy|].
    rewrite H3, Ht. cbn [concat]. rewrite app_assoc. reflexivity.
Qed.

(** A rally mission of the sweep that passed has landed in the band. *)
Lemma sweep_mission_landed h w0 :
  wait_disarmed_contract -> assert_distance_contract ->
  mav_location_contract ->
  result (basic_auto_mission h rally_loc default_is_guided
            default_min_distance default_max_distance
            default_timeout_override default_timeout_override) w0 = inr tt ->
  landed_in_band rally_loc 0 50 h
    (trace (basic_auto_mission h rally_loc default_is_guided
              default_min_distance default_max_distance
              default_timeout_override default_timeout_override) w0).
Proof.
  intros Hd Ha Hl Hok.
  destruct (basic_auto_mission_landing h rally_loc false 0 50 0 0 w0
              Hd Ha Hl Hok)
    as (here & tr0 & ev_d & ev_l & ev_a & ev_e & w00 & Hseg & _ & Hc & _
        & Hcd & Harm & _ & Hcl & Hpos & Hband).
  exists here, ev_d, ev_l.
  split; [exact Hc|].
  unfold default_is_guided, default_min_distance, default_max_distance,
    default_timeout_override.
  rewrite Hseg.
  split; [apply in_or_app; right; simpl; tauto|].
  split; [exact Hcd|]. split; [exact Harm|].
  split; [apply in_or_app; right; simpl; tauto|].
  split; [exact Hcl|]. split; [exact Hpos|]. exact Hband.
Qed.

(** C8, as the code has it.  The heading sweep draws four headings from
    0..359 and then runs [basic_auto_mission] towards the rally target
    for 0, 90, 180, 270 and the four drawn, in this order, as long as
    each run passes.  A sweep that passes has run it once for each of the
    eight, and each of these runs ended with the vehicle disarmed and with
    the location it then reported within the band [0, 50] around the
    target.  A sweep that fails has failed at the draw, or at the first
    run that failed: the runs before it landed in the band, that run
    ended at the call that raised, with the exception of that call, and
    the headings after it were not flown. *)
Theorem heading_sweep_lands_in_band (w : World) :
  wait_disarmed_contract -> assert_distance_contract ->
  mav_location_contract -> random_sample_contract ->
  (result test_random_angles w = inr tt ->
   exists sample ev_s segs,
     py_range 0 360 90 = [0; 90; 180; 270] /\
     length sample = 4%nat /\
     (forall h, In h sample -> 0 <= h < 360) /\
     ev_call ev_s = RandomSample (py_range 0 360 1) 4 /\
     ev_reply ev_s = inr (RInts sample) /\
     trace test_random_angles w = ev_s :: concat segs /\
     Forall2 (landed_in_band rally_loc 0 50)
       ([0; 90; 180; 270] ++ sample) segs) /\
  (forall e, result test_random_angles w = inl e ->
     (exists ev_s,
         trace test_random_angles w = [ev_s] /\
         ev_call ev_s = RandomSample (py_range 0 360 1) 4 /\
         ev_reply ev_s = inl e)
     \/
     (exists sample ev_s flown h rest segs seg,
         length sample = 4%nat /\
         ev_call ev_s = RandomSample (py_range 0 360 1) 4 /\
         ev_reply ev_s = inr (RInts sample) /\
         ([0; 90; 180; 270] ++ sample)%list = (flown ++ h :: rest)%list /\
         Forall2 (landed_in_band rally_loc 0 50) flown segs /\
         trace test_random_angles w = (ev_s :: concat segs ++ seg)%list /\
         (exists w0,
             seg = trace (basic_auto_mission h rally_loc false 0 50 0 0) w0 /\
             result (basic_auto_mission h rally_loc false 0 50 0 0) w0
             = inl e) /\
         (exists tr0 ev,
             seg = (tr0 ++ [ev])%list /\ ev_reply ev = inl e /\
             forallb returned tr0 = true))).
Proof.
  intros Hd Ha Hl Hs. unfold test_random_angles.
  match goal with
  | |- (result (bind ?m ?k) w = _ -> _) /\ _ =>
      set (draw := m); set (loop := k)
  end.
  assert (Hdraw : forall r w1,
             exec (RandomSample (py_range 0 360 1) 4) w = (r, w1) ->
             result draw w = r /\ final draw w = w1 /\
             trace draw w
             = [mk_event (RandomSample (py_range 0 360 1) 4)
                  (reply_of (RandomSample (py_range 0 360 1) 4) r) w1]).
  { intros r w1 E. subst draw.
    unfold random_sample, result, final, trace, do. rewrite E. auto. }
  destruct (exec (RandomSample (py_range 0 360 1) 4) w) as [r w1] eqn:E.
  destruct (Hdraw r w1 eq_refl) as (Dr & Df & Dt). clear Hdraw.
  destruct r as [e0|sample].
  - destruct (bind_inl draw loop w e0 Dr) as (H1 & _ & H3).
    rewrite H1, H3, Dt. split; [discriminate|].
    intros e [= <-]. left. eexists. repeat split; reflexivity.
  - cbn [ret_type] in sample.
    destruct (bind_inr draw loop w sample Dr) as (H1 & _ & H3).
    rewrite H1, H3, Dt, Df. subst loop. cbv beta.
    destruct (Hs _ _ _ _ _ E) as [Hlen Hincl].
    rewrite py_range_fixed.
    split.
    + intros Hr.
      destruct (for_each_pass _ _ _ Hr) as (segs & Ht & Hall).
      exists sample, (mk_event (RandomSample (py_range 0 360 1) 4)
                        (inr (RInts sample)) w1), segs.
      split; [reflexivity|]. split; [lia|].
      split; [intros h Hh; apply py_range_360_In, Hincl, Hh|].
      split; [reflexivity|]. split; [reflexivity|].
      split; [rewrite Ht; reflexivity|].
      eapply Forall2_impl; [|exact Hall].
      intros h seg (w0 & Hok & ->).
      apply sweep_mission_landed; assumption.
    + intros e He. right.
      destruct (for_each_fail _ _ _ _ He)
        as (flown & h & rest & segs & w0 & Hsplit & Hall & Hh & Ht).
      exists sample, (mk_event (RandomSample (py_range 0 360 1) 4)
                        (inr (RInts sample)) w1), flown, h, rest, segs,
        (trace (basic_auto_mission h rally_loc false 0 50 0 0) w0).
      split; [lia|]. split; [reflexivity|]. split; [reflexivity|].
      split; [exact Hsplit|].
      split.
      { eapply Forall2_impl; [|exact Hall].
        intros h' seg (w0' & Hok & ->).
        apply sweep_mission_landed; assumption. }
      split; [rewrite Ht; reflexivity|].
      split; [exists w0; split; [reflexivity | exact Hh]|].
      destruct (basic_auto_mission_failure h rally_loc false 0 50 0 0 w0 e Hh)
        as [H|(Habs & _)]; [exact H | discriminate Habs].
Qed.

End Sweep.

(** ** reset_aircraft, run twice *)

Section ResetTwice.
Context `{BL : BaselineLink}.

(** A reset that passes has made the eight calls and leaves the baseline
    state. *)
Lemma reset_aircraft_baseline (w0 : World) :
  reset_contracts ->
  result reset_aircraft w0 = inr tt ->
  calls (trace reset_aircraft w0) = reset_steps /\
  baseline_of (final reset_aircraft w0)
  = mk_baseline false "QHOVER" 1000 true true.
Proof.
  intros (Hdis & Hboot & Hfile & Hrc & Hmode & Heng & [Hw1 Hw2] & Harm).
  pattern (result reset_aircraft w0), (final reset_aircraft w0),
    (trace reset_aircraft w0).
  change (wp reset_aircraft
            (fun r w' tr => r = inr tt ->
               calls tr = reset_steps /\
               baseline_of w' = mk_baseline false "QHOVER" 1000 true true)
            w0).
  unfold reset_aircraft, reset_steps. autounfold with methods.
  repeat wp_head.
  all: intros Hr; try discriminate Hr.
  split; [reflexivity|].
  repeat match goal with
         | E : exec (DisarmVehicle _) _ = _ |- _ =>
             pose proof (Hdis _ _ _ _ E); clear E
         | E : exec RebootSitl _ = _ |- _ =>
             pose proof (Hboot _ _ _ E); clear E
         | E : exec (RepeatedlyApplyParameterFile _) _ = _ |- _ =>
             pose proof (Hfile _ _ _ _ E); clear E
         | E : exec (SetRc 3 _) _ = _ |- _ =>
             pose proof (Hrc _ _ _ _ E); clear E
         | E : exec (ChangeMode _) _ = _ |- _ =>
             pose proof (Hmode _ _ _ _ E); clear E
         | E : exec (RunCmd _ _) _ = _ |- _ =>
             pose proof (Heng _ _ _ E); clear E
         | E : exec (WaitRpm _ _ _) _ = _ |- _ =>
             pose proof (Hw1 _ _ _ E); clear E
         | E : exec WaitReadyToArm _ = _ |- _ =>
             pose proof (Hw2 _ _ _ E); pose proof (Harm _ _ _ E); clear E
         end.
  unfold read_only in *.
  repeat match goal with H : _ /\ _ |- _ => destruct H end.
  match goal with
  | H : armed ?a = false -> armed ?b = false, H0 : armed ?a = false |- _ =>
      specialize (H H0)
  end.
  unfold baseline_of. f_equal; congruence.
Qed.


End ResetTwice.

(** ** The simulated vehicle keeps the contracts of the link *)

Lemma sim_wait_disarmed : wait_disarmed_contract (VL := Sim.link).
Proof.
  intros timeout w u w' H. cbn in H. unfold Sim.respond in H.
  destruct (Sim.is_armed w) eqn:Ea.
  - destruct (Sim.land_delay w <=? _) eqn:Eb; [|discriminate H].
    injection H; intros; subst w'. split; [reflexivity|].
    intros t ->. cbn. apply Z.leb_le in Eb. lia.
  - destruct (0 <=? _) eqn:Eb; [|discriminate H].
    injection H; intros; subst w'. split; [exact Ea|].
    intros t ->. cbn. apply Z.leb_le in Eb. lia.
Qed.

Lemma sim_assert_distance : assert_distance_contract (VL := Sim.link).
Proof.
  intros l1 l2 mn mx w u w' H. cbn in H. unfold Sim.respond in H.
  destruct (Qle_bool (inject_Z mn) (Sim.distance l1 l2)) eqn:E1;
    [|discriminate H].
  destruct (Qle_bool (Sim.distance l1 l2) (inject_Z mx)) eqn:E2;
    [|discriminate H].
  apply Qle_bool_iff in E1. apply Qle_bool_iff in E2. split; assumption.
Qed.

Lemma sim_mav_location : mav_location_contract (VL := Sim.link).
Proof. intros w l w' H. cbn in H. injection H; intros; subst. reflexivity. Qed.

Lemma sim_wait_ready_to_arm : wait_ready_to_arm_contract (VL := Sim.link).
Proof.
  intros w u w' H. cbn in H. unfold Sim.respond in H.
  destruct (Sim.can_arm w) eqn:E; [|discriminate H].
  injection H; intros; subst w'. exact E.
Qed.

Lemma sim_random_sample : random_sample_contract (TS := Sim.suite).
Proof.
  intros population k w l w' H.
  lazy beta iota zeta delta [exec Sim.suite Sim.respond] in H.
  destruct (Z.of_nat (length (firstn (Z.to_nat k) (skipn 37 population)))
            =? k) eqn:E; [|discriminate H].
  injection H; intros; subst l w'. split; [apply Z.eqb_eq; exact E|].
  intros x Hx.
  rewrite <- (firstn_skipn 37 population). apply in_or_app. right.
  rewrite <- (firstn_skipn (Z.to_nat k) (skipn 37 population)).
  apply in_or_app. left. exact Hx.
Qed.

(** ** Runs on the simulated vehicle *)

(** C3, as stated, fails.  On the simulated vehicle the example scenario
    passes although the disarm comes 662 time units after the entry into
    AUTO: 400 to reach the mission leg, 60 to reach the heading and 200 to
    come down, each wait within its own limit. *)
Lemma example_scenario_disarm_after_600 :
  @result Sim.suite _ example_scenario Sim.start = inr tt /\
  ~ disarms_within_of_auto (VL := Sim.link) 600
      (@trace Sim.suite _ example_scenario Sim.start).
Proof.
  split; [vm_compute; reflexivity|]. intros H.
  pose (d := @mk_event Sim.suite MavLocation (inl (OtherException ""))
               Sim.start).
  specialize (H (nth 10 (@trace Sim.suite _ example_scenario Sim.start) d)
                (nth 16 (@trace Sim.suite _ example_scenario Sim.start) d)).
  assert (H1 : Sim.clock (ev_post (nth 16 (@trace Sim.suite _
                                             example_scenario Sim.start) d))
               - Sim.clock (ev_post (nth 10 (@trace Sim.suite _
                                               example_scenario Sim.start) d))
               = 662)
    by (vm_compute; reflexivity).
  change (@now Sim.suite Sim.link) with Sim.clock in H.
  rewrite H1 in H.
  assert (662 <= 600); [|lia].
  apply H.
  - apply nth_In. vm_compute. lia.
  - vm_compute. reflexivity.
  - apply nth_In. vm_compute. lia.
  - vm_compute. reflexivity.
Qed.

Lemma example_scenario_pass_conditions_witness :
  wait_disarmed_contract (VL := Sim.link) /\
  assert_distance_contract (VL := Sim.link) /\
  mav_location_contract (VL := Sim.link) /\
  @result Sim.suite _ example_scenario Sim.start = inr tt /\
  exists (here : location) (tr0 : list (@event Sim.suite))
         (ev_d ev_l : @event Sim.suite) (tr1 : list (@event Sim.suite))
         (w0 : Sim.state),
    @trace Sim.suite _ example_scenario Sim.start
    = (tr0 ++ ev_d :: ev_l :: tr1)%list /\
    @run_of Sim.suite Sim.start tr0 w0 /\
    In (ChangeMode "AUTO") (calls tr0) /\
    last (calls tr0) MavLocation = RunCmd MAV_CMD_DO_ENGINE_CONTROL 0 /\
    ev_call ev_d = WaitDisarmed (Some 600) /\
    Sim.is_armed (ev_post ev_d) = false /\
    Sim.clock (ev_post ev_d) - Sim.clock w0 <= 600 /\
    ev_call ev_l = MavLocation /\
    here = Sim.pos (ev_post ev_l) /\
    (0 <= Sim.distance rally_loc here <= 50)%Q.
Proof.
  split; [exact sim_wait_disarmed|].
  split; [exact sim_assert_distance|].
  split; [exact sim_mav_location|].
  split; [vm_compute; reflexivity|].
  apply (example_scenario_pass_conditions (VL := Sim.link) Sim.start
           sim_wait_disarmed sim_assert_distance sim_mav_location).
  vm_compute. reflexivity.
Defined.

(** C5, as stated, fails.  On the simulated vehicle that never reaches
    the heading, the first sub-scenario times out; [EngineOutScript] ends
    with that exception and no other sub-scenario is started. *)
Lemma heading_timeout_aborts_run :
  @result Sim.suite _ EngineOutScript Sim.never_on_heading
  = inl (AutoTestTimeoutException "Timed out waiting for heading") /\
  filter is_start_subtest
    (calls (@trace Sim.suite _ EngineOutScript Sim.never_on_heading))
  = [StartSubtest
       "Basic mission test with heading 270 and guided 36.819268, -2.871914"]
  /\
  ~ remaining_still_execute (TS := Sim.suite) Sim.never_on_heading.
Proof.
  split; [vm_compute; reflexivity|].
  assert (Hf : filter is_start_subtest
                 (calls (@trace Sim.suite _ EngineOutScript
                           Sim.never_on_heading))
               = [StartSubtest
                    "Basic mission test with heading 270 and guided 36.819268, -2.871914"])
    by (vm_compute; reflexivity).
  split; [exact Hf|].
  unfold remaining_still_execute. intros H.
  assert (Hin : In (StartSubtest "Testing prearm checks")
                  (filter is_start_subtest
                     (calls (@trace Sim.suite _ EngineOutScript
                               Sim.never_on_heading))))
    by (apply filter_In; split; [exact H | reflexivity]).
  rewrite Hf in Hin. destruct Hin as [E|[]]. discriminate E.
Qed.

Lemma sub_scenario_error_ends_run_witness :
  nth_error (sub_scenarios (TS := Sim.suite)) 0 = Some test_guided_override /\
  @result Sim.suite _ (run_before 0) Sim.never_on_heading = inr tt /\
  @result Sim.suite _ test_guided_override
    (@final Sim.suite _ (run_before 0) Sim.never_on_heading)
  = inl (AutoTestTimeoutException "Timed out waiting for heading") /\
  @result Sim.suite _ EngineOutScript Sim.never_on_heading
  = inl (AutoTestTimeoutException "Timed out waiting for heading") /\
  @final Sim.suite _ EngineOutScript Sim.never_on_heading
  = @final Sim.suite _ test_guided_override
      (@final Sim.suite _ (run_before 0) Sim.never_on_heading) /\
  @trace Sim.suite _ EngineOutScript Sim.never_on_heading
  = (@trace Sim.suite _ (run_before 0) Sim.never_on_heading
     ++ @trace Sim.suite _ test_guided_override
          (@final Sim.suite _ (run_before 0) Sim.never_on_heading))%list.
Proof.
  split; [reflexivity|].
  split; [vm_compute; reflexivity|].
  split; [vm_compute; reflexivity|].
  apply (sub_scenario_error_ends_run (TS := Sim.suite) Sim.never_on_heading
           0%nat test_guided_override
           (AutoTestTimeoutException "Timed out waiting for heading")).
  - reflexivity.
  - vm_compute. reflexivity.
  - vm_compute. reflexivity.
Defined.

Lemma heading_sweep_lands_in_band_witness :
  wait_disarmed_contract (VL := Sim.link) /\
  assert_distance_contract (VL := Sim.link) /\
  mav_location_contract (VL := Sim.link) /\
  random_sample_contract (TS := Sim.suite) /\
  @result Sim.suite _ test_random_angles Sim.start = inr tt /\
  exists (sample : list Z) (ev_s : @event Sim.suite)
         (segs : list (list (@event Sim.suite))),
    py_range 0 360 90 = [0; 90; 180; 270] /\
    length sample = 4%nat /\
    (forall h, In h sample -> 0 <= h < 360) /\
    ev_call ev_s = RandomSample (py_range 0 360 1) 4 /\
    ev_reply ev_s = inr (RInts sample) /\
    @trace Sim.suite _ test_random_angles Sim.start = ev_s :: concat segs /\
    Forall2 (landed_in_band (VL := Sim.link) rally_loc 0 50)
      ([0; 90; 180; 270] ++ sample) segs.
Proof.
  split; [exact sim_wait_disarmed|].
  split; [exact sim_assert_distance|].
  split; [exact sim_mav_location|].
  split; [exact sim_random_sample|].
  split; [vm_compute; reflexivity|].
  apply (proj1 (heading_sweep_lands_in_band (VL := Sim.link) Sim.start
                  sim_wait_disarmed sim_assert_distance sim_mav_location
                  sim_random_sample)).
  vm_compute. reflexivity.
Defined.

(** C8, as stated, fails.  On the simulated vehicle that never reaches
    the heading, the links keep their contracts and the sweep ends at its
    first run: the wait for the heading times out, no other heading is
    flown, no wait for the disarm is ever made, and the vehicle is left
    armed in AUTO. *)
Lemma heading_sweep_stops_armed :
  wait_disarmed_contract (VL := Sim.link) /\
  assert_distance_contract (VL := Sim.link) /\
  mav_location_contract (VL := Sim.link) /\
  random_sample_contract (TS := Sim.suite) /\
  @result Sim.suite _ test_random_angles Sim.never_on_heading
  = inl (AutoTestTimeoutException "Timed out waiting for heading") /\
  filter is_start_subtest
    (calls (@trace Sim.suite _ test_random_angles Sim.never_on_heading))
  = [StartSubtest
       "Basic mission test with heading 0 and rally 36.816424, -2.868918"] /\
  Sim.is_armed (@final Sim.suite _ test_random_angles Sim.never_on_heading)
  = true /\
  Sim.mode (@final Sim.suite _ test_random_angles Sim.never_on_heading)
  = "AUTO" /\
  ~ sweep_lands_every_heading (VL := Sim.link) Sim.never_on_heading.
Proof.
  split; [exact sim_wait_disarmed|].
  split; [exact sim_assert_distance|].
  split; [exact sim_mav_location|].
  split; [exact sim_random_sample|].
  split; [vm_compute; reflexivity|].
  split; [vm_compute; reflexivity|].
  split; [vm_compute; reflexivity|].
  split; [vm_compute; reflexivity|].
  intros (sample & ev_s & segs & _ & _ & Ht & Hall).
  assert (Hf : filter is_wait_disarmed
                 (calls (@trace Sim.suite _ test_random_angles
                           Sim.never_on_heading)) = [])
    by (vm_compute; reflexivity).
  cbn [app] in Hall. inversion Hall as [|h seg hs segs' Hland _ Eh Es].
  subst segs. rewrite Ht in Hf.
  destruct Hland as (here & ev_d & ev_l & _ & Hin & Hcd & _).
  assert (Hin' : In (ev_call ev_d)
                   (filter is_wait_disarmed
                      (calls (ev_s :: concat (seg :: segs'))))).
  { apply filter_In. split.
    - apply in_map. right. cbn [concat]. apply in_or_app. left. exact Hin.
    - rewrite Hcd. reflexivity. }
  rewrite Hf in Hin'. destruct Hin'.
Qed.

Lemma sim_reset_contracts : reset_contracts (BL := Sim.baseline_link).
Proof.
  split; [|split; [|split; [|split; [|split; [|split; [|split]]]]]].
  - intros force w u w' H. cbn in H. injection H; intros; subst w'.
    reflexivity.
  - intros w u w' H _. cbn in H. injection H; intros; subst w'.
    reflexivity.
  - intros path w u w' H. cbn in H. injection H; intros; subst w'.
    reflexivity.
  - intros pwm w u w' H. cbn in H. injection H; intros; subst w'.
    split; reflexivity.
  - intros m w u w' H. cbn in H. injection H; intros; subst w'.
    repeat split; reflexivity.
  - intros w u w' H. cbn in H. injection H; intros; subst w'.
    destruct (Sim.backup w) as [v|]; [destruct (Sim.restores w)|];
      repeat split; reflexivity.
  - split.
    + intros w u w' H. cbn in H. unfold Sim.respond in H.
      destruct (Sim.engine w) eqn:Ee; cbn in H; [|discriminate H].
      injection H; intros; subst w'. repeat split; reflexivity.
    + intros w u w' H. cbn in H. unfold Sim.respond in H.
      destruct (Sim.can_arm w); [|discriminate H].
      injection H; intros; subst w'. repeat split; reflexivity.
  - exact sim_wait_ready_to_arm.
Qed.


(** On the simulated vehicle the two resets leave the same parameters as
    far as the script's own comparison can tell (it ignores the boot
    counter, which each restart increments); the clock has advanced. *)
Example reset_twice_parameters_on_sim :
  let s1 := @final Sim.suite _ reset_aircraft Sim.start in
  let s2 := @final Sim.suite _ reset_aircraft s1 in
  first_failure (TS := Sim.suite) (Sim.params s1) (Sim.params s2)
    (dict_keys (Sim.params s1)) = None /\
  dict_get (Sim.params s1) "STAT_BOOTCNT" = Some 8 /\
  dict_get (Sim.params s2) "STAT_BOOTCNT" = Some 9 /\
  Sim.clock s1 = 32 /\ Sim.clock s2 = 64.
Proof. vm_compute. repeat split; reflexivity. Qed.

(** The whole of [EngineOutScript] passes on the simulated vehicle. *)
Example engine_out_script_passes_on_sim :
  @result Sim.suite _ EngineOutScript Sim.start = inr tt.
Proof. vm_compute. reflexivity. Qed.

(** ** What the script asks of the vehicle, and what it never does *)

Section OnlyCalls.
Context `{TS : TestSuite}.

Lemma only_calls_ret {A : Type} P (a : A) : only_calls P (ret a).
Proof. intros w. constructor. Qed.

Lemma only_calls_raise {A : Type} P (e : exn) : only_calls P (@raise _ A e).
Proof. intros w. constructor. Qed.

Lemma only_calls_lift {A : Type} P (r : exn + A) : only_calls P (lift r).
Proof. intros w. constructor. Qed.

Lemma only_calls_do (P : call -> Prop) (c : call) : P c -> only_calls P (do c).
Proof.
  intros H w. unfold trace, do. destruct (exec c w) as [r w1]. cbn.
  constructor; [exact H | constructor].
Qed.

Lemma only_calls_bind {A B : Type} P (m : M A) (f : A -> M B) :
  only_calls P m -> (forall a, only_calls P (f a)) -> only_calls P (bind m f).
Proof.
  intros Hm Hf w. destruct (result m w) as [e|a] eqn:Er.
  - destruct (bind_inl m f w e Er) as (_ & _ & ->). apply Hm.
  - destruct (bind_inr m f w a Er) as (_ & _ & ->).
    unfold calls. rewrite map_app. apply Forall_app. split; [apply Hm | apply Hf].
Qed.

Lemma only_calls_if {A : Type} P (b : bool) (m1 m2 : M A) :
  only_calls P m1 -> only_calls P m2 -> only_calls P (if b then m1 else m2).
Proof. destruct b; auto. Qed.

Lemma only_calls_for_each {A : Type} P (l : list A) (body : A -> M unit) :
  (forall x, only_calls P (body x)) -> only_calls P (for_each l body).
Proof.
  intros Hb. induction l as [|x l IH]; simpl.
  - apply only_calls_ret.
  - apply only_calls_bind; [apply Hb | intros _; exact IH].
Qed.

Lemma only_calls_dict_getitem P (d : dict pvalue) (p : string) :
  only_calls P (dict_getitem d p).
Proof.
  unfold dict_getitem. destruct (dict_get d p);
    [apply only_calls_ret | apply only_calls_raise].
Qed.

Lemma only_calls_impl {A : Type} (P Q : call -> Prop) (m : M A) :
  (forall c, P c -> Q c) -> only_calls P m -> only_calls Q m.
Proof. intros H Hm w. eapply Forall_impl; [exact H | apply Hm]. Qed.

End OnlyCalls.

(** The calls of a script are found by going through it; [leaf] settles the
    property at each call. *)
Ltac only_calls_tac leaf :=
  repeat first
    [ lazymatch goal with
      | |- only_calls ?P (do ?c) => refine (only_calls_do P c _); leaf
      | |- only_calls _ (ret _) => apply only_calls_ret
      | |- only_calls _ (raise _) => apply only_calls_raise
      | |- only_calls _ (lift _) => apply only_calls_lift
      | |- only_calls _ (dict_getitem _ _) => apply only_calls_dict_getitem
      | |- only_calls _ (if _ then _ else _) => apply only_calls_if
      | |- only_calls _ (for_each _ _) => apply only_calls_for_each; intros
      | |- only_calls _ (bind _ _) => apply only_calls_bind; [|intros]
      end
    | progress autounfold with methods ].

Create HintDb scripts.
#[export] Hint Unfold reset_aircraft do_guided basic_auto_mission
  print_differences assert_parameters_same install_scripts prepare_vehicle
  test_guided_override test_random_angles test_qassist_timeout
  test_qrtl_timeout test_parameters_backup_restore test_prearm_checks
  remove_scripts : scripts.

Section Whitelist.
Context `{TS : TestSuite}.

Ltac whitelisted :=
  first [ reflexivity | cbn [script_command]; apply String.eqb_refl ].

Lemma script_command_basic_auto_mission heading target is_guided mn mx qa qr :
  only_calls (fun c => script_command c = true)
    (basic_auto_mission heading target is_guided mn mx qa qr).
Proof.
  autounfold with scripts.
  only_calls_tac whitelisted.
Qed.

(** X1.  In every run of [EngineOutScript], whatever the vehicle does,
    every call the script makes passes [script_command], which lists for
    each method the arguments allowed.  By [set_parameter] the script
    writes no name other than FENCE_ENABLE, SYSID_MYGCS, ENGOUT_QAST_TIME,
    ENGOUT_QRTL_TIME and GLIDE_SPD; the one other way it writes parameters
    is the parameter file default_params/fireeye-engout.parm under
    [testdir], and it applies no other file.  It drives no RC channel
    other than 3 and only to 1000 or 1500, commands no mode other than
    QHOVER, AUTO and GUIDED, waits for no mode other than RTL, sends no
    command other than the engine control with 0 or 1, disarms only with
    force, and sends mission items only as guided waypoints. *)
Theorem engine_out_script_commands (w : World) :
  forallb script_command (calls (trace EngineOutScript w)) = true /\
  (forall name value,
     In (SetParameter name value) (calls (trace EngineOutScript w)) ->
     In name ["FENCE_ENABLE"; "SYSID_MYGCS"; "ENGOUT_QAST_TIME";
              "ENGOUT_QRTL_TIME"; "GLIDE_SPD"]) /\
  (forall path,
     In (RepeatedlyApplyParameterFile path)
        (calls (trace EngineOutScript w)) ->
     path = os_path_join testdir ["default_params/fireeye-engout.parm"]).
Proof.
  assert (H : forallb script_command (calls (trace EngineOutScript w)) = true).
  { apply forallb_forall. apply Forall_forall.
    revert w.
    change (only_calls (fun c => script_command c = true) EngineOutScript).
    unfold EngineOutScript, test_guided_override, test_random_angles,
      test_qassist_timeout, test_qrtl_timeout.
    repeat lazymatch goal with
           | |- only_calls _ (basic_auto_mission _ _ _ _ _ _ _) =>
               apply script_command_basic_auto_mission
           | |- only_calls _ (bind _ _) => apply only_calls_bind; [|intros]
           | |- only_calls _ (for_each _ _) =>
               apply only_calls_for_each; intros
           | |- only_calls _ (random_sample _ _) =>
               only_calls_tac whitelisted
           | |- only_calls _ (upload_rally_points_from_locations _) =>
               only_calls_tac whitelisted
           | |- only_calls _ _ =>
               autounfold with scripts; only_calls_tac whitelisted
           end. }
  split; [exact H|].
  rewrite forallb_forall in H. split.
  - intros name value Hin. specialize (H _ Hin). cbn [script_command] in H.
    apply existsb_exists in H as (x & Hx & Heq).
    apply String.eqb_eq in Heq. subst x. exact Hx.
  - intros path Hin. specialize (H _ Hin). cbn [script_command] in H.
    apply String.eqb_eq in H. exact H.
Qed.

End Whitelist.

(** ** do_guided and default_frame *)

Section GuidedAndFrame.
Context `{TS : TestSuite}.

(** X2.  [do_guided] sends its mission item only after the change to
    GUIDED has returned: when [change_mode] raises, [do_guided] ends with
    that exception and nothing is sent.  Otherwise the two coordinates are
    converted, latitude first, each as [int] of the double product of the
    coordinate and [1e7]: when both convert, exactly one item follows, a
    waypoint in the relative-altitude frame with [current] = 2, these two
    integers and the altitude unchanged; when one does not, [do_guided]
    raises the error of the first that fails and sends nothing, the mode
    having been changed. *)
Theorem do_guided_sends_after_mode_change (loc : location) (w : World) :
  (forall e, result (change_mode "GUIDED") w = inl e ->
     result (do_guided loc) w = inl e /\
     calls (trace (do_guided loc) w) = [ChangeMode "GUIDED"]) /\
  (result (change_mode "GUIDED") w = inr tt ->
     calls (trace (do_guided loc) w) = guided_steps loc /\
     match py_int (float_mul (float_of_Q (lat loc)) float_1e7),
           py_int (float_mul (float_of_Q (lng loc)) float_1e7) with
     | inr x, inr y =>
         calls (trace (do_guided loc) w)
         = [ ChangeMode "GUIDED";
             MissionItemIntSend 1 1 0 MAV_FRAME_GLOBAL_RELATIVE_ALT
               MAV_CMD_NAV_WAYPOINT 2 0 0 0 0 0 x y (alt loc) ]
     | inl e, _ =>
         result (do_guided loc) w = inl e /\
         calls (trace (do_guided loc) w) = [ChangeMode "GUIDED"] /\
         forallb returned (trace (do_guided loc) w) = true
     | inr _, inl e =>
         result (do_guided loc) w = inl e /\
         calls (trace (do_guided loc) w) = [ChangeMode "GUIDED"] /\
         forallb returned (trace (do_guided loc) w) = true
     end).
Proof.
  unfold do_guided, guided_steps, scaled_e7. name_conversions.
  autounfold with methods.
  unfold result, trace, bind, do, lift.
  destruct (exec (ChangeMode "GUIDED") w) as [[e'|[]] w1]; cbn.
  - split; [|discriminate]. intros e1 [= <-]. auto.
  - split; [discriminate|]. intros _.
    destruct s as [e1|x]; [cbn; auto|].
    destruct s0 as [e2|y]; [cbn; auto|].
    destruct (exec _ w1) as [r w2]. cbn. auto.
Qed.

Ltac some_inj :=
  let H := fresh "H" in
  intros H;
  apply (f_equal (fun o => match o with Some q => q | None => 0%Q end)) in H;
  cbv beta iota in H; subst.

Lemma py_int_truncates (x : float) (v : Q) :
  float_value x = Some v ->
  exists n,
    py_int x = inr n /\
    (Qabs (inject_Z n) <= Qabs v)%Q /\
    (Qabs v < Qabs (inject_Z n) + 1)%Q /\
    (0 <= v -> 0 <= inject_Z n)%Q /\
    (v <= 0 -> inject_Z n <= 0)%Q.
Proof.
  destruct x as [s|s| |s m e]; unfold float_value, py_int; try discriminate.
  - intros [= <-]. exists 0. repeat split; try reflexivity;
      try (intros _; discriminate); discriminate.
  - assert (Hp : forall p, 0 < 2 ^ Z.pos p)
      by (intros p; apply Z.pow_pos_nonneg; lia).
    destruct e as [|p|p].
    + some_inj. eexists. split; [reflexivity|].
      destruct s; unfold Qle, Qlt, Qabs, Qplus, Qopp, inject_Z, Qnum, Qden;
        repeat split; lia.
    + some_inj. eexists. split; [reflexivity|].
      specialize (Hp p).
      assert (Ha : 0 < Z.pos m * 2 ^ Z.pos p)
        by (apply Z.mul_pos_pos; [lia | exact Hp]).
      revert Ha. generalize (Z.pos m * 2 ^ Z.pos p). intros a Ha.
      destruct s; unfold Qle, Qlt, Qabs, Qplus, Qopp, inject_Z, Qnum, Qden;
        repeat split; lia.
    + some_inj. eexists. split; [reflexivity|].
      specialize (Hp p).
      pose proof (Z.mul_div_le (Z.pos m) (2 ^ Z.pos p) Hp) as H1.
      pose proof (Z.mul_succ_div_gt (Z.pos m) (2 ^ Z.pos p) Hp) as H2.
      assert (Ha : 0 <= Z.pos m / 2 ^ Z.pos p)
        by (apply Z.div_pos; [lia | exact Hp]).
      revert H1 H2 Ha. generalize (Z.pos m / 2 ^ Z.pos p). intros a H1 H2 Ha.
      assert (Hd : Z.pos (2 ^ p) = 2 ^ Z.pos p) by apply Pos2Z.inj_pow.
      destruct s; unfold Qle, Qlt, Qabs, Qplus, Qopp, inject_Z, Qnum, Qden;
        rewrite Hd; revert Hp H1 H2; generalize (2 ^ Z.pos p);
        intros P Hp H1 H2; repeat split; nia.
Qed.

(** X3.  The coordinates [do_guided] sends are [int(x * 1e7)] computed on
    doubles.  [int] cuts a finite float towards zero: the integer is never
    larger in magnitude than the float, less than one short of it, and on
    the same side of zero; an infinity or a NaN raises.  What reaches
    [int] is the double product, not the decimal one: for the guided
    target of the script both products are exact and the item carries
    368192676 and -28719136, while the longitude -2.8512096 of the start
    location would be sent as -28512095, one unit short of its seven
    decimals. *)
Theorem do_guided_coordinates :
  (forall x v, float_value x = Some v ->
     exists n,
       py_int x = inr n /\
       (Qabs (inject_Z n) <= Qabs v)%Q /\
       (Qabs v < Qabs (inject_Z n) + 1)%Q /\
       (0 <= v -> 0 <= inject_Z n)%Q /\
       (v <= 0 -> inject_Z n <= 0)%Q) /\
  (forall x, float_value x = None -> exists e, py_int x = inl e) /\
  guided_steps guided_loc
  = [ ChangeMode "GUIDED";
      MissionItemIntSend 1 1 0 MAV_FRAME_GLOBAL_RELATIVE_ALT
        MAV_CMD_NAV_WAYPOINT 2 0 0 0 0 0 368192676 (-28719136) 5000 ] /\
  scaled_e7 (lng SITL_START_LOCATION) = inr (-28512095) /\
  float_value
    (float_mul (float_of_Q (lng SITL_START_LOCATION)) float_1e7)
  = Some (Qmake (-7653657491275775) 268435456).
Proof.
  split; [exact py_int_truncates|].
  split.
  { intros x. destruct x; cbn [float_value py_int];
      try discriminate; eauto. }
  split; [vm_compute; reflexivity|].
  split; vm_compute; reflexivity.
Qed.

End GuidedAndFrame.

(** X4.  [default_frame] raises [KeyError] exactly when the environment has
    no [wslhost]; otherwise the frame is "flightaxis_autotest:" followed by
    the host, so two environments give the same frame only for the same
    host. *)
Theorem default_frame_needs_wslhost (environ : dict string) :
  (dict_get environ "wslhost" = None <->
   default_frame environ = inl (KeyError "wslhost")) /\
  (forall f, default_frame environ = inr f ->
     exists host, dict_get environ "wslhost" = Some host /\
                  f = "flightaxis_autotest:" ++ host /\
                  forall environ' , default_frame environ' = inr f ->
                                    dict_get environ' "wslhost" = Some host).
Proof.
  unfold default_frame. split.
  - destruct (dict_get environ "wslhost"); split; intros H;
      try discriminate H; reflexivity.
  - intros f H. destruct (dict_get environ "wslhost") as [host|];
      [|discriminate H].
    injection H as <-. exists host. repeat split.
    intros environ' H'.
    destruct (dict_get environ' "wslhost") as [host'|]; [|discriminate H'].
    injection H' as H'. rewrite H'. reflexivity.
Qed.

(** ** The timeout overrides of basic_auto_mission *)

Section TimeoutOverrides.
Context `{TS : TestSuite}.

Lemma truthy_true (z : Z) : truthy z = true <-> z <> 0.
Proof.
  unfold truthy. destruct (Z.eqb_spec z 0); split; intros H;
    try reflexivity; try discriminate H; congruence.
Qed.

Lemma truthy_false (z : Z) : truthy z = false <-> z = 0.
Proof.
  unfold truthy. destruct (Z.eqb_spec z 0); split; intros H;
    try reflexivity; try discriminate H; congruence.
Qed.

Lemma mission_steps_text_counts heading target is_guided mn mx qa qr here :
  let steps := mission_steps heading target is_guided mn mx qa qr here in
  length (filter (is_wait_text assist_text) steps)
  = (if truthy qa then 1 else 0)%nat /\
  length (filter (is_wait_text rtl_text) steps)
  = (if truthy qa then 0 else if truthy qr then 1 else 0)%nat.
Proof.
  unfold mission_steps, mission_steps_in_flight, mission_steps_landing,
    reset_steps, guided_steps.
  generalize (subtest_message heading target is_guided qa qr) as msg.
  intros msg.
  destruct is_guided, (truthy qa), (truthy qr),
    (scaled_e7 (lat target)), (scaled_e7 (lng target));
    cbv; split; reflexivity.
Qed.

(** X5.  The two timeout waits of [basic_auto_mission] are an if/elif with
    the assist timeout first.  With a nonzero assist timeout the RTL text
    is never awaited, whatever the RTL timeout; with a zero assist timeout
    the assist text is never awaited; with a zero RTL timeout the RTL text
    is never awaited.  A run that passes has awaited the assist text once
    when the assist timeout is nonzero, and the RTL text once when only the
    RTL timeout is. *)
Theorem timeout_wait_assist_first heading target is_guided mn mx qa qr w :
  let m := basic_auto_mission heading target is_guided mn mx qa qr in
  (qa <> 0 -> count_calls (is_wait_text rtl_text) (trace m w) = 0%nat) /\
  (qa = 0 -> count_calls (is_wait_text assist_text) (trace m w) = 0%nat) /\
  (qr = 0 -> count_calls (is_wait_text rtl_text) (trace m w) = 0%nat) /\
  (result m w = inr tt -> qa <> 0 ->
     count_calls (is_wait_text assist_text) (trace m w) = 1%nat) /\
  (result m w = inr tt -> qa = 0 -> qr <> 0 ->
     count_calls (is_wait_text rtl_text) (trace m w) = 1%nat).
Proof.
  intros m. subst m. unfold count_calls.
  destruct (basic_auto_mission_steps heading target is_guided mn mx qa qr w)
    as (here & Hp & Hok).
  pose proof (is_prefix_filter_length (is_wait_text assist_text) _ _ Hp) as Ha.
  pose proof (is_prefix_filter_length (is_wait_text rtl_text) _ _ Hp) as Hr.
  destruct (mission_steps_text_counts heading target is_guided mn mx qa qr
              here) as [Ca Cr].
  cbv zeta in Ca, Cr. rewrite Ca in Ha. rewrite Cr in Hr.
  assert (Heq : result (basic_auto_mission heading target is_guided
                          mn mx qa qr) w = inr tt ->
                calls (trace (basic_auto_mission heading target is_guided
                                mn mx qa qr) w)
                = mission_steps heading target is_guided mn mx qa qr here).
  { intros H. rewrite calls_labels, (Hok H). apply map_fst_passed. }
  repeat split.
  - intros H. apply truthy_true in H. rewrite H in Hr. lia.
  - intros H. apply truthy_false in H. rewrite H in Ha. lia.
  - intros H. apply truthy_false in H. rewrite H in Hr.
    destruct (truthy qa); lia.
  - intros Hres H. apply truthy_true in H.
    rewrite (Heq Hres), Ca, H. reflexivity.
  - intros Hres H1 H2. apply truthy_false in H1. apply truthy_true in H2.
    rewrite (Heq Hres), Cr, H1, H2. reflexivity.
Qed.

(** X6.  With both timeouts nonzero the message and the wait disagree: the
    subtest is announced as the QRTL timeout test (the second [if] on the
    message overrides the first), both parameters are set, and a run that
    passes has awaited the Q_ASSIST text and not the QRTL one. *)
Theorem both_timeouts_label_and_wait heading target is_guided mn mx qa qr w :
  qa <> 0 -> qr <> 0 ->
  let m := basic_auto_mission heading target is_guided mn mx qa qr in
  subtest_message heading target is_guided qa qr
  = "Testing that the QRTL timeout works" /\
  (result m w = inr tt ->
     opened (calls (trace m w)) = ["Testing that the QRTL timeout works"] /\
     In (SetParameter "ENGOUT_QAST_TIME" qa) (calls (trace m w)) /\
     In (SetParameter "ENGOUT_QRTL_TIME" qr) (calls (trace m w)) /\
     In (WaitText "Q_ASSIST for too long") (calls (trace m w)) /\
     ~ In (WaitText "QRTL for too long") (calls (trace m w))).
Proof.
  intros Ha Hr m. subst m.
  apply truthy_true in Ha. apply truthy_true in Hr.
  assert (Hmsg : subtest_message heading target is_guided qa qr
                 = "Testing that the QRTL timeout works")
    by (unfold subtest_message; rewrite Hr; reflexivity).
  split; [exact Hmsg|]. intros Hres.
  destruct (basic_auto_mission_steps heading target is_guided mn mx qa qr w)
    as (here & _ & Hok).
  rewrite calls_labels, (Hok Hres), map_fst_passed.
  unfold mission_steps, mission_steps_in_flight, mission_steps_landing,
    reset_steps, guided_steps.
  rewrite Hmsg, Ha, Hr.
  destruct is_guided, (scaled_e7 (lat target)), (scaled_e7 (lng target));
    cbn [app opened closed flat_map];
    (split; [reflexivity|]);
    (split; [simpl; tauto|]); (split; [simpl; tauto|]);
    (split; [simpl; tauto|]);
    simpl; intuition discriminate.
Qed.

End TimeoutOverrides.

Lemma both_timeouts_label_and_wait_witness :
  (1 <> 0) /\ (5 <> 0) /\
  subtest_message (TS := Sim.suite) 270 rally_loc false 1 5
  = "Testing that the QRTL timeout works" /\
  (@result Sim.suite _ (basic_auto_mission 270 rally_loc false 0 300 1 5)
     Sim.start = inr tt ->
   opened (calls (@trace Sim.suite _
                    (basic_auto_mission 270 rally_loc false 0 300 1 5)
                    Sim.start))
   = ["Testing that the QRTL timeout works"] /\
   In (SetParameter "ENGOUT_QAST_TIME" 1)
     (calls (@trace Sim.suite _
               (basic_auto_mission 270 rally_loc false 0 300 1 5) Sim.start))
   /\
   In (SetParameter "ENGOUT_QRTL_TIME" 5)
     (calls (@trace Sim.suite _
               (basic_auto_mission 270 rally_loc false 0 300 1 5) Sim.start))
   /\
   In (WaitText "Q_ASSIST for too long")
     (calls (@trace Sim.suite _
               (basic_auto_mission 270 rally_loc false 0 300 1 5) Sim.start))
   /\
   ~ In (WaitText "QRTL for too long")
       (calls (@trace Sim.suite _
                 (basic_auto_mission 270 rally_loc false 0 300 1 5)
                 Sim.start))).
Proof.
  split; [lia|]. split; [lia|].
  apply (both_timeouts_label_and_wait (TS := Sim.suite) 270 rally_loc false
           0 300 1 5 Sim.start); lia.
Defined.

Example both_timeouts_pass_on_sim :
  @result Sim.suite _ (basic_auto_mission 270 rally_loc false 0 300 1 5)
    Sim.start = inr tt.
Proof. vm_compute. reflexivity. Qed.

(** ** Subtests are started and ended in pairs *)

Section Brackets.
Context `{TS : TestSuite}.

Lemma opened_app l1 l2 : opened (l1 ++ l2) = (opened l1 ++ opened l2)%list.
Proof. apply flat_map_app. Qed.

Lemma closed_app l1 l2 : closed (l1 ++ l2) = (closed l1 ++ closed l2)%list.
Proof. apply flat_map_app. Qed.

Lemma no_marker_quiet l :
  Forall no_marker l -> opened l = [] /\ closed l = [].
Proof.
  induction 1 as [|c l Hc _ [IH1 IH2]]; [split; reflexivity|].
  unfold opened, closed in *. cbn [flat_map]. rewrite IH1, IH2.
  destruct c; try contradiction; split; reflexivity.
Qed.

Lemma calls_app (t1 t2 : list event) :
  calls (t1 ++ t2) = (calls t1 ++ calls t2)%list.
Proof. apply map_app. Qed.

Lemma brackets_quiet {A : Type} (m : M A) :
  only_calls no_marker m -> brackets m.
Proof.
  intros H w. destruct (no_marker_quiet _ (H w)) as [Ho Hc].
  unfold subtests_balanced. rewrite Ho, Hc.
  destruct (result m w); [left|]; reflexivity.
Qed.

Lemma brackets_bind {A B : Type} (m : M A) (f : A -> M B) :
  brackets m -> (forall a, brackets (f a)) -> brackets (bind m f).
Proof.
  intros Hm Hf w. specialize (Hm w).
  destruct (result m w) as [e|a] eqn:Er.
  - destruct (bind_inl m f w e Er) as (-> & _ & ->). exact Hm.
  - destruct (bind_inr m f w a Er) as (-> & _ & ->).
    specialize (Hf a (final m w)). cbn in Hm.
    rewrite calls_app. unfold subtests_balanced in *.
    rewrite opened_app, closed_app, Hm.
    destruct (result (f a) (final m w)).
    + destruct Hf as [Hf | [msg Hf]].
      * left. rewrite Hf. reflexivity.
      * right. exists msg. rewrite Hf, app_assoc. reflexivity.
    + rewrite Hf. reflexivity.
Qed.

Lemma brackets_for_each {A : Type} (l : list A) (body : A -> M unit) :
  (forall x, brackets (body x)) -> brackets (for_each l body).
Proof.
  intros Hb. induction l as [|x l IH]; simpl.
  - intros w. reflexivity.
  - apply brackets_bind; [apply Hb | intros _; exact IH].
Qed.

Lemma closes_with_end msg : closes_with msg (end_subtest msg).
Proof.
  intros w. unfold end_subtest, trace, result, do.
  destruct (exec (EndSubtest msg) w) as [r w1]. cbn. auto.
Qed.

Lemma closes_with_bind {A B : Type} msg (m : M A) (f : A -> M B) :
  only_calls no_marker m -> (forall a, closes_with msg (f a)) ->
  closes_with msg (bind m f).
Proof.
  intros Hm Hf w. destruct (no_marker_quiet _ (Hm w)) as [Ho Hc].
  destruct (result m w) as [e|a] eqn:Er.
  - destruct (bind_inl m f w e Er) as (-> & _ & ->).
    split; [exact Ho|]. split; [left; exact Hc | discriminate].
  - destruct (bind_inr m f w a Er) as (-> & _ & ->).
    destruct (Hf a (final m w)) as (Fo & Fc & Fr).
    rewrite calls_app, opened_app, closed_app, Ho, Hc, Fo. cbn [app].
    auto.
Qed.

Lemma brackets_start {B : Type} msg (k : M B) :
  closes_with msg k -> brackets (bind (start_subtest msg) (fun _ => k)).
Proof.
  intros Hk w. unfold brackets, subtests_balanced, start_subtest.
  unfold result, trace, bind, do.
  destruct (exec (StartSubtest msg) w) as [[e|[]] w1]; cbn.
  - right. exists msg. reflexivity.
  - destruct (Hk w1) as (Ho & Hc & Hr). unfold result, trace in *.
    destruct (k w1) as [[r w2] t2]. cbn in *.
    unfold opened, closed in *. cbn [flat_map]. rewrite Ho.
    destruct r as [e|b].
    + destruct Hc as [-> | ->]; [right; exists msg|left]; reflexivity.
    + rewrite (Hr b eq_refl). reflexivity.
Qed.

Ltac closes_tac :=
  repeat first
    [ apply closes_with_end
    | apply closes_with_bind; [only_calls_tac ltac:(exact I) | intros] ].

Lemma brackets_basic_auto_mission heading target is_guided mn mx qa qr :
  brackets (basic_auto_mission heading target is_guided mn mx qa qr).
Proof.
  unfold basic_auto_mission. apply brackets_start.
  unfold reset_aircraft, do_guided. closes_tac.
Qed.

Lemma brackets_test_parameters_backup_restore :
  brackets test_parameters_backup_restore.
Proof.
  unfold test_parameters_backup_restore. apply brackets_start.
  unfold reset_aircraft, print_differences, assert_parameters_same.
  closes_tac.
Qed.

Lemma brackets_test_prearm_checks : brackets test_prearm_checks.
Proof.
  unfold test_prearm_checks. apply brackets_start.
  unfold reset_aircraft. closes_tac.
Qed.

(** X7.  In every run of [EngineOutScript] the subtests are started and
    ended in pairs: in a run that passes every [start_subtest] has its
    [end_subtest] with the same message, in the same order; a run that
    fails has at most one subtest left open, the one that was running. *)
Theorem engine_out_script_subtests_balanced (w : World) :
  subtests_balanced (result EngineOutScript w)
    (calls (trace EngineOutScript w)).
Proof.
  revert w. change (brackets EngineOutScript). unfold EngineOutScript.
  apply brackets_bind; [|intros _].
  { apply brackets_quiet. unfold install_scripts.
    only_calls_tac ltac:(exact I). }
  apply brackets_bind; [|intros _].
  { apply brackets_quiet. unfold prepare_vehicle.
    only_calls_tac ltac:(exact I). }
  apply brackets_bind; [|intros _].
  { unfold test_guided_override. apply brackets_bind.
    - apply brackets_quiet. only_calls_tac ltac:(exact I).
    - intros _. apply brackets_basic_auto_mission. }
  apply brackets_bind; [|intros _].
  { unfold test_random_angles. apply brackets_bind.
    - apply brackets_quiet. only_calls_tac ltac:(exact I).
    - intros sample. apply brackets_for_each. intros h.
      apply brackets_basic_auto_mission. }
  apply brackets_bind; [apply brackets_basic_auto_mission | intros _].
  apply brackets_bind; [apply brackets_basic_auto_mission | intros _].
  apply brackets_bind;
    [apply brackets_test_parameters_backup_restore | intros _].
  apply brackets_bind; [apply brackets_test_prearm_checks | intros _].
  apply brackets_quiet. unfold remove_scripts.
  only_calls_tac ltac:(exact I).
Qed.

End Brackets.

(** ** The informational comparison *)

Section PrintDifferences.
Context `{TS : TestSuite}.

Lemma print_body_run params_before params_after p w :
  print_body params_before params_after p w
  = match compare_at params_before params_after p with
    | Same => (inr tt, w, [])
    | Differs a b => do (Progress (changed_message p a b)) w
    | Missing => (inl (KeyError p), w, [])
    end.
Proof.
  unfold print_body, compare_at, dict_getitem, bind, ret, raise, progress.
  destruct (ignored p); [reflexivity|].
  destruct (dict_get params_before p) as [a|]; [|reflexivity].
  destruct (dict_get params_after p) as [b|]; [|reflexivity].
  destruct (py_ne a b); [|reflexivity].
  destruct (do (Progress (changed_message p a b)) w) as [[[e|[]] w1] t1];
    reflexivity.
Qed.

Lemma print_differences_loop params_before params_after w :
  print_differences params_before params_after w
  = for_each (dict_keys params_before)
      (print_body params_before params_after) w.
Proof. reflexivity. Qed.

Lemma for_each_cons_run {A : Type} (body : A -> M unit) x l w :
  for_each (x :: l) body w
  = match body x w with
    | (inl e, w1, t1) => (inl e, w1, t1)
    | (inr _, w1, t1) =>
        match for_each l body w1 with
        | (r, w2, t2) => (r, w2, (t1 ++ t2)%list)
        end
    end.
Proof. reflexivity. Qed.

Lemma print_loop_run params_before params_after ps w :
  let m := for_each ps (print_body params_before params_after) in
  is_prefix (calls (trace m w)) (diff_calls params_before params_after ps) /\
  (result m w = inr tt ->
     calls (trace m w) = diff_calls params_before params_after ps /\
     forall p, In p ps ->
       compare_at params_before params_after p <> Missing) /\
  (forall e, result m w = inl e ->
     (exists tr0 ev, trace m w = (tr0 ++ [ev])%list /\ ev_reply ev = inl e) \/
     (exists p, e = KeyError p /\ In p ps /\
                compare_at params_before params_after p = Missing)) /\
  (first_failure params_before params_after ps = None ->
     result m w = inr tt /\ trace m w = []).
Proof.
  cbv zeta. revert w. induction ps as [|p ps IH]; intros w.
  - unfold result, trace. cbn [for_each ret fst snd calls map diff_calls].
    split; [apply is_prefix_refl|]. split; [intros _; split; [reflexivity|]|].
    { intros p []. }
    split; [discriminate | auto].
  - unfold result, trace. rewrite for_each_cons_run, print_body_run.
    cbn [diff_calls first_failure].
    destruct (compare_at params_before params_after p) as [|a b|] eqn:Ec.
    + specialize (IH w). unfold result, trace in IH.
      destruct (for_each ps (print_body params_before params_after) w)
        as [[r w2] t2].
      cbn [fst snd app] in *.
      destruct IH as (I1 & I2 & I3 & I4).
      split; [exact I1|]. split; [|split].
      * intros Hr. destruct (I2 Hr) as [J1 J2]. split; [exact J1|].
        intros q [<-|Hq]; [congruence | auto].
      * intros e He. destruct (I3 e He) as [H|(q & Hq1 & Hq2 & Hq3)];
          [left; exact H | right; exists q; simpl; auto].
      * exact I4.
    + unfold do. destruct (exec (Progress (changed_message p a b)) w)
        as [[e|[]] w1].
      * cbn [fst snd calls map ev_call].
        split; [eexists; reflexivity|]. split; [discriminate|].
        split; [|discriminate].
        intros e' [= <-]. left. eexists [], _. split; reflexivity.
      * specialize (IH w1). unfold result, trace in IH.
        destruct (for_each ps (print_body params_before params_after) w1)
          as [[r w2] t2].
        cbn [fst snd app calls map ev_call reply_of to_reply] in *.
        destruct IH as (I1 & I2 & I3 & _).
        split.
        { destruct I1 as [k Hk]. exists k. rewrite Hk. reflexivity. }
        split; [|split; [|discriminate]].
        -- intros Hr. destruct (I2 Hr) as [J1 J2].
           split; [rewrite J1; reflexivity|].
           intros q [<-|Hq]; [congruence | auto].
        -- intros e He.
           destruct (I3 e He) as [(tr0 & ev & Ht & Hev)|(q & Hq1 & Hq2 & Hq3)].
           ++ left. eexists (_ :: tr0), ev. rewrite Ht. split; [reflexivity|].
              exact Hev.
           ++ right. exists q. simpl. auto.
    + cbn [fst snd calls map].
      split; [eexists; reflexivity|]. split; [discriminate|].
      split; [|discriminate].
      intros e [= <-]. right. exists p. simpl. auto.
Qed.

(** X8.  [print_differences] only logs: it calls [progress] once for each
    name of the first download that is not ignored and whose value differs
    in the second, in the order of the first download, and nothing else.
    It never raises [ValueError] itself; it fails only when [progress]
    raises or, with [KeyError], at a name that is not ignored and missing
    from the second download.  When the strict comparison of
    [assert_parameters_same] would pass on the same two downloads it logs
    nothing and returns. *)
Theorem print_differences_logs params_before params_after w :
  let m := print_differences params_before params_after in
  let ps := dict_keys params_before in
  is_prefix (calls (trace m w)) (diff_calls params_before params_after ps) /\
  (result m w = inr tt ->
     calls (trace m w) = diff_calls params_before params_after ps /\
     forall p, In p ps ->
       compare_at params_before params_after p <> Missing) /\
  (forall e, result m w = inl e ->
     (exists tr0 ev, trace m w = (tr0 ++ [ev])%list /\ ev_reply ev = inl e) \/
     (exists p, e = KeyError p /\ In p ps /\
                compare_at params_before params_after p = Missing)) /\
  (first_failure params_before params_after ps = None ->
     result m w = inr tt /\ trace m w = []).
Proof.
  exact (print_loop_run params_before params_after
           (dict_keys params_before) w).
Qed.

End PrintDifferences.

(** ** The order of the parameter sub-scenario *)

Section RestoreOrder.
Context `{TS : TestSuite}.

Lemma plain_print_differences params_before params_after :
  plain (print_differences params_before params_after).
Proof. unfold print_differences. plain_tac. Qed.

Lemma wp_print_differences_bind_calls {B : Type} params_before params_after
    (f : unit -> M B) Q w :
  (forall (r : exn + unit) w1 t1,
      downloads t1 = [] ->
      (r = inr tt ->
       calls t1
       = diff_calls params_before params_after (dict_keys params_before)) ->
      (r = inr tt -> forallb returned t1 = true) ->
      match r with
      | inl e => Q (inl e) w1 t1
      | inr _ => wp (f tt) (fun r2 w2 t2 => Q r2 w2 (t1 ++ t2)%list) w1
      end) ->
  wp (bind (print_differences params_before params_after) f) Q w.
Proof.
  intros H. apply wp_bind. unfold wp at 1.
  pose proof (print_differences_trace params_before params_after w) as Hp.
  destruct (print_loop_run params_before params_after
              (dict_keys params_before) w) as (_ & Hok & _).
  destruct (plain_print_differences params_before params_after w) as [_ Hu].
  specialize (H (result (print_differences params_before params_after) w)
                (final (print_differences params_before params_after) w)
                _ (downloads_progress _ Hp)
                (fun Hr => proj1 (Hok Hr))
                (fun Hr => uncaught_all_returned _ _ Hu
                             (ex_intro _ tt Hr))).
  destruct (result (print_differences params_before params_after) w) as [e|[]];
    exact H.
Qed.

Ltac wp_order :=
  first
    [ wp_head
    | lazymatch goal with
      | |- wp (bind (print_differences ?a ?b) ?f) ?Q ?w =>
          let Hd := fresh "Hd" in
          let Hc := fresh "Hc" in
          let Hret := fresh "Hret" in
          apply (wp_print_differences_bind_calls a b f Q w);
          intros [?e|[]] ?w ?t Hd Hc Hret;
          [| specialize (Hc eq_refl); specialize (Hret eq_refl)]
      | |- wp (bind (assert_parameters_same ?a ?b) ?f) ?Q ?w =>
          let F := fresh "F" in
          apply (wp_assert_parameters_same_bind a b f Q w);
          destruct (first_failure a b (dict_keys a)) eqn:F
      end ].

Lemma plain_test_parameters_backup_restore :
  plain test_parameters_backup_restore.
Proof.
  unfold test_parameters_backup_restore, print_differences,
    assert_parameters_same.
  plain_tac.
Qed.

(** Where the three downloads of the sub-scenario stand among its calls. *)
Lemma test_parameters_backup_restore_order (w : World) :
  wp test_parameters_backup_restore
    (fun r _ tr =>
       forall pb p2 p3,
         downloads tr = [pb; p2; p3] ->
         exists s1 s2 s3 rest,
           calls tr = (params_steps_to_third s1 s2 s3 pb p2 ++ rest)%list /\
           is_prefix rest params_closing_steps /\
           (r = inr tt -> rest = params_closing_steps) /\
           (forall e, first_failure pb p3 (dict_keys pb) = Some e ->
              rest = [] /\ forallb returned tr = true /\ r = inl e)) w.
Proof.
  unfold test_parameters_backup_restore, reset_aircraft.
  autounfold with methods. repeat wp_order.
  all: intros pb p2 p3 Hdl.
  all: rewrite ?downloads_cons, ?downloads_app, ?downloads_cons in Hdl;
       cbn [ev_call ev_reply to_reply app] in Hdl;
       try match goal with Hd : downloads _ = [] |- _ =>
             rewrite ?Hd in Hdl end;
       cbn [app downloads flat_map] in Hdl.
  all: first [ discriminate Hdl | injection Hdl as <- <- <- ].
  all: do 4 eexists.
  all: split;
    [ unfold params_steps_to_third, reset_steps, calls;
      cbn [map ev_call]; rewrite ?map_app; cbn [map ev_call];
      match goal with Hc : calls _ = _ |- _ =>
        unfold calls in Hc; rewrite Hc end;
      rewrite <- ?app_assoc; cbn [app]; reflexivity
    | ].
  all: split; [eexists; reflexivity|].
  all: split;
    [ intros Hr; first [discriminate Hr | reflexivity] |].
  all: match goal with F : first_failure _ _ _ = _ |- _ => rewrite F end;
    intros e' He';
    first
      [ discriminate He'
      | injection He' as <-;
        split; [reflexivity|]; split; [|reflexivity];
        cbn [forallb returned ev_reply andb];
        rewrite forallb_app;
        match goal with Hret : forallb returned _ = true |- _ =>
          rewrite Hret end;
        reflexivity ].
Qed.

(** C2.  In the parameter-integrity sub-scenario the third download is
    compared with the first.  Whenever a run has made three downloads, its
    calls up to the third one are: the reset and the first download, then
    AUTO, the arming, the throttle and the wait for waypoint 4, only then
    the engine stop, the wait for "Engine out", the delay and the second
    download, what the informational comparison logs, and then the engine
    start, the wait for "Engine running", the delay and the third
    download; so the first download precedes the engine failure and the
    third is taken after the engine was restored and "Engine running" was
    awaited.  A run passes only if every name of the first download that
    no ignore prefix matches has, under [!=], the same value in the third,
    and then it goes on to the forced disarm, the wait for disarm and the
    end of the subtest.  If one has not (or is missing there), the run
    ends right at the comparison with a raised [ValueError] or
    [KeyError]: no call follows the third download, no message is logged,
    and every call of the run had returned.  In every run each call but
    the last has returned, so a third download was preceded by an engine
    start and a wait for "Engine running" that returned. *)
Theorem parameters_restored_or_raise (w : World) :
  let m := test_parameters_backup_restore in
  (result m w = inr tt ->
     exists pb p2 p3,
       downloads (trace m w) = [pb; p2; p3] /\ restored pb p3) /\
  (forall pb p2 p3,
     downloads (trace m w) = [pb; p2; p3] ->
     exists s1 s2 s3 rest,
       calls (trace m w)
       = (params_steps_to_third s1 s2 s3 pb p2 ++ rest)%list /\
       is_prefix rest params_closing_steps /\
       (result m w = inr tt ->
          rest = params_closing_steps /\
          forallb returned (trace m w) = true) /\
       (~ restored pb p3 ->
          rest = [] /\
          forallb returned (trace m w) = true /\
          exists e,
            result m w = inl e /\
            ((exists msg, e = ValueError msg) \/ (exists k, e = KeyError k)))) /\
  (forall tr0 ev tr1,
     trace m w = (tr0 ++ ev :: tr1)%list -> forallb returned tr0 = true).
Proof.
  intros m. destruct (test_parameters_backup_restore_run w) as [Hok _].
  split; [|split].
  - intros Hr. destruct (Hok Hr) as (pb & p2 & p3 & Hd & Hf).
    exists pb, p2, p3. split; [exact Hd|]. apply restored_iff. exact Hf.
  - intros pb p2 p3 Hd.
    destruct (test_parameters_backup_restore_order w pb p2 p3 Hd)
      as (s1 & s2 & s3 & rest & Hc & Hp & Hpass & Hfail).
    exists s1, s2, s3, rest.
    split; [exact Hc|]. split; [exact Hp|]. split.
    + intros Hr. split; [exact (Hpass Hr)|].
      destruct (plain_test_parameters_backup_restore w) as [_ Hu].
      eapply uncaught_all_returned; [exact Hu | eauto].
    + intros Hn.
      destruct (first_failure pb p3 (dict_keys pb)) as [e|] eqn:F.
      * destruct (Hfail e eq_refl) as (H1 & H2 & H3).
        split; [exact H1|]. split; [exact H2|].
        exists e. split; [exact H3|]. eapply first_failure_kind. exact F.
      * exfalso. apply Hn. apply restored_iff. exact F.
  - intros tr0 ev tr1 Ht.
    destruct (plain_test_parameters_backup_restore w) as [_ Hu].
    subst m. rewrite Ht in Hu. eapply uncaught_before_returned; exact Hu.
Qed.

End RestoreOrder.

(** ** The setup of EngineOutScript and the removal of the scripts *)

Section Setup.
Context `{TS : TestSuite}.

Lemma install_scripts_run (w : World) :
  wp install_scripts
    (fun r _ tr =>
       exists r1 r2 there r3,
         is_prefix (calls tr) (install_steps r1 r2 there r3) /\
         (r = inr tt ->
            calls tr = install_steps r1 r2 there r3 /\
            replies tr = [RStr r1; RStr r2; RBool there; RStr r3])) w.
Proof.
  unfold install_scripts, install_steps. autounfold with methods.
  repeat (wp_head;
          try match goal with b : bool |- _ => destruct b; cbn [negb] end).
  all: cbn [calls map app ev_call ev_reply replies flat_map to_reply].
  all: eexists; eexists; (exists true + exists false); eexists;
       (split;
        [ eexists; cbn [app]; reflexivity
        | intros Hr; first [discriminate Hr | split; reflexivity] ]).
  Unshelve. all: exact "".
Qed.

Lemma prepare_vehicle_run (w : World) :
  wp prepare_vehicle
    (fun r _ tr =>
       exists gcs,
         is_prefix (calls tr) (prepare_steps gcs) /\
         (r = inr tt ->
            calls tr = prepare_steps gcs /\ replies tr = [RInt gcs])) w.
Proof.
  unfold prepare_vehicle, prepare_steps. autounfold with methods.
  repeat wp_head.
  all: cbn [calls map app ev_call ev_reply replies flat_map to_reply].
  all: eexists;
       (split;
        [ eexists; cbn [app]; reflexivity
        | intros Hr; first [discriminate Hr | split; reflexivity] ]).
  Unshelve. all: exact 0.
Qed.

Lemma plain_install_scripts : plain install_scripts.
Proof. unfold install_scripts. plain_tac. Qed.

Lemma fails_by_call_install_scripts : fails_by_call install_scripts.
Proof. unfold install_scripts. fails_by_call_tac. Qed.

(** In every run of [install_scripts], passing or not, the replies so far
    are those the steps were built from, and [os.mkdir] is called for a
    directory exactly when [os.path.exists] returned False for it. *)
Lemma install_scripts_mkdir (w : World) :
  wp install_scripts
    (fun r _ tr =>
       exists r1 r2 there r3,
         is_prefix (calls tr) (install_steps r1 r2 there r3) /\
         is_prefix (replies tr) [RStr r1; RStr r2; RBool there; RStr r3] /\
         (r = inr tt ->
            calls tr = install_steps r1 r2 there r3 /\
            replies tr = [RStr r1; RStr r2; RBool there; RStr r3]) /\
         (forall d,
            In (OsMkdir d) (calls tr) <->
            In (OsPathExists d, inr (RBool false)) (labels tr))) w.
Proof.
  unfold install_scripts, install_steps. autounfold with methods.
  repeat (wp_head;
          try match goal with b : bool |- _ => destruct b; cbn [negb] end).
  all: cbn [calls labels map app ev_call ev_reply replies flat_map to_reply].
  all: eexists; eexists; (exists true + exists false); eexists;
       (split; [eexists; cbn [app]; reflexivity|]);
       (split; [eexists; cbn [app]; reflexivity|]);
       (split;
        [intros Hr; first [discriminate Hr | split; reflexivity]|]).
  all: intros d; cbn [In]; split; intros H;
       repeat match goal with H : _ \/ _ |- _ => destruct H as [H|H] end;
       try contradiction; try discriminate H;
       injection H as <-; tauto.
  Unshelve. all: exact "".
Qed.

(** X9.  [install_scripts] asks [rootdir] afresh for each path it builds
    and creates the directory scripts/modules only when [os.path.exists]
    has just said that it is missing.  In every run, passing or not, the
    calls are a prefix of the installation steps for the values the calls
    made so far have returned, and [os.mkdir] is called for a directory
    exactly when [os.path.exists] returned False for it; in a run that
    passes, utilities.lua was copied into that directory under its own
    name before EFI_SITL.lua and engine_out.lua were installed.  A run
    that fails ends at the call that raised, with the exception of that
    call, all the calls before it having returned. *)
Theorem install_scripts_steps (w : World) :
  exists r1 r2 there r3,
    is_prefix (calls (trace install_scripts w))
      (install_steps r1 r2 there r3) /\
    is_prefix (replies (trace install_scripts w))
      [RStr r1; RStr r2; RBool there; RStr r3] /\
    (result install_scripts w = inr tt ->
       calls (trace install_scripts w) = install_steps r1 r2 there r3 /\
       replies (trace install_scripts w)
       = [RStr r1; RStr r2; RBool there; RStr r3] /\
       forallb returned (trace install_scripts w) = true /\
       (there = true ->
        forall d, ~ In (OsMkdir d) (calls (trace install_scripts w))) /\
       (there = false ->
        In (OsMkdir (os_path_join r2 ["scripts"; "modules"]))
          (calls (trace install_scripts w)))) /\
    (forall d,
       In (OsMkdir d) (calls (trace install_scripts w)) <->
       In (OsPathExists d, inr (RBool false))
          (labels (trace install_scripts w))) /\
    (forall e, result install_scripts w = inl e ->
       exists tr0 ev,
         trace install_scripts w = (tr0 ++ [ev])%list /\
         ev_reply ev = inl e /\
         forallb returned tr0 = true).
Proof.
  destruct (install_scripts_mkdir w)
    as (r1 & r2 & there & r3 & Hp & Hq & Hok & Hmk).
  destruct (plain_install_scripts w) as [_ Hu].
  exists r1, r2, there, r3. split; [exact Hp|]. split; [exact Hq|].
  split; [|split; [exact Hmk|]].
  - intros Hr.
    destruct (Hok Hr) as [Hc Hrep]. split; [exact Hc|]. split; [exact Hrep|].
    split; [eapply uncaught_all_returned; [exact Hu | eauto]|].
    rewrite Hc. unfold install_steps. split; intros ->; cbn [app].
    + intros d H. simpl in H. intuition discriminate.
    + simpl. tauto.
  - intros e He.
    destruct (fails_by_call_install_scripts w e He) as (tr0 & ev & Ht & Hev).
    exists tr0, ev. repeat split; try assumption.
    rewrite Ht in Hu. eapply uncaught_before_returned; exact Hu.
Qed.

Lemma bind_assoc {A B C : Type} (m : M A) (f : A -> M B) (g : B -> M C) w :
  bind (bind m f) g w = bind m (fun a => bind (f a) g) w.
Proof.
  unfold bind. destruct (m w) as [[[e|a] w1] t1]; [reflexivity|].
  destruct (f a w1) as [[[e|b] w2] t2]; [reflexivity|].
  destruct (g b w2) as [[r3 w3] t3]. rewrite app_assoc. reflexivity.
Qed.

(** [EngineOutScript] is its setup followed by the rest. *)
Lemma EngineOutScript_setup w :
  EngineOutScript w
  = bind setup (fun _ =>
      test_guided_override ;; test_random_angles ;; test_qassist_timeout ;;
      test_qrtl_timeout ;; test_parameters_backup_restore ;;
      test_prearm_checks ;; remove_scripts) w.
Proof. unfold setup. rewrite bind_assoc. reflexivity. Qed.

Lemma setup_quiet : only_calls no_marker setup.
Proof.
  unfold setup, install_scripts, prepare_vehicle.
  only_calls_tac ltac:(exact I).
Qed.

(** X10.  No sub-scenario starts before the whole setup has passed: when
    the installation of the scripts, the reboot, FENCE_ENABLE = 0,
    SYSID_MYGCS or the loading of the mission fails, [EngineOutScript]
    ends there with that exception and no subtest is ever started.  When
    the setup passes, SYSID_MYGCS was set to the very value that
    [mav.source_system] returned. *)
Theorem setup_before_subtests (w : World) :
  (forall e, result setup w = inl e ->
     result EngineOutScript w = inl e /\
     trace EngineOutScript w = trace setup w /\
     opened (calls (trace EngineOutScript w)) = []) /\
  (result setup w = inr tt ->
     exists r1 r2 there r3 gcs,
       calls (trace setup w)
       = (install_steps r1 r2 there r3 ++ prepare_steps gcs)%list /\
       replies (trace setup w)
       = [RStr r1; RStr r2; RBool there; RStr r3; RInt gcs] /\
       is_prefix (trace setup w) (trace EngineOutScript w)).
Proof.
  split.
  - intros e He. unfold result, trace. rewrite EngineOutScript_setup.
    destruct (bind_inl setup
                (fun _ => test_guided_override ;; test_random_angles ;;
                   test_qassist_timeout ;; test_qrtl_timeout ;;
                   test_parameters_backup_restore ;; test_prearm_checks ;;
                   remove_scripts) w e He) as (H1 & _ & H3).
    unfold result, trace in H1, H3. rewrite H1, H3.
    split; [reflexivity|]. split; [reflexivity|].
    apply (no_marker_quiet _ (setup_quiet w)).
  - intros Hr. unfold setup in *.
    destruct (bind_inr_inv _ _ _ _ Hr) as ([] & Hi).
    destruct (bind_inr install_scripts (fun _ => prepare_vehicle) w tt Hi)
      as (H1 & _ & H3).
    rewrite H1 in Hr.
    destruct (install_scripts_run w) as (r1 & r2 & there & r3 & _ & Hok).
    destruct (Hok Hi) as [Hc Hrep].
    destruct (prepare_vehicle_run (final install_scripts w))
      as (gcs & _ & Hok2).
    destruct (Hok2 Hr) as [Hc2 Hrep2].
    exists r1, r2, there, r3, gcs.
    rewrite H3. unfold calls, replies in *.
    rewrite map_app, flat_map_app, Hc, Hc2, Hrep, Hrep2.
    split; [reflexivity|]. split; [reflexivity|].
    rewrite <- H3.
    change (install_scripts ;; prepare_vehicle) with setup.
    unfold trace at 2. rewrite EngineOutScript_setup.
    assert (Hs : result setup w = inr tt).
    { unfold setup. rewrite H1. exact Hr. }
    destruct (bind_inr setup
                (fun _ => test_guided_override ;; test_random_angles ;;
                   test_qassist_timeout ;; test_qrtl_timeout ;;
                   test_parameters_backup_restore ;; test_prearm_checks ;;
                   remove_scripts) w tt Hs) as (_ & _ & H6).
    unfold trace in H6 at 1. rewrite H6. eexists. reflexivity.
Qed.

End Setup.

Section Cleanup.
Context `{TS : TestSuite}.

Lemma bind_ret_l {A B : Type} (a : A) (f : A -> M B) w :
  bind (ret a) f w = f a w.
Proof. unfold bind, ret. destruct (f a w) as [[r w2] t2]. reflexivity. Qed.

(** [EngineOutScript] is everything up to the last sub-scenario, followed
    by the removal of the scripts. *)
Lemma EngineOutScript_cleanup w :
  EngineOutScript w = bind (run_before 6) (fun _ => remove_scripts) w.
Proof.
  symmetry. unfold run_before, EngineOutScript.
  cbn [firstn sub_scenarios for_each].
  repeat (rewrite bind_assoc; apply bind_ext; intros [] ?).
  rewrite bind_ret_l. reflexivity.
Qed.

Lemma run_before_no_cleanup :
  only_calls (fun c => is_cleanup c = false) (run_before 6).
Proof.
  unfold run_before. cbn [firstn sub_scenarios for_each].
  autounfold with scripts.
  only_calls_tac ltac:(reflexivity).
Qed.

(** X11.  The installed scripts are removed only by a run in which all six
    sub-scenarios passed: if [remove_installed_modules] or
    [remove_installed_script] is ever called, everything before the
    removal had passed.  A run that fails earlier leaves utilities.lua,
    EFI_SITL.lua and engine_out.lua installed. *)
Theorem cleanup_only_after_all_passed (w : World) :
  existsb is_cleanup (calls (trace EngineOutScript w)) = true ->
  result (run_before 6) w = inr tt.
Proof.
  intros H. destruct (result (run_before 6) w) as [e|[]] eqn:Er;
    [|reflexivity].
  exfalso. unfold trace in H. rewrite EngineOutScript_cleanup in H.
  destruct (bind_inl (run_before 6) (fun _ => remove_scripts) w e Er)
    as (_ & _ & H3).
  unfold trace in H3 at 1. rewrite H3 in H.
  apply existsb_exists in H as (c & Hin & Hc).
  pose proof (run_before_no_cleanup w) as Hall.
  rewrite Forall_forall in Hall. rewrite (Hall c Hin) in Hc. discriminate Hc.
Qed.

End Cleanup.

Lemma cleanup_only_after_all_passed_witness :
  existsb is_cleanup
    (calls (@trace Sim.suite _ EngineOutScript Sim.start)) = true /\
  @result Sim.suite _ (run_before 6) Sim.start = inr tt.
Proof.
  split; [vm_compute; reflexivity|].
  apply (cleanup_only_after_all_passed (TS := Sim.suite) Sim.start).
  vm_compute. reflexivity.
Defined.

(** ** The engine after a failed informational comparison *)

Section EngineLeftStopped.
Context `{TS : TestSuite}.

Lemma progress_no_engine_start tr :
  Forall (fun ev => exists msg, ev_call ev = Progress msg) tr ->
  length (filter is_engine_start (calls tr)) = 0%nat.
Proof.
  induction 1 as [|ev tr [msg Hev] _ IH]; [reflexivity|].
  unfold calls in *. cbn [map filter]. rewrite Hev. exact IH.
Qed.

Lemma wp_print_differences_bind_full {B : Type} params_before params_after
    (f : unit -> M B) Q w :
  (forall (r : exn + unit) w1 t1,
      downloads t1 = [] ->
      length (filter is_engine_start (calls t1)) = 0%nat ->
      (r = inr tt ->
       forall p, In p (dict_keys params_before) ->
         compare_at params_before params_after p <> Missing) ->
      match r with
      | inl e => Q (inl e) w1 t1
      | inr _ => wp (f tt) (fun r2 w2 t2 => Q r2 w2 (t1 ++ t2)%list) w1
      end) ->
  wp (bind (print_differences params_before params_after) f) Q w.
Proof.
  intros H. apply wp_bind. unfold wp at 1.
  pose proof (print_differences_trace params_before params_after w) as Hp.
  destruct (print_loop_run params_before params_after
              (dict_keys params_before) w) as (_ & Hok & _).
  specialize (H (result (print_differences params_before params_after) w)
                (final (print_differences params_before params_after) w)
                _ (downloads_progress _ Hp) (progress_no_engine_start _ Hp)
                (fun Hr => proj2 (Hok Hr))).
  destruct (result (print_differences params_before params_after) w) as [e|[]];
    exact H.
Qed.

Ltac wp_engine :=
  first
    [ wp_head
    | lazymatch goal with
      | |- wp (bind (print_differences ?a ?b) ?f) ?Q ?w =>
          let Hd := fresh "Hd" in
          let Hn := fresh "Hn" in
          let Hm := fresh "Hm" in
          apply (wp_print_differences_bind_full a b f Q w);
          intros [?e|[]] ?w ?t Hd Hn Hm
      | |- wp (bind (assert_parameters_same ?a ?b) ?f) ?Q ?w =>
          let F := fresh "F" in
          apply (wp_assert_parameters_same_bind a b f Q w);
          destruct (first_failure a b (dict_keys a)) eqn:F
      end ].

(** X12.  In the parameter sub-scenario the engine is restarted only after
    the informational comparison has returned.  When a name of the first
    download that is not ignored is missing from the second download, the
    run fails at that comparison: there is no third download, and the only
    engine start of the run is the one of [reset_aircraft], so the engine
    that was stopped is left stopped. *)
Theorem missing_name_leaves_engine_stopped (w : World) :
  let m := test_parameters_backup_restore in
  forall pb p2 rest,
    downloads (trace m w) = pb :: p2 :: rest ->
    (exists p, In p (dict_keys pb) /\ compare_at pb p2 p = Missing) ->
    (exists e, result m w = inl e) /\
    rest = [] /\
    count_calls is_engine_start (trace m w) = 1%nat.
Proof.
  cbv zeta.
  change (wp test_parameters_backup_restore
            (fun r _ tr =>
               forall pb p2 rest,
                 downloads tr = pb :: p2 :: rest ->
                 (exists p, In p (dict_keys pb) /\
                            compare_at pb p2 p = Missing) ->
                 (exists e, r = inl e) /\ rest = [] /\
                 count_calls is_engine_start tr = 1%nat) w).
  unfold test_parameters_backup_restore, reset_aircraft.
  autounfold with methods. repeat wp_engine.
  all: intros pb p2 rest Hdl (p & Hin & Hmiss).
  all: rewrite ?downloads_cons, ?downloads_app, ?downloads_cons in Hdl;
       cbn [ev_call ev_reply to_reply app] in Hdl;
       try match goal with Hd : downloads _ = [] |- _ =>
             rewrite ?Hd in Hdl end;
       cbn [app downloads flat_map] in Hdl.
  all: first
         [ discriminate Hdl
         | injection Hdl as <- <- <-;
           first
             [ exfalso;
               match goal with
               | Hm : inr tt = inr tt -> _ |- _ =>
                   exact (Hm eq_refl p Hin Hmiss)
               end
             | split; [eexists; reflexivity|];
               split; [reflexivity|];
               unfold count_calls, calls in *; cbn [map filter ev_call
                 is_engine_start Z.eqb Pos.eqb length];
               match goal with
               | Hn : length (filter is_engine_start _) = 0%nat |- _ =>
                   rewrite Hn
               end; reflexivity ] ].
Qed.

End EngineLeftStopped.

Lemma missing_name_leaves_engine_stopped_witness :
  @downloads Lossy.suite
    (@trace Lossy.suite _ test_parameters_backup_restore 0%nat)
  = [[("GLIDE_SPD", 22)]; []] /\
  (exists p, In p (dict_keys [("GLIDE_SPD", 22)]) /\
             compare_at (TS := Lossy.suite) [("GLIDE_SPD", 22)] [] p
             = Missing) /\
  (exists e,
      @result Lossy.suite _ test_parameters_backup_restore 0%nat = inl e) /\
  @nil (dict Z) = [] /\
  count_calls is_engine_start
    (@trace Lossy.suite _ test_parameters_backup_restore 0%nat) = 1%nat.
Proof.
  split; [vm_compute; reflexivity|].
  split; [exists "GLIDE_SPD"; split; [left; reflexivity | reflexivity]|].
  apply (missing_name_leaves_engine_stopped (TS := Lossy.suite) 0%nat
           [("GLIDE_SPD", 22)] [] []).
  - vm_compute. reflexivity.
  - exists "GLIDE_SPD". split; [left; reflexivity | reflexivity].
Defined.
